(** * Verification of the CSV bulk-import pipeline of product-importer

    Shallow embedding of [process_csv_import_sync] and
    [trigger_webhooks_sync] (backend/app/tasks.py) and of the progress
    stream of [import_progress] (backend/app/main.py).

    The SQLAlchemy session is modelled by two copies of the database: the
    [committed] one (what other sessions and later runs see) and the
    [working] one (the session's identity map with pending changes; queries
    of the session see it, thanks to autoflush).  [db.commit()] copies the
    working copy to the committed one, or raises; whether the n-th commit of
    a run raises is an input of the run ([commit_result]).  [db.rollback()]
    discards the working copy.  Strings are the UTF-8 encodings of Python
    [str]s; [str.strip()], [str.lower()] and [len] are Python's, on the
    characters; the SQL [lower()] the code compares with is SQLite's, which
    folds ASCII letters only. *)

From Stdlib Require Import String Ascii ZArith List Bool Lia Sorted Permutation.
Import ListNotations.
Open Scope string_scope.
Open Scope Z_scope.

(** ** Python string helpers *)

Module Py.

(** *** Characters of a [str]

    A Python [str] is a sequence of code points; it is held here as its
    UTF-8 encoding (what pandas decodes and what the request bodies carry).
    [utf8_decode] reads the code points back; a byte that does not start a
    well-formed sequence, which no decoded [str] holds, is kept as a raw
    byte. *)
Inductive Tok := CP (z : Z) | Raw (b : ascii).

Definition byte_val (c : ascii) : Z := Z.of_nat (nat_of_ascii c).

Definition byte (z : Z) : ascii := ascii_of_nat (Z.to_nat z).

(** Bytes that continue a UTF-8 sequence (0x80-0xBF). *)
Definition is_cont (c : ascii) : bool :=
  let n := nat_of_ascii c in ((128 <=? n) && (n <? 192))%nat.

Fixpoint utf8_decode (l : list ascii) : list Tok :=
  match l with
  | [] => []
  | b0 :: r0 =>
      let n0 := byte_val b0 in
      if n0 <? 0x80 then CP n0 :: utf8_decode r0 else
      match r0 with
      | b1 :: r1 =>
          if (0xC2 <=? n0) && (n0 <? 0xE0) && is_cont b1 then
            CP ((n0 - 0xC0) * 64 + (byte_val b1 - 0x80)) :: utf8_decode r1
          else
          match r1 with
          | b2 :: r2 =>
              if (0xE0 <=? n0) && (n0 <? 0xF0) && is_cont b1 && is_cont b2 then
                CP (((n0 - 0xE0) * 64 + (byte_val b1 - 0x80)) * 64 + (byte_val b2 - 0x80))
                  :: utf8_decode r2
              else
              match r2 with
              | b3 :: r3 =>
                  if (0xF0 <=? n0) && (n0 <? 0xF5) && is_cont b1 && is_cont b2 && is_cont b3
                  then
                    CP ((((n0 - 0xF0) * 64 + (byte_val b1 - 0x80)) * 64
                         + (byte_val b2 - 0x80)) * 64 + (byte_val b3 - 0x80))
                      :: utf8_decode r3
                  else Raw b0 :: utf8_decode r0
              | [] => Raw b0 :: utf8_decode r0
              end
          | [] => Raw b0 :: utf8_decode r0
          end
      | [] => Raw b0 :: utf8_decode r0
      end
  end.

Definition utf8_encode_cp (z : Z) : list ascii :=
  if z <? 0x80 then [byte z]
  else if z <? 0x800 then [byte (0xC0 + z / 64); byte (0x80 + z mod 64)]
  else if z <? 0x10000 then
    [byte (0xE0 + z / 4096); byte (0x80 + (z / 64) mod 64); byte (0x80 + z mod 64)]
  else
    [byte (0xF0 + z / 262144); byte (0x80 + (z / 4096) mod 64);
     byte (0x80 + (z / 64) mod 64); byte (0x80 + z mod 64)].

Definition utf8_encode (ts : list Tok) : list ascii :=
  flat_map (fun t => match t with CP z => utf8_encode_cp z | Raw b => [b] end) ts.

(** [len(s)]: the characters of [s], i.e. its bytes that do not continue
    a UTF-8 sequence. *)
Definition py_len (s : string) : nat :=
  length (filter (fun c => negb (is_cont c)) (list_ascii_of_string s)).

(** *** [str.strip()] *)

(** [str.isspace] of one character (CPython 3.11, Unicode 14.0): \t \n \v
    \f \r, \x1c-\x1f, space, U+0085, U+00A0, U+1680, U+2000-U+200A, U+2028,
    U+2029, U+202F, U+205F and U+3000. *)
Definition is_space_cp (z : Z) : bool :=
  ((9 <=? z) && (z <=? 13)) || ((28 <=? z) && (z <=? 32)) || (z =? 0x85) ||
  (z =? 0xA0) || (z =? 0x1680) || ((0x2000 <=? z) && (z <=? 0x200A)) ||
  (z =? 0x2028) || (z =? 0x2029) || (z =? 0x202F) || (z =? 0x205F) || (z =? 0x3000).

Definition is_space (t : Tok) : bool :=
  match t with CP z => is_space_cp z | Raw _ => false end.

Fixpoint lstrip_toks (l : list Tok) : list Tok :=
  match l with
  | [] => []
  | t :: l' => if is_space t then lstrip_toks l' else l
  end.

(** [str.strip()] *)
Definition strip (s : string) : string :=
  string_of_list_ascii
    (utf8_encode (rev (lstrip_toks (rev (lstrip_toks
       (utf8_decode (list_ascii_of_string s))))))).

(** *** [str.lower()] *)

(** The one-to-one lower-case mapping of CPython 3.11 (Unicode 14.0), as
    ranges [(lo, hi, step, delta)]: the code points [lo], [lo + step], ...,
    [hi] are lowered by adding [delta]; every other code point is its own
    lower case.  U+0130 (two code points) and U+03A3 (final sigma) are
    handled apart. *)
Definition lower_ranges : list (Z * Z * Z * Z) := [
  (0x41, 0x5A, 1, 32); (0xC0, 0xD6, 1, 32); (0xD8, 0xDE, 1, 32);
  (0x100, 0x12E, 2, 1); (0x132, 0x136, 2, 1); (0x139, 0x147, 2, 1);
  (0x14A, 0x176, 2, 1); (0x178, 0x178, 1, -121); (0x179, 0x17D, 2, 1);
  (0x181, 0x181, 1, 210); (0x182, 0x184, 2, 1); (0x186, 0x186, 1, 206);
  (0x187, 0x187, 1, 1); (0x189, 0x18A, 1, 205); (0x18B, 0x18B, 1, 1);
  (0x18E, 0x18E, 1, 79); (0x18F, 0x18F, 1, 202); (0x190, 0x190, 1, 203);
  (0x191, 0x191, 1, 1); (0x193, 0x193, 1, 205); (0x194, 0x194, 1, 207);
  (0x196, 0x196, 1, 211); (0x197, 0x197, 1, 209); (0x198, 0x198, 1, 1);
  (0x19C, 0x19C, 1, 211); (0x19D, 0x19D, 1, 213); (0x19F, 0x19F, 1, 214);
  (0x1A0, 0x1A4, 2, 1); (0x1A6, 0x1A6, 1, 218); (0x1A7, 0x1A7, 1, 1);
  (0x1A9, 0x1A9, 1, 218); (0x1AC, 0x1AC, 1, 1); (0x1AE, 0x1AE, 1, 218);
  (0x1AF, 0x1AF, 1, 1); (0x1B1, 0x1B2, 1, 217); (0x1B3, 0x1B5, 2, 1);
  (0x1B7, 0x1B7, 1, 219); (0x1B8, 0x1B8, 1, 1); (0x1BC, 0x1BC, 1, 1);
  (0x1C4, 0x1C4, 1, 2); (0x1C5, 0x1C5, 1, 1); (0x1C7, 0x1C7, 1, 2);
  (0x1C8, 0x1C8, 1, 1); (0x1CA, 0x1CA, 1, 2); (0x1CB, 0x1DB, 2, 1);
  (0x1DE, 0x1EE, 2, 1); (0x1F1, 0x1F1, 1, 2); (0x1F2, 0x1F4, 2, 1);
  (0x1F6, 0x1F6, 1, -97); (0x1F7, 0x1F7, 1, -56); (0x1F8, 0x21E, 2, 1);
  (0x220, 0x220, 1, -130); (0x222, 0x232, 2, 1); (0x23A, 0x23A, 1, 10795);
  (0x23B, 0x23B, 1, 1); (0x23D, 0x23D, 1, -163); (0x23E, 0x23E, 1, 10792);
  (0x241, 0x241, 1, 1); (0x243, 0x243, 1, -195); (0x244, 0x244, 1, 69);
  (0x245, 0x245, 1, 71); (0x246, 0x24E, 2, 1); (0x370, 0x372, 2, 1);
  (0x376, 0x376, 1, 1); (0x37F, 0x37F, 1, 116); (0x386, 0x386, 1, 38);
  (0x388, 0x38A, 1, 37); (0x38C, 0x38C, 1, 64); (0x38E, 0x38F, 1, 63);
  (0x391, 0x3A1, 1, 32); (0x3A4, 0x3AB, 1, 32); (0x3CF, 0x3CF, 1, 8);
  (0x3D8, 0x3EE, 2, 1); (0x3F4, 0x3F4, 1, -60); (0x3F7, 0x3F7, 1, 1);
  (0x3F9, 0x3F9, 1, -7); (0x3FA, 0x3FA, 1, 1); (0x3FD, 0x3FF, 1, -130);
  (0x400, 0x40F, 1, 80); (0x410, 0x42F, 1, 32); (0x460, 0x480, 2, 1);
  (0x48A, 0x4BE, 2, 1); (0x4C0, 0x4C0, 1, 15); (0x4C1, 0x4CD, 2, 1);
  (0x4D0, 0x52E, 2, 1); (0x531, 0x556, 1, 48); (0x10A0, 0x10C5, 1, 7264);
  (0x10C7, 0x10C7, 1, 7264); (0x10CD, 0x10CD, 1, 7264); (0x13A0, 0x13EF, 1, 38864);
  (0x13F0, 0x13F5, 1, 8); (0x1C90, 0x1CBA, 1, -3008); (0x1CBD, 0x1CBF, 1, -3008);
  (0x1E00, 0x1E94, 2, 1); (0x1E9E, 0x1E9E, 1, -7615); (0x1EA0, 0x1EFE, 2, 1);
  (0x1F08, 0x1F0F, 1, -8); (0x1F18, 0x1F1D, 1, -8); (0x1F28, 0x1F2F, 1, -8);
  (0x1F38, 0x1F3F, 1, -8); (0x1F48, 0x1F4D, 1, -8); (0x1F59, 0x1F5F, 2, -8);
  (0x1F68, 0x1F6F, 1, -8); (0x1F88, 0x1F8F, 1, -8); (0x1F98, 0x1F9F, 1, -8);
  (0x1FA8, 0x1FAF, 1, -8); (0x1FB8, 0x1FB9, 1, -8); (0x1FBA, 0x1FBB, 1, -74);
  (0x1FBC, 0x1FBC, 1, -9); (0x1FC8, 0x1FCB, 1, -86); (0x1FCC, 0x1FCC, 1, -9);
  (0x1FD8, 0x1FD9, 1, -8); (0x1FDA, 0x1FDB, 1, -100); (0x1FE8, 0x1FE9, 1, -8);
  (0x1FEA, 0x1FEB, 1, -112); (0x1FEC, 0x1FEC, 1, -7); (0x1FF8, 0x1FF9, 1, -128);
  (0x1FFA, 0x1FFB, 1, -126); (0x1FFC, 0x1FFC, 1, -9); (0x2126, 0x2126, 1, -7517);
  (0x212A, 0x212A, 1, -8383); (0x212B, 0x212B, 1, -8262); (0x2132, 0x2132, 1, 28);
  (0x2160, 0x216F, 1, 16); (0x2183, 0x2183, 1, 1); (0x24B6, 0x24CF, 1, 26);
  (0x2C00, 0x2C2F, 1, 48); (0x2C60, 0x2C60, 1, 1); (0x2C62, 0x2C62, 1, -10743);
  (0x2C63, 0x2C63, 1, -3814); (0x2C64, 0x2C64, 1, -10727); (0x2C67, 0x2C6B, 2, 1);
  (0x2C6D, 0x2C6D, 1, -10780); (0x2C6E, 0x2C6E, 1, -10749); (0x2C6F, 0x2C6F, 1, -10783);
  (0x2C70, 0x2C70, 1, -10782); (0x2C72, 0x2C72, 1, 1); (0x2C75, 0x2C75, 1, 1);
  (0x2C7E, 0x2C7F, 1, -10815); (0x2C80, 0x2CE2, 2, 1); (0x2CEB, 0x2CED, 2, 1);
  (0x2CF2, 0x2CF2, 1, 1); (0xA640, 0xA66C, 2, 1); (0xA680, 0xA69A, 2, 1);
  (0xA722, 0xA72E, 2, 1); (0xA732, 0xA76E, 2, 1); (0xA779, 0xA77B, 2, 1);
  (0xA77D, 0xA77D, 1, -35332); (0xA77E, 0xA786, 2, 1); (0xA78B, 0xA78B, 1, 1);
  (0xA78D, 0xA78D, 1, -42280); (0xA790, 0xA792, 2, 1); (0xA796, 0xA7A8, 2, 1);
  (0xA7AA, 0xA7AA, 1, -42308); (0xA7AB, 0xA7AB, 1, -42319); (0xA7AC, 0xA7AC, 1, -42315);
  (0xA7AD, 0xA7AD, 1, -42305); (0xA7AE, 0xA7AE, 1, -42308); (0xA7B0, 0xA7B0, 1, -42258);
  (0xA7B1, 0xA7B1, 1, -42282); (0xA7B2, 0xA7B2, 1, -42261); (0xA7B3, 0xA7B3, 1, 928);
  (0xA7B4, 0xA7C2, 2, 1); (0xA7C4, 0xA7C4, 1, -48); (0xA7C5, 0xA7C5, 1, -42307);
  (0xA7C6, 0xA7C6, 1, -35384); (0xA7C7, 0xA7C9, 2, 1); (0xA7D0, 0xA7D0, 1, 1);
  (0xA7D6, 0xA7D8, 2, 1); (0xA7F5, 0xA7F5, 1, 1); (0xFF21, 0xFF3A, 1, 32);
  (0x10400, 0x10427, 1, 40); (0x104B0, 0x104D3, 1, 40); (0x10570, 0x1057A, 1, 39);
  (0x1057C, 0x1058A, 1, 39); (0x1058C, 0x10592, 1, 39); (0x10594, 0x10595, 1, 39);
  (0x10C80, 0x10CB2, 1, 64); (0x118A0, 0x118BF, 1, 32); (0x16E40, 0x16E5F, 1, 32);
  (0x1E900, 0x1E921, 1, 34)].

(** The characters that are cased and not case-ignorable, and the
    case-ignorable ones, as ranges: what [handle_capital_sigma] consults
    (it asks whether a character is cased only after skipping the
    case-ignorable ones). *)
Definition cased_ranges : list (Z * Z) := [
  (0x41, 0x5A); (0x61, 0x7A); (0xAA, 0xAA); (0xB5, 0xB5); (0xBA, 0xBA);
  (0xC0, 0xD6); (0xD8, 0xF6); (0xF8, 0x1BA); (0x1BC, 0x1BF); (0x1C4, 0x293);
  (0x295, 0x2AF); (0x370, 0x373); (0x376, 0x377); (0x37B, 0x37D); (0x37F, 0x37F);
  (0x386, 0x386); (0x388, 0x38A); (0x38C, 0x38C); (0x38E, 0x3A1); (0x3A3, 0x3F5);
  (0x3F7, 0x481); (0x48A, 0x52F); (0x531, 0x556); (0x560, 0x588); (0x10A0, 0x10C5);
  (0x10C7, 0x10C7); (0x10CD, 0x10CD); (0x10D0, 0x10FA); (0x10FD, 0x10FF); (0x13A0, 0x13F5);
  (0x13F8, 0x13FD); (0x1C80, 0x1C88); (0x1C90, 0x1CBA); (0x1CBD, 0x1CBF); (0x1D00, 0x1D2B);
  (0x1D6B, 0x1D77); (0x1D79, 0x1D9A); (0x1E00, 0x1F15); (0x1F18, 0x1F1D); (0x1F20, 0x1F45);
  (0x1F48, 0x1F4D); (0x1F50, 0x1F57); (0x1F59, 0x1F59); (0x1F5B, 0x1F5B); (0x1F5D, 0x1F5D);
  (0x1F5F, 0x1F7D); (0x1F80, 0x1FB4); (0x1FB6, 0x1FBC); (0x1FBE, 0x1FBE); (0x1FC2, 0x1FC4);
  (0x1FC6, 0x1FCC); (0x1FD0, 0x1FD3); (0x1FD6, 0x1FDB); (0x1FE0, 0x1FEC); (0x1FF2, 0x1FF4);
  (0x1FF6, 0x1FFC); (0x2102, 0x2102); (0x2107, 0x2107); (0x210A, 0x2113); (0x2115, 0x2115);
  (0x2119, 0x211D); (0x2124, 0x2124); (0x2126, 0x2126); (0x2128, 0x2128); (0x212A, 0x212D);
  (0x212F, 0x2134); (0x2139, 0x2139); (0x213C, 0x213F); (0x2145, 0x2149); (0x214E, 0x214E);
  (0x2160, 0x217F); (0x2183, 0x2184); (0x24B6, 0x24E9); (0x2C00, 0x2C7B); (0x2C7E, 0x2CE4);
  (0x2CEB, 0x2CEE); (0x2CF2, 0x2CF3); (0x2D00, 0x2D25); (0x2D27, 0x2D27); (0x2D2D, 0x2D2D);
  (0xA640, 0xA66D); (0xA680, 0xA69B); (0xA722, 0xA76F); (0xA771, 0xA787); (0xA78B, 0xA78E);
  (0xA790, 0xA7CA); (0xA7D0, 0xA7D1); (0xA7D3, 0xA7D3); (0xA7D5, 0xA7D9); (0xA7F5, 0xA7F6);
  (0xA7FA, 0xA7FA); (0xAB30, 0xAB5A); (0xAB60, 0xAB68); (0xAB70, 0xABBF); (0xFB00, 0xFB06);
  (0xFB13, 0xFB17); (0xFF21, 0xFF3A); (0xFF41, 0xFF5A); (0x10400, 0x1044F); (0x104B0, 0x104D3);
  (0x104D8, 0x104FB); (0x10570, 0x1057A); (0x1057C, 0x1058A); (0x1058C, 0x10592); (0x10594, 0x10595);
  (0x10597, 0x105A1); (0x105A3, 0x105B1); (0x105B3, 0x105B9); (0x105BB, 0x105BC); (0x10C80, 0x10CB2);
  (0x10CC0, 0x10CF2); (0x118A0, 0x118DF); (0x16E40, 0x16E7F); (0x1D400, 0x1D454); (0x1D456, 0x1D49C);
  (0x1D49E, 0x1D49F); (0x1D4A2, 0x1D4A2); (0x1D4A5, 0x1D4A6); (0x1D4A9, 0x1D4AC); (0x1D4AE, 0x1D4B9);
  (0x1D4BB, 0x1D4BB); (0x1D4BD, 0x1D4C3); (0x1D4C5, 0x1D505); (0x1D507, 0x1D50A); (0x1D50D, 0x1D514);
  (0x1D516, 0x1D51C); (0x1D51E, 0x1D539); (0x1D53B, 0x1D53E); (0x1D540, 0x1D544); (0x1D546, 0x1D546);
  (0x1D54A, 0x1D550); (0x1D552, 0x1D6A5); (0x1D6A8, 0x1D6C0); (0x1D6C2, 0x1D6DA); (0x1D6DC, 0x1D6FA);
  (0x1D6FC, 0x1D714); (0x1D716, 0x1D734); (0x1D736, 0x1D74E); (0x1D750, 0x1D76E); (0x1D770, 0x1D788);
  (0x1D78A, 0x1D7A8); (0x1D7AA, 0x1D7C2); (0x1D7C4, 0x1D7CB); (0x1DF00, 0x1DF09); (0x1DF0B, 0x1DF1E);
  (0x1E900, 0x1E943); (0x1F130, 0x1F149); (0x1F150, 0x1F169); (0x1F170, 0x1F189)].

Definition case_ignorable_ranges : list (Z * Z) := [
  (0x27, 0x27); (0x2E, 0x2E); (0x3A, 0x3A); (0x5E, 0x5E); (0x60, 0x60);
  (0xA8, 0xA8); (0xAD, 0xAD); (0xAF, 0xAF); (0xB4, 0xB4); (0xB7, 0xB8);
  (0x2B0, 0x36F); (0x374, 0x375); (0x37A, 0x37A); (0x384, 0x385); (0x387, 0x387);
  (0x483, 0x489); (0x559, 0x559); (0x55F, 0x55F); (0x591, 0x5BD); (0x5BF, 0x5BF);
  (0x5C1, 0x5C2); (0x5C4, 0x5C5); (0x5C7, 0x5C7); (0x5F4, 0x5F4); (0x600, 0x605);
  (0x610, 0x61A); (0x61C, 0x61C); (0x640, 0x640); (0x64B, 0x65F); (0x670, 0x670);
  (0x6D6, 0x6DD); (0x6DF, 0x6E8); (0x6EA, 0x6ED); (0x70F, 0x70F); (0x711, 0x711);
  (0x730, 0x74A); (0x7A6, 0x7B0); (0x7EB, 0x7F5); (0x7FA, 0x7FA); (0x7FD, 0x7FD);
  (0x816, 0x82D); (0x859, 0x85B); (0x888, 0x888); (0x890, 0x891); (0x898, 0x89F);
  (0x8C9, 0x902); (0x93A, 0x93A); (0x93C, 0x93C); (0x941, 0x948); (0x94D, 0x94D);
  (0x951, 0x957); (0x962, 0x963); (0x971, 0x971); (0x981, 0x981); (0x9BC, 0x9BC);
  (0x9C1, 0x9C4); (0x9CD, 0x9CD); (0x9E2, 0x9E3); (0x9FE, 0x9FE); (0xA01, 0xA02);
  (0xA3C, 0xA3C); (0xA41, 0xA42); (0xA47, 0xA48); (0xA4B, 0xA4D); (0xA51, 0xA51);
  (0xA70, 0xA71); (0xA75, 0xA75); (0xA81, 0xA82); (0xABC, 0xABC); (0xAC1, 0xAC5);
  (0xAC7, 0xAC8); (0xACD, 0xACD); (0xAE2, 0xAE3); (0xAFA, 0xAFF); (0xB01, 0xB01);
  (0xB3C, 0xB3C); (0xB3F, 0xB3F); (0xB41, 0xB44); (0xB4D, 0xB4D); (0xB55, 0xB56);
  (0xB62, 0xB63); (0xB82, 0xB82); (0xBC0, 0xBC0); (0xBCD, 0xBCD); (0xC00, 0xC00);
  (0xC04, 0xC04); (0xC3C, 0xC3C); (0xC3E, 0xC40); (0xC46, 0xC48); (0xC4A, 0xC4D);
  (0xC55, 0xC56); (0xC62, 0xC63); (0xC81, 0xC81); (0xCBC, 0xCBC); (0xCBF, 0xCBF);
  (0xCC6, 0xCC6); (0xCCC, 0xCCD); (0xCE2, 0xCE3); (0xD00, 0xD01); (0xD3B, 0xD3C);
  (0xD41, 0xD44); (0xD4D, 0xD4D); (0xD62, 0xD63); (0xD81, 0xD81); (0xDCA, 0xDCA);
  (0xDD2, 0xDD4); (0xDD6, 0xDD6); (0xE31, 0xE31); (0xE34, 0xE3A); (0xE46, 0xE4E);
  (0xEB1, 0xEB1); (0xEB4, 0xEBC); (0xEC6, 0xEC6); (0xEC8, 0xECD); (0xF18, 0xF19);
  (0xF35, 0xF35); (0xF37, 0xF37); (0xF39, 0xF39); (0xF71, 0xF7E); (0xF80, 0xF84);
  (0xF86, 0xF87); (0xF8D, 0xF97); (0xF99, 0xFBC); (0xFC6, 0xFC6); (0x102D, 0x1030);
  (0x1032, 0x1037); (0x1039, 0x103A); (0x103D, 0x103E); (0x1058, 0x1059); (0x105E, 0x1060);
  (0x1071, 0x1074); (0x1082, 0x1082); (0x1085, 0x1086); (0x108D, 0x108D); (0x109D, 0x109D);
  (0x10FC, 0x10FC); (0x135D, 0x135F); (0x1712, 0x1714); (0x1732, 0x1733); (0x1752, 0x1753);
  (0x1772, 0x1773); (0x17B4, 0x17B5); (0x17B7, 0x17BD); (0x17C6, 0x17C6); (0x17C9, 0x17D3);
  (0x17D7, 0x17D7); (0x17DD, 0x17DD); (0x180B, 0x180F); (0x1843, 0x1843); (0x1885, 0x1886);
  (0x18A9, 0x18A9); (0x1920, 0x1922); (0x1927, 0x1928); (0x1932, 0x1932); (0x1939, 0x193B);
  (0x1A17, 0x1A18); (0x1A1B, 0x1A1B); (0x1A56, 0x1A56); (0x1A58, 0x1A5E); (0x1A60, 0x1A60);
  (0x1A62, 0x1A62); (0x1A65, 0x1A6C); (0x1A73, 0x1A7C); (0x1A7F, 0x1A7F); (0x1AA7, 0x1AA7);
  (0x1AB0, 0x1ACE); (0x1B00, 0x1B03); (0x1B34, 0x1B34); (0x1B36, 0x1B3A); (0x1B3C, 0x1B3C);
  (0x1B42, 0x1B42); (0x1B6B, 0x1B73); (0x1B80, 0x1B81); (0x1BA2, 0x1BA5); (0x1BA8, 0x1BA9);
  (0x1BAB, 0x1BAD); (0x1BE6, 0x1BE6); (0x1BE8, 0x1BE9); (0x1BED, 0x1BED); (0x1BEF, 0x1BF1);
  (0x1C2C, 0x1C33); (0x1C36, 0x1C37); (0x1C78, 0x1C7D); (0x1CD0, 0x1CD2); (0x1CD4, 0x1CE0);
  (0x1CE2, 0x1CE8); (0x1CED, 0x1CED); (0x1CF4, 0x1CF4); (0x1CF8, 0x1CF9); (0x1D2C, 0x1D6A);
  (0x1D78, 0x1D78); (0x1D9B, 0x1DFF); (0x1FBD, 0x1FBD); (0x1FBF, 0x1FC1); (0x1FCD, 0x1FCF);
  (0x1FDD, 0x1FDF); (0x1FED, 0x1FEF); (0x1FFD, 0x1FFE); (0x200B, 0x200F); (0x2018, 0x2019);
  (0x2024, 0x2024); (0x2027, 0x2027); (0x202A, 0x202E); (0x2060, 0x2064); (0x2066, 0x206F);
  (0x2071, 0x2071); (0x207F, 0x207F); (0x2090, 0x209C); (0x20D0, 0x20F0); (0x2C7C, 0x2C7D);
  (0x2CEF, 0x2CF1); (0x2D6F, 0x2D6F); (0x2D7F, 0x2D7F); (0x2DE0, 0x2DFF); (0x2E2F, 0x2E2F);
  (0x3005, 0x3005); (0x302A, 0x302D); (0x3031, 0x3035); (0x303B, 0x303B); (0x3099, 0x309E);
  (0x30FC, 0x30FE); (0xA015, 0xA015); (0xA4F8, 0xA4FD); (0xA60C, 0xA60C); (0xA66F, 0xA672);
  (0xA674, 0xA67D); (0xA67F, 0xA67F); (0xA69C, 0xA69F); (0xA6F0, 0xA6F1); (0xA700, 0xA721);
  (0xA770, 0xA770); (0xA788, 0xA78A); (0xA7F2, 0xA7F4); (0xA7F8, 0xA7F9); (0xA802, 0xA802);
  (0xA806, 0xA806); (0xA80B, 0xA80B); (0xA825, 0xA826); (0xA82C, 0xA82C); (0xA8C4, 0xA8C5);
  (0xA8E0, 0xA8F1); (0xA8FF, 0xA8FF); (0xA926, 0xA92D); (0xA947, 0xA951); (0xA980, 0xA982);
  (0xA9B3, 0xA9B3); (0xA9B6, 0xA9B9); (0xA9BC, 0xA9BD); (0xA9CF, 0xA9CF); (0xA9E5, 0xA9E6);
  (0xAA29, 0xAA2E); (0xAA31, 0xAA32); (0xAA35, 0xAA36); (0xAA43, 0xAA43); (0xAA4C, 0xAA4C);
  (0xAA70, 0xAA70); (0xAA7C, 0xAA7C); (0xAAB0, 0xAAB0); (0xAAB2, 0xAAB4); (0xAAB7, 0xAAB8);
  (0xAABE, 0xAABF); (0xAAC1, 0xAAC1); (0xAADD, 0xAADD); (0xAAEC, 0xAAED); (0xAAF3, 0xAAF4);
  (0xAAF6, 0xAAF6); (0xAB5B, 0xAB5F); (0xAB69, 0xAB6B); (0xABE5, 0xABE5); (0xABE8, 0xABE8);
  (0xABED, 0xABED); (0xFB1E, 0xFB1E); (0xFBB2, 0xFBC2); (0xFE00, 0xFE0F); (0xFE13, 0xFE13);
  (0xFE20, 0xFE2F); (0xFE52, 0xFE52); (0xFE55, 0xFE55); (0xFEFF, 0xFEFF); (0xFF07, 0xFF07);
  (0xFF0E, 0xFF0E); (0xFF1A, 0xFF1A); (0xFF3E, 0xFF3E); (0xFF40, 0xFF40); (0xFF70, 0xFF70);
  (0xFF9E, 0xFF9F); (0xFFE3, 0xFFE3); (0xFFF9, 0xFFFB); (0x101FD, 0x101FD); (0x102E0, 0x102E0);
  (0x10376, 0x1037A); (0x10780, 0x10785); (0x10787, 0x107B0); (0x107B2, 0x107BA); (0x10A01, 0x10A03);
  (0x10A05, 0x10A06); (0x10A0C, 0x10A0F); (0x10A38, 0x10A3A); (0x10A3F, 0x10A3F); (0x10AE5, 0x10AE6);
  (0x10D24, 0x10D27); (0x10EAB, 0x10EAC); (0x10F46, 0x10F50); (0x10F82, 0x10F85); (0x11001, 0x11001);
  (0x11038, 0x11046); (0x11070, 0x11070); (0x11073, 0x11074); (0x1107F, 0x11081); (0x110B3, 0x110B6);
  (0x110B9, 0x110BA); (0x110BD, 0x110BD); (0x110C2, 0x110C2); (0x110CD, 0x110CD); (0x11100, 0x11102);
  (0x11127, 0x1112B); (0x1112D, 0x11134); (0x11173, 0x11173); (0x11180, 0x11181); (0x111B6, 0x111BE);
  (0x111C9, 0x111CC); (0x111CF, 0x111CF); (0x1122F, 0x11231); (0x11234, 0x11234); (0x11236, 0x11237);
  (0x1123E, 0x1123E); (0x112DF, 0x112DF); (0x112E3, 0x112EA); (0x11300, 0x11301); (0x1133B, 0x1133C);
  (0x11340, 0x11340); (0x11366, 0x1136C); (0x11370, 0x11374); (0x11438, 0x1143F); (0x11442, 0x11444);
  (0x11446, 0x11446); (0x1145E, 0x1145E); (0x114B3, 0x114B8); (0x114BA, 0x114BA); (0x114BF, 0x114C0);
  (0x114C2, 0x114C3); (0x115B2, 0x115B5); (0x115BC, 0x115BD); (0x115BF, 0x115C0); (0x115DC, 0x115DD);
  (0x11633, 0x1163A); (0x1163D, 0x1163D); (0x1163F, 0x11640); (0x116AB, 0x116AB); (0x116AD, 0x116AD);
  (0x116B0, 0x116B5); (0x116B7, 0x116B7); (0x1171D, 0x1171F); (0x11722, 0x11725); (0x11727, 0x1172B);
  (0x1182F, 0x11837); (0x11839, 0x1183A); (0x1193B, 0x1193C); (0x1193E, 0x1193E); (0x11943, 0x11943);
  (0x119D4, 0x119D7); (0x119DA, 0x119DB); (0x119E0, 0x119E0); (0x11A01, 0x11A0A); (0x11A33, 0x11A38);
  (0x11A3B, 0x11A3E); (0x11A47, 0x11A47); (0x11A51, 0x11A56); (0x11A59, 0x11A5B); (0x11A8A, 0x11A96);
  (0x11A98, 0x11A99); (0x11C30, 0x11C36); (0x11C38, 0x11C3D); (0x11C3F, 0x11C3F); (0x11C92, 0x11CA7);
  (0x11CAA, 0x11CB0); (0x11CB2, 0x11CB3); (0x11CB5, 0x11CB6); (0x11D31, 0x11D36); (0x11D3A, 0x11D3A);
  (0x11D3C, 0x11D3D); (0x11D3F, 0x11D45); (0x11D47, 0x11D47); (0x11D90, 0x11D91); (0x11D95, 0x11D95);
  (0x11D97, 0x11D97); (0x11EF3, 0x11EF4); (0x13430, 0x13438); (0x16AF0, 0x16AF4); (0x16B30, 0x16B36);
  (0x16B40, 0x16B43); (0x16F4F, 0x16F4F); (0x16F8F, 0x16F9F); (0x16FE0, 0x16FE1); (0x16FE3, 0x16FE4);
  (0x1AFF0, 0x1AFF3); (0x1AFF5, 0x1AFFB); (0x1AFFD, 0x1AFFE); (0x1BC9D, 0x1BC9E); (0x1BCA0, 0x1BCA3);
  (0x1CF00, 0x1CF2D); (0x1CF30, 0x1CF46); (0x1D167, 0x1D169); (0x1D173, 0x1D182); (0x1D185, 0x1D18B);
  (0x1D1AA, 0x1D1AD); (0x1D242, 0x1D244); (0x1DA00, 0x1DA36); (0x1DA3B, 0x1DA6C); (0x1DA75, 0x1DA75);
  (0x1DA84, 0x1DA84); (0x1DA9B, 0x1DA9F); (0x1DAA1, 0x1DAAF); (0x1E000, 0x1E006); (0x1E008, 0x1E018);
  (0x1E01B, 0x1E021); (0x1E023, 0x1E024); (0x1E026, 0x1E02A); (0x1E130, 0x1E13D); (0x1E2AE, 0x1E2AE);
  (0x1E2EC, 0x1E2EF); (0x1E8D0, 0x1E8D6); (0x1E944, 0x1E94B); (0x1F3FB, 0x1F3FF); (0xE0001, 0xE0001);
  (0xE0020, 0xE007F); (0xE0100, 0xE01EF)].

Definition in_ranges (rs : list (Z * Z)) (z : Z) : bool :=
  existsb (fun '(lo, hi) => (lo <=? z) && (z <=? hi)) rs.

Definition lower_simple (z : Z) : Z :=
  match find (fun '(lo, hi, step, _) => (lo <=? z) && (z <=? hi) && ((z - lo) mod step =? 0))
             lower_ranges with
  | Some (_, _, _, d) => z + d
  | None => z
  end.

(** [_PyUnicode_ToLowerFull] *)
Definition lower_full (z : Z) : list Z :=
  if z =? 0x130 then [0x69; 0x307] else [lower_simple z].

Definition is_cased (t : Tok) : bool :=
  match t with CP z => in_ranges cased_ranges z | Raw _ => false end.

Definition is_case_ignorable (t : Tok) : bool :=
  match t with CP z => in_ranges case_ignorable_ranges z | Raw _ => false end.

(** Whether the first character of [l] that is not case-ignorable is
    cased. *)
Fixpoint next_cased (l : list Tok) : bool :=
  match l with
  | [] => false
  | t :: l' => if is_case_ignorable t then next_cased l' else is_cased t
  end.

(** [handle_capital_sigma]: [before] holds the characters before the
    sigma, nearest first, [after] those after it. *)
Definition final_sigma (before after : list Tok) : bool :=
  next_cased before && negb (next_cased after).

(** [do_lower]: each character lowered, reading the original characters
    around a capital sigma. *)
Fixpoint lower_toks (before l : list Tok) : list Tok :=
  match l with
  | [] => []
  | t :: l' =>
      (match t with
       | CP z =>
           if z =? 0x3A3 then [CP (if final_sigma before l' then 0x3C2 else 0x3C3)]
           else map CP (lower_full z)
       | Raw b => [Raw b]
       end ++ lower_toks (t :: before) l')%list
  end.

(** [str.lower()] *)
Definition lower (s : string) : string :=
  string_of_list_ascii (utf8_encode (lower_toks [] (utf8_decode (list_ascii_of_string s)))).

(** *** Numbers and joins *)

Fixpoint digits_aux (fuel : nat) (n : Z) (acc : string) : string :=
  match fuel with
  | O => acc
  | S f =>
      let acc' := String (ascii_of_nat (48 + Z.to_nat (n mod 10))) acc in
      if n <? 10 then acc' else digits_aux f (n / 10) acc'
  end.

(** Decimal digits of a non-negative integer. *)
Definition digits (n : Z) : string := digits_aux (S (Z.to_nat (Z.log2 n))) n "".

(** [str(n)] for an [int]. *)
Definition str_int (n : Z) : string :=
  if n <? 0 then "-" ++ digits (- n) else digits n.

Fixpoint commas_rev (l : list ascii) : list ascii :=
  match l with
  | a :: b :: c :: ((_ :: _) as rest) => a :: b :: c :: ","%char :: commas_rev rest
  | _ => l
  end.

(** [f"{n:,}"]: digits grouped by three with commas. *)
Definition fmt_comma (n : Z) : string :=
  (if n <? 0 then "-" else "") ++
  string_of_list_ascii
    (rev (commas_rev (rev (list_ascii_of_string (digits (Z.abs n)))))).

(** ["sep".join(xs)] *)
Fixpoint join (sep : string) (xs : list string) : string :=
  match xs with
  | [] => ""
  | [x] => x
  | x :: xs' => x ++ sep ++ join sep xs'
  end.

(** A cell of a pandas row, or the default of [row.get]: [None], a missing
    value ([NaN], what pandas reads for an empty field) or a value, given by
    its [str()] rendering. *)
Inductive PyVal := PNone | PNaN | PStr (s : string).

Definition str (v : PyVal) : string :=
  match v with PNone => "None" | PNaN => "nan" | PStr s => s end.

(** [pd.notna(v)] *)
Definition notna (v : PyVal) : bool :=
  match v with PStr _ => true | _ => false end.

End Py.

Import Py.

(** ** SQL functions *)

(** [lower()] of SQLite, the database the repository runs its tests on
    (the engine module, backend/app/database.py, is not in the
    repository): it folds the ASCII letters only. *)
Definition lower_char (c : ascii) : ascii :=
  let n := nat_of_ascii c in
  if ((65 <=? n) && (n <=? 90))%nat then ascii_of_nat (n + 32) else c.

Definition sql_lower (s : string) : string :=
  string_of_list_ascii (map lower_char (list_ascii_of_string s)).

(** ** Data model (backend/app/models.py) *)

Inductive Status :=
  Pending | Parsing | Importing | Completed | CompletedWithErrors | Failed.

Definition Status_eqb (a b : Status) : bool :=
  match a, b with
  | Pending, Pending | Parsing, Parsing | Importing, Importing
  | Completed, Completed | CompletedWithErrors, CompletedWithErrors
  | Failed, Failed => true
  | _, _ => false
  end.

(** [ImportJob]; [id] and [created_at] are not modelled. *)
Record ImportJob := mkJob {
  status : Status;
  total_rows : Z;
  processed_rows : Z;
  error_message : option string;
  completed_at : option Z
}.

(** The row [import_products] creates: [ImportJob(id=job_id, status="pending")]. *)
Definition new_job : ImportJob := mkJob Pending 0 0 None None.

Definition job_with_status (st : Status) (j : ImportJob) : ImportJob :=
  mkJob st (total_rows j) (processed_rows j) (error_message j) (completed_at j).
Definition job_with_total (n : Z) (j : ImportJob) : ImportJob :=
  mkJob (status j) n (processed_rows j) (error_message j) (completed_at j).
Definition job_with_processed (n : Z) (j : ImportJob) : ImportJob :=
  mkJob (status j) (total_rows j) n (error_message j) (completed_at j).
Definition job_with_error (m : option string) (j : ImportJob) : ImportJob :=
  mkJob (status j) (total_rows j) (processed_rows j) m (completed_at j).
Definition job_with_completed (t : option Z) (j : ImportJob) : ImportJob :=
  mkJob (status j) (total_rows j) (processed_rows j) (error_message j) t.

(** [Product]; [id] and [created_at] are not modelled. *)
Record Product := mkProduct {
  sku : string;
  name : string;
  description : string;
  active : bool;
  updated_at : option Z
}.

Record Webhook := mkWebhook {
  url : string;
  event_type : string;
  enabled : bool
}.

(** The tables the pipeline touches: the [import_jobs] row with the run's
    [job_id] (if any), [products] and [webhooks]. *)
Record DB := mkDB {
  db_job : option ImportJob;
  db_products : list Product;
  db_webhooks : list Webhook
}.

Definition db_with_job (j : option ImportJob) (d : DB) : DB :=
  mkDB j (db_products d) (db_webhooks d).
Definition db_with_products (ps : list Product) (d : DB) : DB :=
  mkDB (db_job d) ps (db_webhooks d).

(** Webhook payload [{job_id, count, created, updated, errors}]. *)
Record Payload := mkPayload {
  pl_job_id : string;
  pl_count : Z;
  pl_created : Z;
  pl_updated : Z;
  pl_errors : Z
}.

(** One webhook invocation of a run: enqueued with [trigger_webhooks.delay],
    or run inline by [trigger_webhooks_sync], with the delivery attempts it
    made (listener url, and the exception of the POST if it raised). *)
Inductive Dispatch :=
  | DispatchAsync (event : string) (p : Payload)
  | DispatchSync (event : string) (p : Payload)
      (attempts : list (string * option string)).

Definition dispatch_payload (d : Dispatch) : Payload :=
  match d with DispatchAsync _ p | DispatchSync _ p _ => p end.

(** A data row of the parsed CSV: column name and cell. *)
Definition Row := list (string * PyVal).

(** [row.get(k, default)] *)
Definition row_get (row : Row) (k : string) (default : PyVal) : PyVal :=
  match find (fun kv => String.eqb (fst kv) k) row with
  | Some (_, v) => v
  | None => default
  end.

(** Outcome of [pd.read_csv(file_path, encoding='utf-8')]. *)
Inductive ReadResult :=
  | CsvDecodeError
  | CsvParseError (e : string)
  | CsvOk (columns : list string) (rows : list Row).

(** The outside world of one run: which commits raise (by their rank in the
    run, with the exception text), the file contents, which row upserts raise
    (by row index), whether the Celery broker accepts [delay], which webhook
    POSTs raise (by url) and whether [os.remove] raises. *)
Record Env := mkEnv {
  commit_result : nat -> option string;
  read_csv : ReadResult;
  upsert_error : Z -> option string;
  celery_available : bool;
  post_result : string -> option string;
  remove_error : option string
}.

(** ** The session and the monad *)

Record St := mkSt {
  committed : DB;
  working : DB;
  ncommit : nat;
  history : list ImportJob;   (** committed job rows, newest first *)
  clock : Z;
  file_present : bool;
  logs : list string;
  dispatched : list Dispatch
}.

Definition st_with_working (d : DB) (s : St) : St :=
  mkSt (committed s) d (ncommit s) (history s) (clock s) (file_present s)
    (logs s) (dispatched s).
Definition st_with_ncommit (n : nat) (s : St) : St :=
  mkSt (committed s) (working s) n (history s) (clock s) (file_present s)
    (logs s) (dispatched s).
Definition st_committing (s : St) : St :=
  mkSt (working s) (working s) (S (ncommit s))
    (match db_job (working s) with Some j => j :: history s | None => history s end)
    (clock s) (file_present s) (logs s) (dispatched s).
Definition st_with_clock (t : Z) (s : St) : St :=
  mkSt (committed s) (working s) (ncommit s) (history s) t (file_present s)
    (logs s) (dispatched s).
Definition st_with_file (b : bool) (s : St) : St :=
  mkSt (committed s) (working s) (ncommit s) (history s) (clock s) b
    (logs s) (dispatched s).
Definition st_with_logs (l : list string) (s : St) : St :=
  mkSt (committed s) (working s) (ncommit s) (history s) (clock s)
    (file_present s) l (dispatched s).
Definition st_with_dispatched (l : list Dispatch) (s : St) : St :=
  mkSt (committed s) (working s) (ncommit s) (history s) (clock s)
    (file_present s) (logs s) l.

Inductive Res (A : Type) := Ok (a : A) | Exc (e : string).
Arguments Ok {A} a.
Arguments Exc {A} e.

(** State and exception monad: a raised Python exception carries its text. *)
Definition M (A : Type) := St -> Res A * St.

Definition ret {A} (a : A) : M A := fun s => (Ok a, s).
Definition bind {A B} (m : M A) (k : A -> M B) : M B :=
  fun s => match m s with
           | (Ok a, s') => k a s'
           | (Exc e, s') => (Exc e, s')
           end.
Definition raise {A} (e : string) : M A := fun s => (Exc e, s).
(** [try: m except Exception as e: h(e)] *)
Definition try_except {A} (m : M A) (h : string -> M A) : M A :=
  fun s => match m s with
           | (Ok a, s') => (Ok a, s')
           | (Exc e, s') => h e s'
           end.
Definition gets {A} (f : St -> A) : M A := fun s => (Ok (f s), s).
Definition modify (f : St -> St) : M unit := fun s => (Ok tt, f s).

Notation "x <- m ;; k" := (bind m (fun x => k))
  (at level 61, m at next level, right associativity).
Notation "m ;;; k" := (bind m (fun _ => k))
  (at level 61, right associativity).

Definition nl : string := String (ascii_of_nat 10) EmptyString.

(** ** [process_csv_import_sync] (backend/app/tasks.py) *)

Section Pipeline.

Variable env : Env.

(** [db.commit()]: the n-th commit of the run raises [commit_result env n]. *)
Definition commit : M unit :=
  fun s => match commit_result env (ncommit s) with
           | None => (Ok tt, st_committing s)
           | Some e => (Exc e, st_with_ncommit (S (ncommit s)) s)
           end.

(** [db.rollback()]: pending changes are discarded and loaded objects are
    expired, so they are read again from the committed state. *)
Definition rollback : M unit :=
  modify (fun s => st_with_working (committed s) s).

(** [db.close()] in [finally]: uncommitted changes are dropped. *)
Definition close : M unit := rollback.

(** The session's [job] object: reads and attribute writes. *)
Definition get_job : M (option ImportJob) := gets (fun s => db_job (working s)).
Definition update_job (f : ImportJob -> ImportJob) : M unit :=
  modify (fun s => st_with_working (db_with_job (option_map f (db_job (working s)))
                                                (working s)) s).

(** [datetime.utcnow()] *)
Definition utcnow : M Z :=
  fun s => (Ok (clock s), st_with_clock (clock s + 1) s).

Definition log (msg : string) : M unit :=
  modify (fun s => st_with_logs ((logs s ++ [msg])%list) s).

(** The terminal write of the early failure paths (lines 59-63, 73-77,
    80-84, 92-102). *)
Definition fail_job (msg : string) : M unit :=
  t <- utcnow ;;
  update_job (fun j => job_with_completed (Some t)
                         (job_with_error (Some msg) (job_with_status Failed j))) ;;;
  commit.

(** *** Row validation (lines 128-148) *)

Definition null_token (s : string) : bool :=
  existsb (String.eqb s) ["nan"; "none"; ""].

Inductive RowCheck :=
  | Reject (msg : string)
  | Accept (sku name description : string).

Definition validate_row (idx : Z) (row : Row) : RowCheck :=
  let sku := strip (str (row_get row "sku" (PStr ""))) in
  if String.eqb sku "" || null_token (lower sku) then
    Reject ("Row " ++ str_int (idx + 2) ++ ": Empty or invalid SKU")
  else
    let name := strip (str (row_get row "name" (PStr ""))) in
    let description :=
      if notna (row_get row "description" PNone)
      then strip (str (row_get row "description" PNone)) else "" in
    if String.eqb name "" || null_token (lower name) then
      Reject ("Row " ++ str_int (idx + 2) ++ " (SKU: " ++ sku
              ++ "): Missing or invalid product name")
    else Accept sku name description.

(** *** Upsert (lines 151-171) *)

Definition sku_matches (key : string) (p : Product) : bool :=
  String.eqb (sql_lower (sku p)) key.

(** The first product (in table order) whose [func.lower(sku)] is [key]
    gets the new name, description and timestamp. *)
Fixpoint update_first (key name description : string) (t : Z)
    (ps : list Product) : list Product :=
  match ps with
  | [] => []
  | p :: ps' =>
      if sku_matches key p
      then mkProduct (sku p) name description (active p) (Some t) :: ps'
      else p :: update_first key name description t ps'
  end.

(** Pure upsert on the product table: the new table and whether the row
    updated an existing product. *)
Definition upsert_products (sku_v name_v description_v : string) (t : Z)
    (ps : list Product) : list Product * bool :=
  let key := lower sku_v in
  match find (sku_matches key) ps with
  | Some _ => (update_first key name_v description_v t ps, true)
  | None => ((ps ++ [mkProduct sku_v name_v description_v true None])%list, false)
  end.

(** The query of a row may raise (e.g. the autoflush of earlier rows). *)
Definition upsert (idx : Z) (sku_v name_v description_v : string) : M bool :=
  match upsert_error env idx with
  | Some e => raise e
  | None =>
      t <- utcnow ;;
      fun s =>
        let (ps, updated) :=
          upsert_products sku_v name_v description_v t (db_products (working s)) in
        (Ok updated, st_with_working (db_with_products ps (working s)) s)
  end.

(** *** Counters of the run (locals of [process_csv_import_sync]) *)

Record Acc := mkAcc {
  processed_count : Z;
  created_count : Z;
  updated_count : Z;
  error_count : Z;
  errors : list string
}.

Definition acc0 : Acc := mkAcc 0 0 0 0 [].

Definition add_error (msg : string) (a : Acc) : Acc :=
  mkAcc (processed_count a) (created_count a) (updated_count a)
    (error_count a + 1) ((errors a ++ [msg])%list).

Definition chunk_size : Z := 100.

(** One iteration of [for idx, row in chunk.iterrows()] (lines 126-192). *)
Definition process_row (ir : Z * Row) (a : Acc) : M Acc :=
  let (idx, row) := ir in
  try_except
    (match validate_row idx row with
     | Reject msg => ret (add_error msg a)
     | Accept sku_v name_v description_v =>
         updated <- upsert idx sku_v name_v description_v ;;
         let a1 :=
           if updated
           then mkAcc (processed_count a) (created_count a) (updated_count a + 1)
                  (error_count a) (errors a)
           else mkAcc (processed_count a) (created_count a + 1) (updated_count a)
                  (error_count a) (errors a) in
         let a2 := mkAcc (processed_count a1 + 1) (created_count a1)
                     (updated_count a1) (error_count a1) (errors a1) in
         if processed_count a2 mod 50 =? 0 then
           try_except (commit ;;; ret a2)
             (fun e => rollback ;;;
                ret (add_error ("Database error at row " ++ str_int (idx + 2)
                                ++ ": " ++ e) a2))
         else ret a2
     end)
    (fun e => ret (add_error ("Row " ++ str_int (idx + 2) ++ " (SKU: "
                              ++ str (row_get row "sku" (PStr "N/A")) ++ "): " ++ e) a)).

Fixpoint for_each {X A} (xs : list X) (f : X -> A -> M A) (a : A) : M A :=
  match xs with
  | [] => ret a
  | x :: xs' => a' <- f x a ;; for_each xs' f a'
  end.

(** The rows loop, the chunk commit and its recovery (lines 125-203). *)
Definition chunk_rows (i : Z) (chunk : list (Z * Row)) (a : Acc) : M Acc :=
  a1 <- for_each chunk process_row a ;;
  try_except (commit ;;; ret a1)
    (fun e => rollback ;;;
       let msg := "Failed to commit chunk at row " ++ str_int i ++ ": " ++ e in
       ret (mkAcc (processed_count a1) (created_count a1) (updated_count a1)
              (error_count a1 + (chunk_size - processed_count a1))
              (app (errors a1) [msg]))).

(** One iteration of [for i in range(0, total_rows, chunk_size)]
    (lines 120-210; the unused [progress_pct] of line 210 is left out). *)
Definition process_chunk (total : Z) (i : Z) (chunk : list (Z * Row)) (a : Acc)
    : M Acc :=
  a2 <- chunk_rows i chunk a ;;
  update_job (job_with_processed (Z.min (i + chunk_size) total)) ;;;
  commit ;;;
  ret a2.

(** [range(0, n, chunk_size)] *)
Definition chunk_offsets (n : nat) : list Z :=
  map (fun k => Z.of_nat k * chunk_size) (seq 0 ((n + 99) / 100)).

(** [df.iloc[i:i + chunk_size]], each row with its (default, zero-based)
    index. *)
Definition iloc_chunk (rows : list Row) (i : Z) : list (Z * Row) :=
  firstn (Z.to_nat chunk_size)
    (skipn (Z.to_nat i) (combine (map Z.of_nat (seq 0 (length rows))) rows)).

Definition import_rows (rows : list Row) (a : Acc) : M Acc :=
  let total := Z.of_nat (length rows) in
  for_each (chunk_offsets (length rows))
    (fun i a' => process_chunk total i (iloc_chunk rows i) a') a.

(** *** Terminal classification (lines 220-254) *)

Definition bullets (errs : list string) : string :=
  join nl (map (fun e => "• " ++ e) errs).

Definition more_suffix (k : nat) (errs : list string) : string :=
  if (k <? length errs)%nat
  then nl ++ nl ++ "... and " ++ str_int (Z.of_nat (length errs - k)) ++ " more errors"
  else "".

Definition failed_summary (a : Acc) : string :=
  "❌ Import Failed - No products were imported" ++ nl ++ nl
  ++ "Total errors: " ++ str_int (error_count a) ++ nl ++ nl
  ++ "First " ++ str_int (Z.of_nat (Nat.min 10 (length (errors a)))) ++ " errors:" ++ nl
  ++ bullets (firstn 10 (errors a))
  ++ more_suffix 10 (errors a).

Definition partial_summary (a : Acc) (total : Z) : string :=
  "⚠️ Import completed with errors" ++ nl ++ nl
  ++ "Successfully processed: " ++ fmt_comma (processed_count a) ++ "/"
  ++ fmt_comma total ++ " products" ++ nl
  ++ "✓ Created: " ++ fmt_comma (created_count a) ++ nl
  ++ "✓ Updated: " ++ fmt_comma (updated_count a) ++ nl
  ++ "❌ Errors: " ++ fmt_comma (error_count a) ++ nl ++ nl
  ++ "First " ++ str_int (Z.of_nat (Nat.min 5 (length (errors a)))) ++ " errors:" ++ nl
  ++ bullets (firstn 5 (errors a))
  ++ more_suffix 5 (errors a).

Definition classify (a : Acc) (total : Z) : Status * option string :=
  if (error_count a >? 0) && (processed_count a =? 0) then
    (Failed, Some (failed_summary a))
  else if error_count a >? 0 then
    (CompletedWithErrors, Some (partial_summary a total))
  else (Completed, None).

(** *** Webhooks (lines 261-278 and [trigger_webhooks_sync]) *)

Definition deliver (event : string) (w : Webhook)
    : (string * option string) * list string :=
  match post_result env (url w) with
  | None => ((url w, None), [])
  | Some e => ((url w, Some e), ["Webhook failed: " ++ url w ++ " - Error: " ++ e])
  end.

(** [trigger_webhooks_sync(event_type, payload)] on the committed webhook
    table: the delivery attempts and the log lines. *)
Fixpoint deliver_all (event : string) (ws : list Webhook)
    : list (string * option string) * list string :=
  match ws with
  | [] => ([], [])
  | w :: ws' =>
      let (att, l) := deliver event w in
      let (atts, ls) := deliver_all event ws' in
      (att :: atts, app l ls)
  end.

Definition trigger_webhooks_sync (hooks : list Webhook) (event : string)
    : list (string * option string) * list string :=
  let ws := filter (fun w => String.eqb (event_type w) event && enabled w) hooks in
  match ws with
  | [] => ([], [])
  | _ => deliver_all event ws
  end.

Definition dispatch_imported (p : Payload) : M unit :=
  if celery_available env then
    modify (fun s => st_with_dispatched
                       (app (dispatched s) [DispatchAsync "product.imported" p]) s)
  else
    modify (fun s =>
      let (atts, ls) := trigger_webhooks_sync (db_webhooks (committed s))
                          "product.imported" in
      st_with_logs (app (logs s) ls)
        (st_with_dispatched
           (app (dispatched s) [DispatchSync "product.imported" p atts]) s)).

(** *** Removal of the staged file (lines 281-286) *)

Definition cleanup : M unit :=
  present <- gets file_present ;;
  if present then
    match remove_error env with
    | None => modify (st_with_file false)
    | Some e => log ("Could not delete temp file: " ++ e)
    end
  else ret tt.

(** *** The whole task *)

Definition missing_columns_msg (missing cols : list string) : string :=
  "❌ Missing required columns: " ++ join ", " missing ++ nl ++ nl
  ++ "Required columns: sku, name" ++ nl
  ++ "Found columns: " ++ join ", " cols ++ nl ++ nl
  ++ "Please add the missing columns to your CSV and try again.".

Definition parse_error_msg (e : string) : string :=
  "Failed to parse CSV file: " ++ e ++ nl ++ nl ++ "Please check:" ++ nl
  ++ "- File is a valid CSV" ++ nl ++ "- File is not corrupted" ++ nl
  ++ "- File encoding is UTF-8".

Definition decode_error_msg : string :=
  "CSV encoding error. Please save your CSV as UTF-8 and try again.".

(** The rows phase and what follows it (lines 108-286). *)
Definition import_phase (job_id : string) (rows : list Row) : M unit :=
  let total := Z.of_nat (length rows) in
  update_job (fun j => job_with_status Importing (job_with_total total j)) ;;;
  commit ;;;
  a <- import_rows rows acc0 ;;
  try_except commit (fun e => log ("Final commit error: " ++ e)) ;;;
  let (st, msg) := classify a total in
  update_job (fun j => job_with_error msg (job_with_status st j)) ;;;
  t <- utcnow ;;
  update_job (job_with_completed (Some t)) ;;;
  commit ;;;
  oj <- get_job ;;
  match oj with
  | Some j =>
      if Status_eqb (status j) Completed || Status_eqb (status j) CompletedWithErrors
      then dispatch_imported (mkPayload job_id (processed_count a) (created_count a)
                                (updated_count a) (error_count a))
      else ret tt
  | None => ret tt
  end ;;;
  cleanup.

(** The body of the top-level [try] (lines 48-286). *)
Definition body (job_id file_path : string) : M unit :=
  oj <- get_job ;;
  match oj with
  | None => ret tt
  | Some _ =>
      update_job (job_with_status Parsing) ;;;
      commit ;;;
      present <- gets file_present ;;
      if negb present then fail_job ("File not found at path: " ++ file_path)
      else
        match read_csv env with
        | CsvDecodeError => fail_job decode_error_msg
        | CsvParseError e => fail_job (parse_error_msg e)
        | CsvOk cols rows =>
            let missing :=
              filter (fun c => negb (existsb (String.eqb c) cols)) ["sku"; "name"] in
            match missing with
            | _ :: _ => fail_job (missing_columns_msg missing cols)
            | [] => import_phase job_id rows
            end
        end
  end.

(** [traceback.format_exc()] for an exception of text [e]; only its last
    line, the exception itself, is modelled. *)
Definition format_exc (e : string) : string :=
  "Traceback (most recent call last):" ++ nl ++ e.

(** The top-level handler (lines 290-304). *)
Definition fatal_handler (e : string) : M unit :=
  log "Fatal error while processing CSV import" ;;;
  oj <- get_job ;;
  match oj with
  | Some _ =>
      try_except
        (fail_job ("❌ Fatal Error: " ++ e ++ nl ++ nl ++ "Full error details:" ++ nl
                   ++ format_exc e))
        (fun db_error => log ("Failed to update job status in database: " ++ db_error))
  | None => ret tt
  end.

Definition process_csv_import_sync (job_id file_path : string) : M unit :=
  try_except (body job_id file_path) fatal_handler ;;;
  close.

End Pipeline.

(** Initial state of a run: the committed database, nothing pending, the
    staged file present or not. *)
Definition init_st (d : DB) (t : Z) (present : bool) : St :=
  mkSt d d 0 [] t present [] [].

Definition run (env : Env) (d : DB) (present : bool) (job_id file_path : string) : St :=
  snd (process_csv_import_sync env job_id file_path (init_st d 0 present)).

(** ** The progress stream of [import_progress] (backend/app/main.py) *)

(** One SSE event: [{'status': 'invalid_id'}], [{'status': 'not_found'}] or a
    snapshot [{status, processed, total, percent, error}].  The float
    [percent] is not modelled. *)
Inductive ProgressEvent :=
  | EvInvalidId
  | EvNotFound
  | EvSnapshot (st : Status) (processed total : Z) (error : option string).

Definition terminal (st : Status) : bool :=
  match st with
  | Completed | CompletedWithErrors | Failed => true
  | _ => false
  end.

(** The polling loop [for _ in range(600)]: [read k] is the job row seen by
    the k-th query (after [db.expire_all()]).  Returns the events and the
    number of queries made. *)
Fixpoint poll (fuel k : nat) (read : nat -> option ImportJob)
    : list ProgressEvent * nat :=
  match fuel with
  | O => ([], O)
  | S f =>
      match read k with
      | None => ([EvNotFound], 1%nat)
      | Some j =>
          let ev := EvSnapshot (status j) (processed_rows j) (total_rows j)
                      (error_message j) in
          if terminal (status j) then ([ev], 1%nat)
          else let (evs, n) := poll f (S k) read in (ev :: evs, S n)
      end
  end.

Definition event_generator (job_id : string) (read : nat -> option ImportJob)
    : list ProgressEvent * nat :=
  if String.eqb job_id "" || negb (py_len job_id =? 36)%nat
  then ([EvInvalidId], O)
  else poll 600 0 read.

(** ** The REST API (backend/app/main.py) *)

(** The answer of an endpoint: a JSON body, an [HTTPException(code,
    detail)], or the 422 answer FastAPI gives when the request does not
    validate against the declared parameters and body model. *)
Inductive Resp (A : Type) :=
  | RespOk (body : A)
  | RespErr (code : Z) (detail : string)
  | RespInvalid.
Arguments RespOk {A} body.
Arguments RespErr {A} code detail.
Arguments RespInvalid {A}.

(** A field of a JSON request body: left out, [null], or a value. *)
Inductive Field (A : Type) := Absent | Null | Given (a : A).
Arguments Absent {A}.
Arguments Null {A}.
Arguments Given {A} a.

(** *** Request models (lines 31-51) *)

(** [constr(strip_whitespace=True, min_length=lo, max_length=hi)]. *)
Definition constr (lo hi : nat) (s : string) : option string :=
  let t := strip s in
  if ((lo <=? py_len t) && (py_len t <=? hi))%nat then Some t else None.

Record ProductCreate := mkProductCreate {
  pc_sku : string;
  pc_name : string;
  pc_description : option string;
  pc_active : option bool
}.

Record ProductUpdate := mkProductUpdate {
  pu_sku : option string;
  pu_name : option string;
  pu_description : option string;
  pu_active : option bool
}.

Record WebhookCreate := mkWebhookCreate {
  wc_url : string;
  wc_event_type : string;
  wc_enabled : option bool
}.

Record WebhookUpdate := mkWebhookUpdate {
  wu_url : option string;
  wu_event_type : option string;
  wu_enabled : option bool
}.

(** A required field: [None] when it does not validate. *)
Definition req {A} (f : Field A) : option A :=
  match f with Given a => Some a | _ => None end.

(** The value of a field [Optional[T] = default] ([None] for [null]). *)
Definition opt_default {A} (default : A) (f : Field A) : option A :=
  match f with Absent => Some default | Null => None | Given a => Some a end.

(** A field [T = default]: [null] does not validate ([None]). *)
Definition req_default {A} (default : A) (f : Field A) : option A :=
  match f with Absent => Some default | Null => None | Given a => Some a end.

(** The value of a field [Optional[T] = None]. *)
Definition opt_none {A} (f : Field A) : option A :=
  match f with Given a => Some a | _ => None end.

Definition option_bind {A B} (o : option A) (k : A -> option B) : option B :=
  match o with Some a => k a | None => None end.

(** Validation of a [ProductCreate] body: [None] is the 422 answer. *)
Definition validate_product_create (sku_f name_f : Field string)
    (description_f : Field string) (active_f : Field bool) : option ProductCreate :=
  option_bind (option_bind (req sku_f) (constr 1 100%nat)) (fun s =>
  option_bind (option_bind (req name_f) (constr 1 255%nat)) (fun n =>
  Some (mkProductCreate s n (opt_default "" description_f)
          (opt_default true active_f)))).

(** Validation of a [ProductUpdate] body. *)
Definition validate_product_update (sku_f name_f : Field string)
    (description_f : Field string) (active_f : Field bool) : option ProductUpdate :=
  let check (hi : nat) (f : Field string) : option (option string) :=
    match f with
    | Given s => option_map Some (constr 1 hi s)
    | _ => Some None
    end in
  option_bind (check 100%nat sku_f) (fun s =>
  option_bind (check 255%nat name_f) (fun n =>
  Some (mkProductUpdate s n (opt_none description_f) (opt_none active_f)))).

(** Validation of a [WebhookCreate] body. *)
Definition validate_webhook_create (url_f event_type_f : Field string)
    (enabled_f : Field bool) : option WebhookCreate :=
  option_bind (req url_f) (fun u =>
  option_bind (req_default "product.imported" event_type_f) (fun e =>
  Some (mkWebhookCreate u e (opt_default true enabled_f)))).

(** *** The tables (backend/app/models.py) *)

(** A row of [products]; a NULL column is [None]. *)
Record ProductRow := mkProductRow {
  p_id : Z;
  p_sku : string;
  p_name : string;
  p_description : option string;
  p_active : option bool;
  p_created_at : option Z;
  p_updated_at : option Z
}.

(** A row of [webhooks]. *)
Record WebhookRow := mkWebhookRow {
  w_id : Z;
  w_url : string;
  w_event_type : string;
  w_enabled : option bool;
  w_created_at : option Z
}.

(** The webhook as [trigger_webhooks_sync] selects it: the filter
    [Webhook.enabled == True] does not select a NULL flag. *)
Definition webhook_of (w : WebhookRow) : Webhook :=
  mkWebhook (w_url w) (w_event_type w)
    (match w_enabled w with Some true => true | _ => false end).

(** *** Products (lines 142-290) *)

(** [db.query(Product).filter(Product.id == product_id).first()] *)
Definition find_product (product_id : Z) (ps : list ProductRow) : option ProductRow :=
  find (fun p => p_id p =? product_id) ps.

(** [func.lower(Product.sku) == sku_lower] *)
Definition sku_key_is (key : string) (p : ProductRow) : bool :=
  String.eqb (sql_lower (p_sku p)) key.

Definition exists_msg (s : string) : string :=
  "Product with SKU '" ++ s ++ "' already exists".

(** [create_product]: the new row gets the id [new_id] and the
    [created_at] [now] from the database.  The answer is the new row's
    [{id, sku, name}].  An [active] of [None] is left out of the INSERT by
    SQLAlchemy, so [Column(default=True)] fills it in.  A row whose [sku]
    is already in the table violates the [UNIQUE] constraint: the commit
    raises [IntegrityError], which FastAPI answers with 500. *)
Definition create_product (product : ProductCreate) (new_id now : Z)
    (ps : list ProductRow) : Resp (Z * string * string) * list ProductRow :=
  let sku_lower := lower (strip (pc_sku product)) in
  match find (sku_key_is sku_lower) ps with
  | Some _ => (RespErr 400 (exists_msg (pc_sku product)), ps)
  | None =>
      let row := mkProductRow new_id (strip (pc_sku product)) (strip (pc_name product))
                   (Some (match pc_description product with
                          | Some d => if String.eqb d "" then "" else strip d
                          | None => ""
                          end))
                   (Some (match pc_active product with Some b => b | None => true end))
                   (Some now) None in
      if existsb (fun p => String.eqb (p_sku p) (p_sku row)) ps
      then (RespErr 500 "Internal Server Error", ps)
      else (RespOk (new_id, p_sku row, p_name row), (ps ++ [row])%list)
  end.

(** [get_product] *)
Definition get_product (product_id : Z) (ps : list ProductRow) : Resp ProductRow :=
  match find_product product_id ps with
  | None => RespErr 404 "Product not found"
  | Some p => RespOk p
  end.

(** The assignments of lines 251-260 on the loaded row. *)
Definition apply_product_update (u : ProductUpdate) (now : Z) (p : ProductRow)
    : ProductRow :=
  mkProductRow (p_id p)
    (match pu_sku u with Some s => strip s | None => p_sku p end)
    (match pu_name u with Some s => strip s | None => p_name p end)
    (match pu_description u with Some d => Some (strip d) | None => p_description p end)
    (match pu_active u with Some b => Some b | None => p_active p end)
    (p_created_at p) (Some now).

(** The SKU check of lines 241-248: the detail of the 400 answer, if any. *)
Definition update_conflict (product_id : Z) (u : ProductUpdate) (product : ProductRow)
    (ps : list ProductRow) : option string :=
  match pu_sku u with
  | Some s =>
      if negb (String.eqb s "") &&
         negb (String.eqb (lower (strip s)) (lower (p_sku product)))
      then
        let sku_lower := lower (strip s) in
        match find (fun p => sku_key_is sku_lower p && negb (p_id p =? product_id)) ps with
        | Some _ => Some (exists_msg s)
        | None => None
        end
      else None
  | None => None
  end.

(** [update_product]: the UPDATE of the flush hits the rows with the
    primary key [product_id].  A changed [sku] that another row already
    has violates the [UNIQUE] constraint: the commit raises, answered 500. *)
Definition update_product (product_id : Z) (u : ProductUpdate) (now : Z)
    (ps : list ProductRow) : Resp Z * list ProductRow :=
  match find_product product_id ps with
  | None => (RespErr 404 "Product not found", ps)
  | Some product =>
      match update_conflict product_id u product ps with
      | Some msg => (RespErr 400 msg, ps)
      | None =>
          let new_sku := p_sku (apply_product_update u now product) in
          if negb (String.eqb new_sku (p_sku product)) &&
             existsb (fun p => negb (p_id p =? product_id) && String.eqb (p_sku p) new_sku) ps
          then (RespErr 500 "Internal Server Error", ps)
          else
            (RespOk (p_id product),
             map (fun p => if p_id p =? product_id then apply_product_update u now p else p) ps)
      end
  end.

(** [delete_product]: [DELETE ... WHERE id = product_id]. *)
Definition delete_product (product_id : Z) (ps : list ProductRow)
    : Resp unit * list ProductRow :=
  match find_product product_id ps with
  | None => (RespErr 404 "Product not found", ps)
  | Some _ => (RespOk tt, filter (fun p => negb (p_id p =? product_id)) ps)
  end.

(** [bulk_delete_products]: the count and the message. *)
Definition bulk_delete_products (ps : list ProductRow)
    : Resp (Z * string) * list ProductRow :=
  let count := Z.of_nat (length ps) in
  (RespOk (count, "Deleted " ++ str_int count ++ " products"), []).

(** SQL [LIKE] on the bytes of UTF-8 strings, without escape character:
    [%] matches any sequence, [_] one character (a byte and the bytes that
    continue it), any other byte itself. *)
Fixpoint drop_cont (s : list ascii) : list ascii :=
  match s with
  | c :: s' => if is_cont c then drop_cont s' else s
  | [] => []
  end.

Fixpoint like_star (k : list ascii -> bool) (s : list ascii) : bool :=
  k s || match s with [] => false | _ :: s' => like_star k s' end.

Fixpoint like_list (pat s : list ascii) {struct pat} : bool :=
  match pat with
  | [] => match s with [] => true | _ => false end
  | c :: pat' =>
      if Ascii.eqb c "%"%char then like_star (like_list pat') s
      else if Ascii.eqb c "_"%char then
        match s with [] => false | _ :: s' => like_list pat' (drop_cont s') end
      else
        match s with [] => false | d :: s' => Ascii.eqb c d && like_list pat' s' end
  end.

(** [column.ilike(pattern)], rendered [lower(column) LIKE lower(pattern)]
    on SQLite (the database of the test suite). *)
Definition ilike (x pat : string) : bool :=
  like_list (list_ascii_of_string (sql_lower pat)) (list_ascii_of_string (sql_lower x)).

(** The [search] filter of lines 153-159; a NULL description does not
    match. *)
Definition search_filter (search : option string) (p : ProductRow) : bool :=
  match search with
  | Some s =>
      if String.eqb s "" then true
      else
        let search_term := "%" ++ s ++ "%" in
        ilike (p_sku p) search_term || ilike (p_name p) search_term ||
        match p_description p with Some d => ilike d search_term | None => false end
  | None => true
  end.

(** The [active] filter of lines 161-162; a NULL flag does not match. *)
Definition active_filter (active : option string) (p : ProductRow) : bool :=
  match active with
  | Some a =>
      if String.eqb a "" || String.eqb a "all" then true
      else
        match p_active p with
        | Some b => Bool.eqb b (String.eqb a "true")
        | None => false
        end
  | None => true
  end.

(** [.offset((page - 1) * per_page).limit(per_page)] *)
Definition paginate (page per_page : Z) {A} (rows : list A) : list A :=
  firstn (Z.to_nat per_page) (skipn (Z.to_nat ((page - 1) * per_page)) rows).

Definition total_pages (total per_page : Z) : Z :=
  if total >? 0 then (total + per_page - 1) / per_page else 0.

Record ProductPage := mkProductPage {
  pg_products : list ProductRow;
  pg_total : Z;
  pg_page : Z;
  pg_per_page : Z;
  pg_total_pages : Z
}.

Section Listing.

(** The rows in the order of [ORDER BY created_at DESC] as the database
    returns them (SQL leaves the order of equal timestamps open). *)
Variable order_created_desc : list ProductRow -> list ProductRow.

(** [get_products] *)
Definition get_products (page per_page : Z) (search active : option string)
    (ps : list ProductRow) : Resp ProductPage :=
  if (page <? 1) || (per_page <? 1) || (100 <? per_page) then RespInvalid
  else
    let rows := filter (fun p => search_filter search p && active_filter active p) ps in
    let total := Z.of_nat (length rows) in
    RespOk (mkProductPage (paginate page per_page (order_created_desc rows))
              total page per_page (total_pages total per_page)).

End Listing.

(** One such order: newest first, NULL last, equal timestamps in table
    order (a stable insertion sort). *)
Definition created_geb (p q : ProductRow) : bool :=
  match p_created_at p, p_created_at q with
  | Some a, Some b => b <=? a
  | Some _, None | None, None => true
  | None, Some _ => false
  end.

Fixpoint insert_created (p : ProductRow) (l : list ProductRow) : list ProductRow :=
  match l with
  | [] => [p]
  | q :: l' => if created_geb q p then q :: insert_created p l' else p :: l
  end.

Definition sort_created_desc (l : list ProductRow) : list ProductRow :=
  fold_left (fun acc p => insert_created p acc) l [].

(** *** Webhooks (lines 294-397) *)

Definition find_webhook (webhook_id : Z) (ws : list WebhookRow) : option WebhookRow :=
  find (fun w => w_id w =? webhook_id) ws.

(** [get_webhooks] *)
Definition get_webhooks (ws : list WebhookRow) : list WebhookRow := ws.

(** [get_webhook] *)
Definition get_webhook (webhook_id : Z) (ws : list WebhookRow) : Resp WebhookRow :=
  match find_webhook webhook_id ws with
  | None => RespErr 404 "Webhook not found"
  | Some w => RespOk w
  end.

(** [create_webhook]: the new row gets the id [new_id] and the
    [created_at] [now] from the database; an [enabled] of [None] is left
    out of the INSERT, so [Column(default=True)] fills it in. *)
Definition create_webhook (webhook : WebhookCreate) (new_id now : Z)
    (ws : list WebhookRow) : Resp Z * list WebhookRow :=
  (RespOk new_id,
   (ws ++ [mkWebhookRow new_id (wc_url webhook) (wc_event_type webhook)
             (Some (match wc_enabled webhook with Some b => b | None => true end))
             (Some now)])%list).

Definition apply_webhook_update (u : WebhookUpdate) (w : WebhookRow) : WebhookRow :=
  mkWebhookRow (w_id w)
    (match wu_url u with Some x => x | None => w_url w end)
    (match wu_event_type u with Some x => x | None => w_event_type w end)
    (match wu_enabled u with Some b => Some b | None => w_enabled w end)
    (w_created_at w).

(** [update_webhook] *)
Definition update_webhook (webhook_id : Z) (u : WebhookUpdate) (ws : list WebhookRow)
    : Resp Z * list WebhookRow :=
  match find_webhook webhook_id ws with
  | None => (RespErr 404 "Webhook not found", ws)
  | Some w =>
      (RespOk (w_id w),
       map (fun x => if w_id x =? webhook_id then apply_webhook_update u x else x) ws)
  end.

(** [delete_webhook] *)
Definition delete_webhook (webhook_id : Z) (ws : list WebhookRow)
    : Resp unit * list WebhookRow :=
  match find_webhook webhook_id ws with
  | None => (RespErr 404 "Webhook not found", ws)
  | Some _ => (RespOk tt, filter (fun w => negb (w_id w =? webhook_id)) ws)
  end.

(** [test_webhook]: [post url] is the exception of the test POST, if it
    raised; the answer is the error text, or [None] for a response. *)
Definition test_webhook (post : string -> option string) (webhook_id : Z)
    (ws : list WebhookRow) : Resp (option string) :=
  match find_webhook webhook_id ws with
  | None => RespErr 404 "Webhook not found"
  | Some w => RespOk (post (w_url w))
  end.

(** *** Uploads (lines 60-100) *)

(** [str.endswith(suffix)] *)
Definition endswith (suffix s : string) : bool :=
  let n := String.length s in
  let m := String.length suffix in
  ((m <=? n)%nat && String.eqb (substring (n - m) m s) suffix).

(** [uuid.uuid4()] from the 128-bit integer [r] of [os.urandom(16)]:
    the version and variant bits set as [UUID.__init__] does. *)
Definition uuid4_int (r : Z) : Z :=
  let i := Z.land r (Z.lnot (Z.shiftl 49152 48)) in
  let i := Z.lor i (Z.shiftl 32768 48) in
  let i := Z.land i (Z.lnot (Z.shiftl 61440 64)) in
  Z.lor i (Z.shiftl 4 76).

Definition hex_digit (n : Z) : ascii :=
  ascii_of_nat (Z.to_nat (if n <? 10 then 48 + n else 87 + n)).

(** The [k] low hexadecimal digits of [n], most significant first. *)
Fixpoint hex_fixed (k : nat) (n : Z) : list ascii :=
  match k with
  | O => []
  | S k' => (hex_fixed k' (n / 16) ++ [hex_digit (n mod 16)])%list
  end.

(** [str(uuid)]: ['%032x' % int] cut 8-4-4-4-12. *)
Definition uuid_str (i : Z) : string :=
  let h := hex_fixed 32 i in
  string_of_list_ascii
    (firstn 8 h ++ "-"%char :: firstn 4 (skipn 8 h) ++ "-"%char
     :: firstn 4 (skipn 12 h) ++ "-"%char :: firstn 4 (skipn 16 h) ++ "-"%char
     :: skipn 20 h)%list.

Definition uuid4 (r : Z) : string := uuid_str (uuid4_int r).

(** [import_products] with the upload named [filename]: the answer and,
    when accepted, the committed job row with its id and the path the
    background run is started on.  [file_size_mb] is not modelled. *)
Definition import_products (filename : string) (r : Z)
    : Resp (string * string) * option (string * ImportJob * string) :=
  if negb (endswith ".csv" filename) then (RespErr 400 "Only CSV files are allowed", None)
  else
    let job_id := uuid4 r in
    let file_path := "temp_uploads/" ++ job_id ++ ".csv" in
    (RespOk (job_id, "processing"), Some (job_id, new_job, file_path)).

(** ** Vocabulary of the properties *)

Definition is_reject (r : RowCheck) : bool :=
  match r with Reject _ => true | Accept _ _ _ => false end.

Definition contains (sub s : string) : Prop :=
  exists pre post, s = pre ++ sub ++ post.

Definition ends_with (suf s : string) : Prop :=
  exists pre, s = pre ++ suf.

(** Products whose key folds to [key]. *)
Definition count_key (key : string) (ps : list Product) : nat :=
  length (filter (sku_matches key) ps).

(** The status graph pending -> parsing -> importing -> {completed,
    completed_with_errors, failed}, with failed reachable from every
    non-terminal status, and staying put. *)
Definition edge (a b : Status) : bool :=
  Status_eqb a b ||
  match a, b with
  | Pending, Parsing | Parsing, Importing
  | Importing, Completed | Importing, CompletedWithErrors => true
  | _, Failed => negb (terminal a)
  | _, _ => false
  end.

(** Two successive committed rows of the job. *)
Definition job_step (j j' : ImportJob) : Prop :=
  edge (status j) (status j') = true /\ processed_rows j <= processed_rows j'.

(** A committed row of the job. *)
Definition snap_ok (j : ImportJob) : Prop :=
  (completed_at j <> None <-> terminal (status j) = true) /\
  0 <= processed_rows j <= total_rows j.

(** The committed rows, newest first, starting from [j0]. *)
Fixpoint hist_ok (j0 : ImportJob) (h : list ImportJob) : Prop :=
  match h with
  | [] => True
  | j :: h' => hist_ok j0 h' /\ job_step (hd j0 h') j /\ snap_ok j
  end.

Definition success_status (st : Status) : bool :=
  Status_eqb st Completed || Status_eqb st CompletedWithErrors.

Definition last_commit_ok (env : Env) (s : St) : Prop :=
  ncommit s <> O /\ commit_result env (pred (ncommit s)) = None.

(** The event for the job row a query returned. *)
Definition snapshot_of (o : option ImportJob) : ProgressEvent :=
  match o with
  | None => EvNotFound
  | Some j => EvSnapshot (status j) (processed_rows j) (total_rows j) (error_message j)
  end.

(** Events after which the stream ends. *)
Definition stops (ev : ProgressEvent) : bool :=
  match ev with
  | EvSnapshot st _ _ _ => terminal st
  | _ => true
  end.

(** A run that stops before its rows phase once the file is read: the
    file cannot be decoded or parsed, or lacks the [sku] or [name]
    column. *)
Definition early_failure (env : Env) : bool :=
  match read_csv env with
  | CsvOk cols _ => negb (existsb (String.eqb "sku") cols && existsb (String.eqb "name") cols)
  | _ => true
  end.

(** The delivery attempts [trigger_webhooks_sync(event, ...)] makes on the
    webhook table [ws]. *)
Definition attempts (env : Env) (ws : list WebhookRow) (event : string)
    : list (string * option string) :=
  fst (trigger_webhooks_sync env (map webhook_of ws) event).

(** The products on page [page] of a listing ([[]] when the request is
    refused). *)
Definition listed (order : list ProductRow -> list ProductRow) (per_page : Z)
    (search active : option string) (ps : list ProductRow) (page : Z) : list ProductRow :=
  match get_products order page per_page search active ps with
  | RespOk pg => pg_products pg
  | _ => []
  end.

(** ** Invariants of a run *)

(** The job row as last committed ([new_job] before any commit). *)
Definition cur_job (s : St) : ImportJob := hd new_job (history s).

(** Before the terminal write: committed rows well-formed and nothing
    dispatched. *)
Definition base_ok (s : St) : Prop :=
  hist_ok new_job (history s) /\ db_job (committed s) = Some (cur_job s) /\
  dispatched s = [].

(** What the top-level handler finds when an exception escapes. *)
Definition exc_ok (s : St) : Prop :=
  base_ok s /\ terminal (status (cur_job s)) = false /\
  exists j, db_job (working s) = Some j /\
    processed_rows (cur_job s) <= processed_rows j /\
    0 <= processed_rows j <= total_rows j.

(** The counters' identity: a row counts as processed when it was created
    or updated. *)
Definition acc_ok (a : Acc) : Prop :=
  processed_count a = created_count a + updated_count a.

(** During the rows phase, with [n] rows and at most [bound] accounted. *)
Definition rows_ok (n bound : Z) (a : Acc) (s : St) : Prop :=
  base_ok s /\ db_job (working s) = Some (cur_job s) /\
  status (cur_job s) = Importing /\ completed_at (cur_job s) = None /\
  total_rows (cur_job s) = n /\ 0 <= processed_rows (cur_job s) <= n /\
  processed_rows (cur_job s) <= bound /\
  processed_count a = created_count a + updated_count a.

(** The job after the parsing commit. *)
Definition parsing_ok (s : St) : Prop :=
  base_ok s /\ db_job (working s) = Some (cur_job s) /\
  status (cur_job s) = Parsing /\ processed_rows (cur_job s) = 0 /\
  completed_at (cur_job s) = None.

Definition dispatch_ok (env : Env) (job_id : string) (d : Dispatch) : Prop :=
  pl_job_id (dispatch_payload d) = job_id /\
  pl_count (dispatch_payload d) =
    pl_created (dispatch_payload d) + pl_updated (dispatch_payload d) /\
  match d with
  | DispatchAsync ev _ => ev = "product.imported"
  | DispatchSync ev _ atts =>
      ev = "product.imported" /\
      exists ws, atts = fst (trigger_webhooks_sync env ws "product.imported")
  end.

(** At the end of a run. *)
Definition final_ok (env : Env) (job_id : string) (s : St) : Prop :=
  hist_ok new_job (history s) /\ db_job (committed s) = Some (cur_job s) /\
  (last_commit_ok env s -> terminal (status (cur_job s)) = true) /\
  ((dispatched s = [] /\ success_status (status (cur_job s)) = false) \/
   (exists d, dispatched s = [d] /\ success_status (status (cur_job s)) = true /\
              dispatch_ok env job_id d)).

(** ** Concrete inputs *)

Definition csv_row (s n d : string) : Row :=
  [("sku", PStr s); ("name", PStr n); ("description", PStr d)].

(** A run reading [rows] under the header [sku,name,description], with
    [commits] deciding which commits raise, a Celery broker available and
    no other failure. *)
Definition csv_env (commits : nat -> option string) (rows : list Row) : Env :=
  mkEnv commits (CsvOk ["sku"; "name"; "description"] rows) (fun _ => None)
    true (fun _ => None) None.

Definition all_commits_ok : nat -> option string := fun _ => None.

Definition fresh_db : DB := mkDB (Some new_job) [] [].

(** [k] valid rows with distinct keys. *)
Definition valid_rows (k : nat) : list Row :=
  map (fun i => csv_row ("SKU-" ++ str_int (Z.of_nat i)) "Item" "") (seq 0 k).

(** A session in the middle of the rows phase of an [n]-row file: the
    committed rows pending, parsing and importing, nothing processed yet. *)
Definition mid_import_st (n : Z) : St :=
  let j := mkJob Importing n 0 None None in
  let db := mkDB (Some j) [] [] in
  mkSt db db 2 [j; mkJob Parsing 0 0 None None] 0 true [] [].

(** Only the commit of rank [k] raises. *)
Definition fail_at (k : nat) : nat -> option string :=
  fun i => if Nat.eqb i k then Some "lost" else None.

(** * Proofs *)

(** ** The Python helpers on sample values *)

Example str_int_ex : str_int 1234 = "1234" /\ str_int (-7) = "-7" /\ str_int 0 = "0".
Proof. vm_compute. auto. Qed.
Example fmt_comma_ex : fmt_comma 1234567 = "1,234,567" /\ fmt_comma 100 = "100"
  /\ fmt_comma (-1000) = "-1,000".
Proof. vm_compute. auto. Qed.
Example strip_ex : strip "  Ab c 	" = "Ab c" /\ lower "DUP-001" = "dup-001".
Proof. vm_compute. auto. Qed.

(** ** Weakest preconditions of the monad *)

Module WP.

Definition wp {A} (m : M A) (Q : A -> St -> Prop) (E : St -> Prop) (s : St) : Prop :=
  match m s with
  | (Ok a, s') => Q a s'
  | (Exc _, s') => E s'
  end.

Lemma wp_ret {A} (a : A) Q E s : Q a s -> wp (ret a) Q E s.
Proof. unfold wp, ret. auto. Qed.

Lemma wp_bind {A B} (m : M A) (k : A -> M B) Q E s :
  wp m (fun a s' => wp (k a) Q E s') E s -> wp (bind m k) Q E s.
Proof. unfold wp, bind. destruct (m s) as [[a|e] s']; auto. Qed.

Lemma wp_try {A} (m : M A) h Q E s :
  wp m Q (fun s' => forall e, wp (h e) Q E s') s -> wp (try_except m h) Q E s.
Proof. unfold wp, try_except. destruct (m s) as [[a|e] s']; intro H; [exact H | apply H]. Qed.

Lemma wp_raise {A} e (Q : A -> St -> Prop) E s : E s -> wp (raise e) Q E s.
Proof. unfold wp, raise. auto. Qed.

Lemma wp_modify f Q E s : Q tt (f s) -> wp (modify f) Q E s.
Proof. unfold wp, modify. auto. Qed.

Lemma wp_gets {A} (f : St -> A) Q E s : Q (f s) s -> wp (gets f) Q E s.
Proof. unfold wp, gets. auto. Qed.

Lemma wp_commit env Q E s :
  (commit_result env (ncommit s) = None -> Q tt (st_committing s)) ->
  (forall e, commit_result env (ncommit s) = Some e ->
             E (st_with_ncommit (S (ncommit s)) s)) ->
  wp (commit env) Q E s.
Proof.
  unfold wp, commit. destruct (commit_result env (ncommit s)) eqn:C; eauto.
Qed.

Lemma wp_rollback Q E s :
  Q tt (st_with_working (committed s) s) -> wp rollback Q E s.
Proof. intro H. unfold rollback. apply wp_modify. exact H. Qed.

Lemma wp_close Q E s :
  Q tt (st_with_working (committed s) s) -> wp close Q E s.
Proof. intro H. unfold close, rollback. apply wp_modify. exact H. Qed.

Lemma wp_update_job f Q E s :
  Q tt (st_with_working (db_with_job (option_map f (db_job (working s))) (working s)) s) ->
  wp (update_job f) Q E s.
Proof. intro H. unfold update_job. apply wp_modify. exact H. Qed.

Lemma wp_utcnow Q E s : Q (clock s) (st_with_clock (clock s + 1) s) -> wp utcnow Q E s.
Proof. unfold wp, utcnow. auto. Qed.

Lemma wp_log msg Q E s :
  Q tt (st_with_logs (logs s ++ [msg])%list s) -> wp (log msg) Q E s.
Proof. intro H. unfold log. apply wp_modify. exact H. Qed.

Lemma wp_get_job Q E s : Q (db_job (working s)) s -> wp get_job Q E s.
Proof. intro H. unfold get_job. apply wp_gets. exact H. Qed.

Lemma wp_conseq {A} (m : M A) (Q Q' : A -> St -> Prop) (E E' : St -> Prop) s :
  wp m Q E s -> (forall a s', Q a s' -> Q' a s') -> (forall s', E s' -> E' s') ->
  wp m Q' E' s.
Proof. unfold wp. destruct (m s) as [[a|e] s']; auto. Qed.

Lemma wp_for_each {X A} (f : X -> A -> M A) (Inv : list X -> A -> St -> Prop) E :
  (forall x xs a s, Inv (x :: xs) a s -> wp (f x a) (Inv xs) E s) ->
  forall xs a s, Inv xs a s -> wp (for_each xs f a) (Inv []) E s.
Proof.
  intros Hstep xs. induction xs as [|x xs IH]; intros a s H; simpl.
  - apply wp_ret. exact H.
  - apply wp_bind. eapply wp_conseq; [apply Hstep; exact H | | auto].
    intros a' s' H'. apply IH. exact H'.
Qed.

End WP.

Import WP.

Ltac wp_step :=
  lazymatch goal with
  | |- wp (bind _ _) _ _ _ => apply wp_bind
  | |- wp (try_except _ _) _ _ _ => apply wp_try
  | |- wp (ret _) _ _ _ => apply wp_ret
  | |- wp (raise _) _ _ _ => apply wp_raise
  | |- wp (commit _) _ _ _ => apply wp_commit
  | |- wp rollback _ _ _ => apply wp_rollback
  | |- wp close _ _ _ => apply wp_close
  | |- wp (update_job _) _ _ _ => apply wp_update_job
  | |- wp utcnow _ _ _ => apply wp_utcnow
  | |- wp (log _) _ _ _ => apply wp_log
  | |- wp get_job _ _ _ => apply wp_get_job
  | |- wp (modify _) _ _ _ => apply wp_modify
  | |- wp (gets _) _ _ _ => apply wp_gets
  end.

(** ** Row validation *)

Lemma null_token_In s : null_token s = true <-> In s ["nan"; "none"; ""].
Proof.
  unfold null_token. rewrite existsb_exists. split.
  - intros [x [Hin Heq]]. apply String.eqb_eq in Heq. subst. exact Hin.
  - intros H. exists s. split; [exact H | apply String.eqb_refl].
Qed.

Lemma concat_chunks {T} (m : nat) (l : list T) :
  (length l <= 100 * m)%nat ->
  concat (map (fun k => firstn 100 (skipn (k * 100) l)) (seq 0 m)) = l.
Proof.
  revert l. induction m as [|m IH]; intros l H.
  - destruct l; simpl in *; [reflexivity | lia].
  - simpl seq. rewrite <- seq_shift. cbn [map concat]. rewrite map_map.
    rewrite (map_ext (fun x => firstn 100 (skipn (S x * 100) l))
                     (fun k => firstn 100 (skipn (k * 100) (skipn 100 l)))).
    + rewrite IH; [apply firstn_skipn |]. rewrite length_skipn. lia.
    + intro k. rewrite skipn_skipn. f_equal. f_equal. lia.
Qed.

(** The chunks of [range(0, total_rows, 100)] cover the rows in order, each
    with its zero-based position. *)
Lemma chunks_cover (rows : list Row) :
  flat_map (iloc_chunk rows) (chunk_offsets (length rows)) =
  combine (map Z.of_nat (seq 0 (length rows))) rows.
Proof.
  unfold chunk_offsets, iloc_chunk, chunk_size.
  rewrite flat_map_concat_map, map_map.
  rewrite (map_ext _ (fun k => firstn 100 (skipn (k * 100)
                         (combine (map Z.of_nat (seq 0 (length rows))) rows)))).
  - apply concat_chunks. rewrite length_combine, length_map, length_seq.
    pose proof (Nat.div_mod (length rows + 99) 100 ltac:(lia)).
    pose proof (Nat.mod_upper_bound (length rows + 99) 100 ltac:(lia)). lia.
  - intro k. f_equal. f_equal. rewrite Z2Nat.inj_mul by lia. rewrite Nat2Z.id. reflexivity.
Qed.

Lemma process_row_reject env idx row a s msg :
  validate_row idx row = Reject msg ->
  process_row env (idx, row) a s = (Ok (add_error msg a), s).
Proof. intro H. unfold process_row. rewrite H. reflexivity. Qed.

(** C5: validation of a row, on its own: a blank or null-token [sku]
    rejects the row with an error numbered [idx + 2]; only then is a blank
    or null-token [name] rejected, with an error naming the [sku]; a
    missing or null [description] becomes the empty string and never
    decides rejection; a rejected row leaves the session untouched; and
    the chunks give each data row its zero-based position [idx]. *)
Theorem validate_row_spec :
  forall (idx : Z) (row : Row),
  let sku_v := strip (str (row_get row "sku" (PStr ""))) in
  let name_v := strip (str (row_get row "name" (PStr ""))) in
  ((sku_v = "" \/ In (lower sku_v) ["nan"; "none"; ""]) ->
     validate_row idx row = Reject ("Row " ++ str_int (idx + 2) ++ ": Empty or invalid SKU")) /\
  (sku_v <> "" -> ~ In (lower sku_v) ["nan"; "none"; ""] ->
     (name_v = "" \/ In (lower name_v) ["nan"; "none"; ""]) ->
     validate_row idx row =
       Reject ("Row " ++ str_int (idx + 2) ++ " (SKU: " ++ sku_v
               ++ "): Missing or invalid product name")) /\
  (sku_v <> "" -> ~ In (lower sku_v) ["nan"; "none"; ""] ->
     name_v <> "" -> ~ In (lower name_v) ["nan"; "none"; ""] ->
     validate_row idx row =
       Accept sku_v name_v
         (if notna (row_get row "description" PNone)
          then strip (str (row_get row "description" PNone)) else "")) /\
  (notna (row_get row "description" PNone) = false ->
     forall s n d, validate_row idx row = Accept s n d -> d = "") /\
  (forall v, is_reject (validate_row idx (("description", v) :: row))
             = is_reject (validate_row idx row)) /\
  (forall env msg a s, validate_row idx row = Reject msg ->
     process_row env (idx, row) a s = (Ok (add_error msg a), s)) /\
  (forall rows : list Row,
     flat_map (iloc_chunk rows) (chunk_offsets (length rows)) =
     combine (map Z.of_nat (seq 0 (length rows))) rows).
Proof.
  intros idx row sku_v name_v.
  assert (Hv : validate_row idx row =
    if String.eqb sku_v "" || null_token (lower sku_v) then
      Reject ("Row " ++ str_int (idx + 2) ++ ": Empty or invalid SKU")
    else if String.eqb name_v "" || null_token (lower name_v) then
      Reject ("Row " ++ str_int (idx + 2) ++ " (SKU: " ++ sku_v
              ++ "): Missing or invalid product name")
    else Accept sku_v name_v
           (if notna (row_get row "description" PNone)
            then strip (str (row_get row "description" PNone)) else ""))
    by reflexivity.
  repeat split.
  - intros H. rewrite Hv. destruct H as [H | H].
    + rewrite H. reflexivity.
    + apply null_token_In in H. rewrite H, orb_true_r. reflexivity.
  - intros H1 H2 H3. rewrite Hv.
    rewrite (proj2 (String.eqb_neq _ _) H1).
    destruct (null_token (lower sku_v)) eqn:E; [apply null_token_In in E; contradiction |].
    simpl. destruct H3 as [H3 | H3].
    + rewrite H3. reflexivity.
    + apply null_token_In in H3. rewrite H3, orb_true_r. reflexivity.
  - intros H1 H2 H3 H4. rewrite Hv.
    rewrite (proj2 (String.eqb_neq _ _) H1), (proj2 (String.eqb_neq _ _) H3).
    destruct (null_token (lower sku_v)) eqn:E; [apply null_token_In in E; contradiction |].
    destruct (null_token (lower name_v)) eqn:E'; [apply null_token_In in E'; contradiction |].
    reflexivity.
  - intros Hd s n d. rewrite Hv, Hd.
    destruct (String.eqb sku_v "" || null_token (lower sku_v)); [discriminate |].
    destruct (String.eqb name_v "" || null_token (lower name_v)); [discriminate |].
    intro H. injection H. auto.
  - intro v.
    assert (E1 : row_get (("description", v) :: row) "sku" (PStr "") =
                 row_get row "sku" (PStr "")) by reflexivity.
    assert (E2 : row_get (("description", v) :: row) "name" (PStr "") =
                 row_get row "name" (PStr "")) by reflexivity.
    rewrite Hv. unfold validate_row. rewrite E1, E2. fold sku_v name_v.
    destruct (String.eqb sku_v "" || null_token (lower sku_v)); [reflexivity |].
    destruct (String.eqb name_v "" || null_token (lower name_v)); reflexivity.
  - intros env msg a s H. apply process_row_reject. exact H.
  - intro rows. apply chunks_cover.
Qed.

(** ** Upsert by case-insensitive key *)

Section Upsert.

Variables (key n d : string) (t : Z).

Lemma update_first_skus ps :
  map sku (update_first key n d t ps) = map sku ps.
Proof.
  induction ps as [|p ps IH]; simpl; [reflexivity |].
  destruct (sku_matches key p); simpl; [reflexivity | f_equal; exact IH].
Qed.

Lemma count_key_skus ps ps' :
  map sku ps = map sku ps' -> count_key key ps = count_key key ps'.
Proof.
  unfold count_key. revert ps'.
  induction ps as [|p ps IH]; intros [|p' ps'] H; simpl in *; try discriminate; auto.
  injection H as Hs Hr.
  replace (sku_matches key p) with (sku_matches key p')
    by (unfold sku_matches; rewrite Hs; reflexivity).
  destruct (sku_matches key p'); simpl; auto.
Qed.

Lemma update_first_count ps :
  count_key key (update_first key n d t ps) = count_key key ps.
Proof. apply count_key_skus, update_first_skus. Qed.

Lemma find_none_count ps :
  find (sku_matches key) ps = None <-> count_key key ps = O.
Proof.
  unfold count_key. induction ps as [|p ps IH]; simpl; [tauto |].
  destruct (sku_matches key p); simpl; [split; discriminate | exact IH].
Qed.

Lemma update_first_found ps :
  find (sku_matches key) ps <> None ->
  exists p, In p (update_first key n d t ps) /\ sku_matches key p = true /\
            name p = n /\ description p = d.
Proof.
  induction ps as [|p ps IH]; simpl; [congruence |].
  destruct (sku_matches key p) eqn:E; intro H.
  - eexists. split; [left; reflexivity |]. simpl. auto.
  - destruct (IH H) as [q [Hq Hrest]]. exists q. split; [right; exact Hq | exact Hrest].
Qed.

Lemma upsert_split ps1 p ps2 :
  Forall (fun q => sku_matches key q = false) ps1 -> sku_matches key p = true ->
  find (sku_matches key) (ps1 ++ p :: ps2) = Some p /\
  update_first key n d t (ps1 ++ p :: ps2) =
    (ps1 ++ mkProduct (sku p) n d (active p) (Some t) :: ps2)%list.
Proof.
  intros H1 Hp. induction H1 as [|q ps1 Hq _ IH]; simpl.
  - rewrite Hp. auto.
  - rewrite Hq. destruct IH as [IH1 IH2]. rewrite IH1, IH2. auto.
Qed.

Lemma find_none_forall ps :
  find (sku_matches key) ps = None <-> Forall (fun q => sku_matches key q = false) ps.
Proof.
  induction ps as [|p ps IH]; simpl; [split; auto |].
  destruct (sku_matches key p) eqn:E.
  - split; [discriminate | intro H; inversion H; congruence].
  - rewrite IH. split; [intro H; constructor; auto | intro H; inversion H; auto].
Qed.

End Upsert.

Lemma count_key_app_new key ps s n d :
  String.eqb (sql_lower s) key = true ->
  count_key key (ps ++ [mkProduct s n d true None])%list = S (count_key key ps).
Proof.
  intro H. unfold count_key. rewrite filter_app, length_app. simpl.
  unfold sku_matches at 2. simpl. rewrite H. simpl. lia.
Qed.

(** C3: the upsert of a valid row looks its key, Python's [sku.lower()],
    up against SQLite's [lower(sku)] of the table.  The first product so
    found gets the row's name and description and a new timestamp (the row
    counts as updated); without one, a product with the row's [sku] as
    written is appended, active (the row counts as created).  The row
    stays in the session unless it is a 50th one whose checkpoint commit
    raises, which rolls the session back and records an error.  Upserting
    the same key twice leaves one record and counts the second as updated
    when SQLite's lower case of the stored [sku] is its Python lower case,
    as for every ASCII [sku], and a run on [DUP-001] then [dup-001] leaves
    one record with the second row's values, created 1, updated 1.  For
    [É-1] the two lower cases differ ([é-1] and [É-1]): a row [É-1] does
    not find the product [É-1], is counted created and adds a second
    [É-1].  In a run importing [É-1] into a catalog that has it, the chunk
    commit (the run's third) then raises, as the [UNIQUE] index on [sku]
    refuses the second [É-1]: the product keeps its old values and the job
    ends [completed_with_errors] with created 1, updated 0 and 99 errors. *)
Theorem upsert_spec :
  (forall sku_v n d t ps1 p ps2,
     Forall (fun q => sku_matches (lower sku_v) q = false) ps1 ->
     sku_matches (lower sku_v) p = true ->
     upsert_products sku_v n d t (ps1 ++ p :: ps2)%list =
       ((ps1 ++ mkProduct (sku p) n d (active p) (Some t) :: ps2)%list, true)) /\
  (forall sku_v n d t ps,
     Forall (fun q => sku_matches (lower sku_v) q = false) ps ->
     upsert_products sku_v n d t ps = ((ps ++ [mkProduct sku_v n d true None])%list, false)) /\
  (forall env idx row a s sku_v n d,
     validate_row idx row = Accept sku_v n d -> upsert_error env idx = None ->
     let (ps', updated) := upsert_products sku_v n d (clock s) (db_products (working s)) in
     exists a' s', process_row env (idx, row) a s = (Ok a', s') /\
       processed_count a' = processed_count a + 1 /\
       created_count a' = created_count a + (if updated then 0 else 1) /\
       updated_count a' = updated_count a + (if updated then 1 else 0) /\
       ((db_products (working s') = ps' /\ error_count a' = error_count a) \/
        (processed_count a' mod 50 = 0 /\ working s' = committed s /\
         error_count a' = error_count a + 1))) /\
  (forall sku1 sku2 n1 n2 d1 d2 t1 t2 ps,
     sql_lower sku1 = lower sku1 ->
     lower sku2 = lower sku1 -> (count_key (lower sku1) ps <= 1)%nat ->
     let (ps1, _) := upsert_products sku1 n1 d1 t1 ps in
     let (ps2, updated2) := upsert_products sku2 n2 d2 t2 ps1 in
     updated2 = true /\ count_key (lower sku1) ps2 = 1%nat /\
     exists p, In p ps2 /\ sku_matches (lower sku1) p = true /\
               name p = n2 /\ description p = d2) /\
  (let s := run (csv_env all_commits_ok
                   [csv_row "DUP-001" "First" "a"; csv_row "dup-001" "Second" "b"])
                fresh_db true "job" "upload.csv" in
   db_products (committed s) = [mkProduct "DUP-001" "Second" "b" true (Some 1)] /\
   dispatched s = [DispatchAsync "product.imported" (mkPayload "job" 2 1 1 0)]) /\
  (lower "É-1" = "é-1" /\ sql_lower "É-1" = "É-1" /\
   forall n0 d0 a0 u0 n d t,
     upsert_products "É-1" n d t [mkProduct "É-1" n0 d0 a0 u0] =
       ([mkProduct "É-1" n0 d0 a0 u0; mkProduct "É-1" n d true None], false)) /\
  (let s := run (csv_env (fun k => if Nat.eqb k 2
                                   then Some "UNIQUE constraint failed: products.sku"
                                   else None)
                   [csv_row "É-1" "New" ""])
                (mkDB (Some new_job) [mkProduct "É-1" "Old" "" true None] [])
                true "job" "upload.csv" in
   db_products (committed s) = [mkProduct "É-1" "Old" "" true None] /\
   option_map status (db_job (committed s)) = Some CompletedWithErrors /\
   dispatched s = [DispatchAsync "product.imported" (mkPayload "job" 1 1 0 99)]).
Proof.
  split; [| split; [| split; [| split; [| split; [| split]]]]].
  - intros sku_v n d t ps1 p ps2 H1 Hp. unfold upsert_products.
    destruct (upsert_split (lower sku_v) n d t ps1 p ps2 H1 Hp) as [E1 E2].
    rewrite E1, E2. reflexivity.
  - intros sku_v n d t ps H. unfold upsert_products.
    apply find_none_forall in H. rewrite H. reflexivity.
  - intros env idx row a s sku_v n d Hv Hu.
    unfold process_row. rewrite Hv. unfold upsert. rewrite Hu.
    unfold try_except, bind, utcnow, ret. cbn [fst snd clock working st_with_clock].
    destruct (upsert_products sku_v n d (clock s) (db_products (working s)))
      as [ps' updated] eqn:E.
    destruct updated; cbn [processed_count created_count updated_count error_count errors];
    (destruct ((processed_count a + 1) mod 50 =? 0) eqn:H50;
     [unfold commit, rollback, modify; destruct (commit_result env _) as [e|] |]);
    cbn; do 2 eexists; (split; [reflexivity |]); cbn;
    (repeat split; try lia);
    first [ left; split; reflexivity
          | right; split; [apply Z.eqb_eq in H50; exact H50 | split; [reflexivity | lia]] ].
  - intros sku1 sku2 n1 n2 d1 d2 t1 t2 ps Hsql Hl Hc. unfold upsert_products at 1.
    destruct (find (sku_matches (lower sku1)) ps) as [p|] eqn:F.
    + assert (Hc1 : count_key (lower sku1) ps = 1%nat).
      { assert (count_key (lower sku1) ps <> O) by
          (intro H0; apply find_none_count in H0; congruence). lia. }
      unfold upsert_products. rewrite Hl.
      assert (F' : find (sku_matches (lower sku1)) (update_first (lower sku1) n1 d1 t1 ps) <> None).
      { intro H0. apply find_none_count in H0. rewrite update_first_count in H0. lia. }
      destruct (find (sku_matches (lower sku1)) (update_first (lower sku1) n1 d1 t1 ps)) eqn:F2;
        [| congruence].
      split; [reflexivity | split].
      * rewrite !update_first_count. exact Hc1.
      * apply update_first_found. congruence.
    + assert (Hc0 : count_key (lower sku1) ps = O) by (apply find_none_count; exact F).
      unfold upsert_products. rewrite Hl.
      set (ps1 := (ps ++ [mkProduct sku1 n1 d1 true None])%list).
      assert (Hc1 : count_key (lower sku1) ps1 = 1%nat).
      { unfold ps1. rewrite count_key_app_new by (rewrite Hsql; apply String.eqb_refl). lia. }
      assert (F' : find (sku_matches (lower sku1)) ps1 <> None).
      { intro H0. apply find_none_count in H0. lia. }
      destruct (find (sku_matches (lower sku1)) ps1) eqn:F2; [| congruence].
      split; [reflexivity | split].
      * rewrite update_first_count. exact Hc1.
      * apply update_first_found. congruence.
  - vm_compute. split; reflexivity.
  - split; [vm_compute; reflexivity | split; [vm_compute; reflexivity |]].
    intros n0 d0 a0 u0 n d t. unfold upsert_products.
    assert (E : sku_matches (lower "É-1") (mkProduct "É-1" n0 d0 a0 u0) = false)
      by (vm_compute; reflexivity).
    cbn [find]. rewrite E. reflexivity.
  - vm_compute. split; [reflexivity | split; reflexivity].
Qed.

(** ** Terminal classification *)

Lemma sappend_assoc (x y z : string) : (x ++ y) ++ z = x ++ y ++ z.
Proof. induction x as [|c x IH]; simpl; [reflexivity | rewrite IH; reflexivity]. Qed.

Lemma sappend_empty (x : string) : x ++ "" = x.
Proof. induction x as [|c x IH]; simpl; [reflexivity | rewrite IH; reflexivity]. Qed.

Lemma join_contains sep (xs : list string) x :
  In x xs -> contains x (join sep xs).
Proof.
  induction xs as [|y xs IH]; simpl; [tauto |]. intros [H | H].
  - subst. destruct xs as [|z xs].
    + exists "", "". simpl. rewrite sappend_empty. reflexivity.
    + exists "", (sep ++ join sep (z :: xs)). reflexivity.
  - destruct xs as [|z xs]; [destruct H |].
    destruct (IH H) as [pre [post E]]. exists (y ++ sep ++ pre), post.
    change (join sep (y :: z :: xs)) with (y ++ sep ++ join sep (z :: xs)).
    rewrite E, !sappend_assoc. reflexivity.
Qed.

Lemma bullets_contains (l : list string) e :
  In e l -> contains ("• " ++ e) (bullets l).
Proof.
  intro H. unfold bullets. apply join_contains.
  apply in_map_iff. exists e. auto.
Qed.

Lemma contains_app_l sub x y : contains sub y -> contains sub (x ++ y).
Proof.
  intros [pre [post E]]. exists (x ++ pre), post. rewrite E, !sappend_assoc. reflexivity.
Qed.

(** The common tail of the two summaries: the first [k] errors, then the
    count of the others when some were left out. *)
Lemma summary_tail k (errs : list string) :
  ((length errs > k)%nat ->
     bullets (firstn k errs) ++ more_suffix k errs =
     bullets (firstn k errs) ++ nl ++ nl ++ "... and "
       ++ str_int (Z.of_nat (length errs - k)) ++ " more errors") /\
  ((length errs <= k)%nat -> bullets (firstn k errs) ++ more_suffix k errs = bullets errs).
Proof.
  unfold more_suffix. split; intro H.
  - rewrite (proj2 (Nat.ltb_lt _ _) H). reflexivity.
  - rewrite (proj2 (Nat.ltb_ge _ _) H), sappend_empty, firstn_all2 by exact H.
    reflexivity.
Qed.

Definition prefix (x w : string) : Prop := exists z, w = x ++ z.

Lemma prefix_app x z : prefix x (x ++ z).
Proof. exists z. reflexivity. Qed.

Lemma prefix_cons x y w : prefix y w -> prefix (x ++ y) (x ++ w).
Proof. intros [z E]. exists z. rewrite E, sappend_assoc. reflexivity. Qed.

Lemma contains_prefix sub w : prefix sub w -> contains sub w.
Proof. intros [z E]. exists "", z. exact E. Qed.

Lemma ends_with_self y : ends_with y y.
Proof. exists "". reflexivity. Qed.

Lemma ends_with_app_l y x w : ends_with y w -> ends_with y (x ++ w).
Proof. intros [pre E]. exists (x ++ pre). rewrite E, sappend_assoc. reflexivity. Qed.

Lemma contains_app_r sub x y : contains sub x -> contains sub (x ++ y).
Proof.
  intros [pre [post E]]. exists pre, (post ++ y). rewrite E, !sappend_assoc. reflexivity.
Qed.

Ltac contains_in_bullets H :=
  lazymatch goal with
  | |- contains _ (bullets _ ++ _) => apply contains_app_r; apply bullets_contains; exact H
  | |- contains _ (_ ++ _) => apply contains_app_l; contains_in_bullets H
  end.

Ltac solve_prefix :=
  first [ apply prefix_app | apply prefix_cons; solve_prefix ].
Ltac solve_contains :=
  first [ apply contains_prefix; solve_prefix | apply contains_app_l; solve_contains ].
Ltac solve_ends_with :=
  first [ apply ends_with_self | apply ends_with_app_l; solve_ends_with ].

(** C1: the terminal status and message of a run that reached the rows:
    [failed] when errors were counted and no row was applied, with the
    error total and the first 10 errors (then "... and N more errors" if
    there are more); [completed_with_errors] when errors were counted and
    some row was applied, with the processed, created, updated and error
    counts and the first 5 errors (same suffix rule); [completed] with no
    message when no error was counted. *)
Theorem classify_spec :
  forall (a : Acc) (total : Z),
  (error_count a > 0 -> processed_count a = 0 ->
     exists msg, classify a total = (Failed, Some msg) /\
       contains ("Total errors: " ++ str_int (error_count a)) msg /\
       (forall e, In e (firstn 10 (errors a)) -> contains ("• " ++ e) msg) /\
       ((length (errors a) > 10)%nat ->
          ends_with (bullets (firstn 10 (errors a)) ++ nl ++ nl ++ "... and "
                     ++ str_int (Z.of_nat (length (errors a) - 10)) ++ " more errors") msg) /\
       ((length (errors a) <= 10)%nat -> ends_with (bullets (errors a)) msg)) /\
  (error_count a > 0 -> processed_count a > 0 ->
     exists msg, classify a total = (CompletedWithErrors, Some msg) /\
       contains ("Successfully processed: " ++ fmt_comma (processed_count a) ++ "/"
                 ++ fmt_comma total) msg /\
       contains ("✓ Created: " ++ fmt_comma (created_count a)) msg /\
       contains ("✓ Updated: " ++ fmt_comma (updated_count a)) msg /\
       contains ("❌ Errors: " ++ fmt_comma (error_count a)) msg /\
       (forall e, In e (firstn 5 (errors a)) -> contains ("• " ++ e) msg) /\
       ((length (errors a) > 5)%nat ->
          ends_with (bullets (firstn 5 (errors a)) ++ nl ++ nl ++ "... and "
                     ++ str_int (Z.of_nat (length (errors a) - 5)) ++ " more errors") msg) /\
       ((length (errors a) <= 5)%nat -> ends_with (bullets (errors a)) msg)) /\
  (error_count a = 0 -> classify a total = (Completed, None)).
Proof.
  intros a total. unfold classify. split; [| split].
  - intros He Hp. rewrite (proj2 (Z.gtb_lt (error_count a) 0) ltac:(lia)).
    rewrite (proj2 (Z.eqb_eq _ _) Hp).
    exists (failed_summary a). split; [reflexivity |].
    destruct (summary_tail 10 (errors a)) as [T1 T2]. unfold failed_summary.
    split; [| split; [| split]].
    + solve_contains.
    + intros e He'. contains_in_bullets He'.
    + intro H. rewrite <- T1 by exact H. solve_ends_with.
    + intro H. rewrite <- T2 by exact H. solve_ends_with.
  - intros He Hp. rewrite (proj2 (Z.gtb_lt (error_count a) 0) ltac:(lia)).
    rewrite (proj2 (Z.eqb_neq (processed_count a) 0)) by lia. simpl andb.
    exists (partial_summary a total). split; [reflexivity |].
    destruct (summary_tail 5 (errors a)) as [T1 T2]. unfold partial_summary.
    split; [| split; [| split; [| split; [| split; [| split]]]]]; try solve_contains.
    + intros e He'. contains_in_bullets He'.
    + intro H. rewrite <- T1 by exact H. solve_ends_with.
    + intro H. rewrite <- T2 by exact H. solve_ends_with.
  - intro H. rewrite H. reflexivity.
Qed.

(** ** The progress stream *)

Lemma poll_spec read : forall fuel k,
  let (evs, n) := poll fuel k read in
  n = length evs /\ (length evs <= fuel)%nat /\ (fuel <> O -> evs <> []) /\
  Forall (fun ev => stops ev = false) (removelast evs) /\
  ((length evs < fuel)%nat -> stops (last evs EvNotFound) = true) /\
  (forall i, (i < length evs)%nat -> nth i evs EvNotFound = snapshot_of (read (k + i)%nat)).
Proof.
  induction fuel as [|f IH]; intro k; simpl.
  - repeat split; intros; simpl in *; try lia; try constructor; congruence.
  - destruct (read k) as [j|] eqn:R.
    + destruct (terminal (status j)) eqn:T.
      * simpl. repeat split; intros; simpl in *; try lia; try constructor; try congruence.
        destruct i; [simpl; rewrite Nat.add_0_r, R; reflexivity | lia].
      * specialize (IH (S k)). destruct (poll f (S k) read) as [evs n].
        destruct IH as [H1 [H2 [H3 [H4 [H5 H6]]]]].
        simpl. repeat split.
        -- lia.
        -- lia.
        -- congruence.
        -- destruct evs as [|ev evs]; [constructor |].
           simpl removelast. constructor; [exact T | exact H4].
        -- intro Hl. destruct evs as [|ev evs].
           ++ simpl in Hl. exfalso. apply (H3 ltac:(lia)). reflexivity.
           ++ simpl last. apply H5. simpl in Hl |- *. lia.
        -- intros i Hi. destruct i as [|i].
           ++ simpl. rewrite Nat.add_0_r, R. reflexivity.
           ++ simpl. rewrite H6 by (simpl in Hi; lia). f_equal. f_equal. lia.
    + simpl. repeat split; intros; simpl in *; try lia; try constructor; try congruence.
      destruct i; [simpl; rewrite Nat.add_0_r, R; reflexivity | lia].
Qed.

(** C9: an empty identifier or one whose length ([len], in characters)
    is not 36 gets the single event [invalid_id] and no query; for an
    identifier of length 36 the
    stream makes one query per event, at most 600, shows the k-th query's
    row as its k-th event, and ends at the first terminal snapshot (or
    [not_found]): no earlier event is one. *)
Theorem progress_stream_spec :
  (forall job_id read, (job_id = "" \/ py_len job_id <> 36%nat) ->
     event_generator job_id read = ([EvInvalidId], O)) /\
  (forall job_id read, py_len job_id = 36%nat ->
     let (evs, n) := event_generator job_id read in
     n = length evs /\ (1 <= length evs <= 600)%nat /\
     Forall (fun ev => stops ev = false) (removelast evs) /\
     ((length evs < 600)%nat -> stops (last evs EvNotFound) = true) /\
     (forall k, (k < length evs)%nat -> nth k evs EvNotFound = snapshot_of (read k))).
Proof.
  split.
  - intros job_id read H. unfold event_generator.
    destruct H as [H | H].
    + subst. reflexivity.
    + rewrite (proj2 (Nat.eqb_neq _ _) H), orb_true_r. reflexivity.
  - intros job_id read H. unfold event_generator.
    rewrite H. destruct (String.eqb job_id "") eqn:E.
    + apply String.eqb_eq in E. subst. discriminate.
    + rewrite Nat.eqb_refl. cbn [orb negb].
      pose proof (poll_spec read 600 0) as P.
      destruct (poll 600 0 read) as [evs n].
      destruct P as [H1 [H2 [H3 [H4 [H5 H6]]]]].
      split; [exact H1 | split; [split | split; [exact H4 | split; [exact H5 |]]]].
      * destruct evs; [exfalso; apply H3; [discriminate | reflexivity] | simpl; lia].
      * exact H2.
      * intros k Hk. exact (H6 k Hk).
Qed.

(** ** The run as a whole *)

Ltac st_simpl :=
  unfold cur_job in *;
  cbn [committed working ncommit history clock file_present logs dispatched
       st_with_working st_with_ncommit st_committing st_with_clock st_with_file
       st_with_logs st_with_dispatched db_job db_products db_webhooks db_with_job
       db_with_products option_map status total_rows processed_rows error_message
       completed_at job_with_status job_with_total job_with_processed job_with_error
       job_with_completed cur_job hd pred] in *.

Ltac job_simpl :=
  unfold job_with_status, job_with_total, job_with_processed, job_with_error,
    job_with_completed in *; st_simpl.

Lemma edge_refl a : edge a a = true.
Proof. destruct a; reflexivity. Qed.

Lemma edge_failed a : terminal a = false -> edge a Failed = true.
Proof. destruct a; simpl; intros; try reflexivity; congruence. Qed.

Lemma success_terminal a : terminal a = false -> success_status a = false.
Proof. destruct a; simpl; intros; try reflexivity; congruence. Qed.

Lemma fail_job_ok env job_id msg s :
  exc_ok s ->
  wp (fail_job env msg) (fun _ => final_ok env job_id)
     (fun s' => exc_ok s' /\ ~ last_commit_ok env s') s.
Proof.
  intros [[Hh [Hc Hd]] [Ht [j [Hw [Hp1 Hp2]]]]].
  unfold fail_job. repeat wp_step; intros; st_simpl; rewrite Hw in *; st_simpl.
  - unfold final_ok. st_simpl. split; [| split; [| split]].
    + simpl. split; [exact Hh | split].
      * split; [apply edge_failed, Ht | exact Hp1].
      * unfold snap_ok. st_simpl. split; [split; [reflexivity | discriminate] | exact Hp2].
    + reflexivity.
    + intros _. reflexivity.
    + left. split; [exact Hd | reflexivity].
  - split.
    + split; [split; [exact Hh | split; [exact Hc | exact Hd]] | split; [exact Ht |]].
      eexists. split; [reflexivity |]. st_simpl. auto.
    + unfold last_commit_ok. st_simpl. intros [_ Hl]. congruence.
Qed.

Lemma fatal_handler_ok env job_id e s :
  exc_ok s -> wp (fatal_handler env e) (fun _ => final_ok env job_id) (fun _ => False) s.
Proof.
  intro H0. unfold fatal_handler. apply wp_bind, wp_log.
  assert (H : exc_ok (st_with_logs (logs s ++ ["Fatal error while processing CSV import"])%list s))
    by exact H0.
  clear H0. revert H.
  generalize (st_with_logs (logs s ++ ["Fatal error while processing CSV import"])%list s).
  clear s. intros s H. pose proof H as [_ [_ [j [Hw _]]]].
  apply wp_bind, wp_get_job. rewrite Hw.
  apply wp_try. eapply wp_conseq; [apply fail_job_ok, H | intros ? ? Hf; exact Hf |].
  intros s' [[[Hh [Hc Hd]] [Ht _]] Hl] e'. apply wp_log.
  unfold final_ok. st_simpl. split; [exact Hh | split; [exact Hc | split]].
  - intro Hl'. exfalso. apply Hl. exact Hl'.
  - left. split; [exact Hd | apply success_terminal, Ht].
Qed.

(** *** The rows phase *)

Section RowsPhase.

Variables (n bound : Z).

Lemma rows_ok_acc a a' s :
  rows_ok n bound a s ->
  processed_count a' = created_count a' + updated_count a' ->
  rows_ok n bound a' s.
Proof. unfold rows_ok. intuition. Qed.

Lemma rows_ok_commit a s : rows_ok n bound a s -> rows_ok n bound a (st_committing s).
Proof.
  unfold rows_ok, base_ok, cur_job. intros (Hb & Hw & Hs & Hc & Ht & Hp & Hbd & Ha).
  destruct Hb as (Hh & Hcm & Hd). st_simpl. rewrite Hw. st_simpl.
  repeat split; auto; try lia.
  all: first [ apply edge_refl | intro H; rewrite Hs in H; discriminate
             | intro H; exfalso; apply H; exact Hc ].
Qed.

Lemma rows_ok_frame a s s' :
  rows_ok n bound a s ->
  history s' = history s -> db_job (committed s') = db_job (committed s) ->
  db_job (working s') = db_job (working s) -> dispatched s' = dispatched s ->
  rows_ok n bound a s'.
Proof.
  unfold rows_ok, base_ok, cur_job. intros H E1 E2 E3 E4.
  rewrite E1, E2, E3, E4. exact H.
Qed.

Lemma rows_ok_rollback a s : rows_ok n bound a s ->
  rows_ok n bound a (st_with_working (committed s) s).
Proof.
  intro H. apply (rows_ok_frame a s); try reflexivity; [exact H |].
  destruct H as ((_ & Hc & _) & Hw & _). st_simpl. congruence.
Qed.

Lemma rows_ok_add_error msg a s : rows_ok n bound a s -> rows_ok n bound (add_error msg a) s.
Proof. intro H. apply (rows_ok_acc a); [exact H |]. destruct H as (_ & _ & _ & _ & _ & _ & _ & Ha). exact Ha. Qed.

Lemma process_row_ok env ir a s E :
  rows_ok n bound a s ->
  wp (process_row env ir a) (fun a' s' => rows_ok n bound a' s') E s.
Proof.
  intro H. destruct ir as [idx row]. unfold process_row. apply wp_try.
  destruct (validate_row idx row) as [msg | sku_v name_v description_v].
  - apply wp_ret. apply rows_ok_add_error, H.
  - apply wp_bind. unfold upsert. destruct (upsert_error env idx) as [e|].
    + apply wp_raise. intro e'. apply wp_ret. apply rows_ok_add_error, H.
    + apply wp_bind, wp_utcnow. unfold wp at 1.
      match goal with |- context [upsert_products ?x1 ?x2 ?x3 ?x4 ?x5] =>
        destruct (upsert_products x1 x2 x3 x4 x5) as [ps updated] end.
      match goal with |- wp _ _ _ ?st => set (s2 := st) end.
      assert (H2 : rows_ok n bound a s2) by (apply (rows_ok_frame a s); reflexivity || exact H).
      match goal with |- context [processed_count ?acc mod 50] => set (a2 := acc) end.
      assert (Ha2 : rows_ok n bound a2 s2).
      { apply (rows_ok_acc a); [exact H2 |]. destruct H as (_ & _ & _ & _ & _ & _ & _ & Ha).
        unfold a2. destruct updated; simpl; lia. }
      destruct (processed_count a2 mod 50 =? 0).
      * apply wp_try. apply wp_bind. apply wp_commit.
        -- intros _. apply wp_ret. apply rows_ok_commit, Ha2.
        -- intros e _ e'. apply wp_bind, wp_rollback, wp_ret.
           apply rows_ok_add_error. apply (rows_ok_frame a2 s2); try reflexivity; [exact Ha2 |].
           destruct Ha2 as ((_ & Hc & _) & Hw & _). st_simpl. congruence.
      * apply wp_ret. exact Ha2.
Qed.

End RowsPhase.

Lemma chunk_rows_ok env n i chunk a s E :
  rows_ok n i a s ->
  wp (chunk_rows env i chunk a) (fun a' s' => rows_ok n i a' s') E s.
Proof.
  intro H. unfold chunk_rows. apply wp_bind.
  eapply wp_conseq;
    [apply (wp_for_each (process_row env) (fun _ => rows_ok n i) E); [| exact H] | |].
  - intros x xs a' s' H'. apply process_row_ok, H'.
  - intros a1 s1 H1. apply wp_try. apply wp_bind, wp_commit.
    + intros _. apply wp_ret. apply rows_ok_commit, H1.
    + intros e _ e'. apply wp_bind, wp_rollback, wp_ret.
      apply (rows_ok_acc n i a1).
      * apply (rows_ok_frame n i a1 s1); try reflexivity; [exact H1 |].
        destruct H1 as ((_ & Hc & _) & Hw & _). st_simpl. congruence.
      * destruct H1 as (_ & _ & _ & _ & _ & _ & _ & Ha). exact Ha.
  - auto.
Qed.

Lemma process_chunk_ok env n i chunk a s :
  rows_ok n i a s ->
  wp (process_chunk env n i chunk a) (fun a' s' => rows_ok n (i + chunk_size) a' s') exc_ok s.
Proof.
  intro H. unfold process_chunk. apply wp_bind.
  eapply wp_conseq; [apply (chunk_rows_ok env n i chunk a s exc_ok H) | | auto].
  intros a2 s2 H2.
  destruct H2 as ((Hh & Hc & Hd) & Hw & Hs & Hca & Ht & Hp & Hb & Ha).
  unfold cur_job in *. apply wp_bind, wp_update_job. rewrite Hw. st_simpl.
  apply wp_bind, wp_commit.
  - intros _. apply wp_ret. unfold rows_ok, base_ok. st_simpl.
    unfold chunk_size in *. rewrite Hs, Hca, Ht.
    repeat split; auto; try lia.
    all: st_simpl; rewrite ?Hs, ?Hca, ?Ht; try lia.
    all: first [ apply edge_refl | intro Hx; discriminate
               | intro Hx; exfalso; apply Hx; reflexivity ].
  - intros e _. unfold exc_ok, base_ok. st_simpl. unfold chunk_size in *.
    rewrite Hs. repeat split; auto.
    eexists. split; [reflexivity |]. st_simpl. rewrite Ht. lia.
Qed.

Lemma rows_ok_weaken n b b' a s : b <= b' -> rows_ok n b a s -> rows_ok n b' a s.
Proof. unfold rows_ok. intros Hb H. intuition lia. Qed.

Lemma import_rows_ok env rows a s :
  rows_ok (Z.of_nat (length rows)) 0 a s ->
  wp (import_rows env rows a)
     (fun a' s' => exists b, rows_ok (Z.of_nat (length rows)) b a' s') exc_ok s.
Proof.
  intro H. unfold import_rows.
  set (n := Z.of_nat (length rows)).
  set (Inv := fun (rest : list Z) a s =>
         exists m r, rest = map (fun k => Z.of_nat k * chunk_size) (seq m r) /\
                     rows_ok n (Z.of_nat m * chunk_size) a s).
  eapply wp_conseq; [apply (wp_for_each _ Inv exc_ok) | |].
  - intros x xs a' s' (m & r & Hr & H').
    destruct r as [|r]; [discriminate |]. simpl in Hr. injection Hr as Hx Hxs.
    subst x. eapply wp_conseq; [apply process_chunk_ok, H' | | auto].
    intros a2 s2 H2. exists (S m), r. split; [exact Hxs |].
    eapply rows_ok_weaken; [| exact H2]. unfold chunk_size. lia.
  - exists 0%nat, ((length rows + 99) / 100)%nat. split; [reflexivity | exact H].
  - intros a' s' (m & r & _ & H'). exists (Z.of_nat m * chunk_size). exact H'.
  - auto.
Qed.

(** *** After the rows phase *)

Lemma final_ok_frame env job_id s s' :
  final_ok env job_id s ->
  history s' = history s -> db_job (committed s') = db_job (committed s) ->
  ncommit s' = ncommit s -> dispatched s' = dispatched s ->
  final_ok env job_id s'.
Proof.
  unfold final_ok, last_commit_ok, cur_job. intros H E1 E2 E3 E4.
  rewrite E1, E2, E3, E4. exact H.
Qed.

Lemma cleanup_ok env job_id s E :
  final_ok env job_id s -> wp (cleanup env) (fun _ => final_ok env job_id) E s.
Proof.
  intro H. unfold cleanup. apply wp_bind, wp_gets.
  destruct (file_present s); [destruct (remove_error env) |].
  - apply wp_log. apply (final_ok_frame env job_id s); auto.
  - apply wp_modify. apply (final_ok_frame env job_id s); auto.
  - apply wp_ret. exact H.
Qed.

Lemma classify_status a t st msg :
  classify a t = (st, msg) -> terminal st = true /\ edge Importing st = true.
Proof.
  unfold classify.
  destruct ((error_count a >? 0) && (processed_count a =? 0)); [| destruct (error_count a >? 0)];
    intro H; injection H as <- <-; split; reflexivity.
Qed.

Lemma dispatch_imported_ok env job_id p s E :
  pl_job_id p = job_id -> pl_count p = pl_created p + pl_updated p ->
  wp (dispatch_imported env p)
     (fun _ s' => history s' = history s /\ committed s' = committed s /\
                  ncommit s' = ncommit s /\
                  exists d, dispatched s' = app (dispatched s) [d] /\ dispatch_ok env job_id d)
     E s.
Proof.
  intros Hid Hcount. unfold dispatch_imported.
  destruct (celery_available env); apply wp_modify.
  - repeat split; try reflexivity. eexists. split; [reflexivity |].
    split; [exact Hid | split; [exact Hcount | reflexivity]].
  - destruct (trigger_webhooks_sync env (db_webhooks (committed s)) "product.imported")
      as [atts ls] eqn:Ht.
    repeat split; try reflexivity. eexists. split; [reflexivity |].
    split; [exact Hid | split; [exact Hcount |]]. split; [reflexivity |].
    exists (db_webhooks (committed s)). rewrite Ht. reflexivity.
Qed.

Lemma parsing_exc s : parsing_ok s -> exc_ok s.
Proof.
  intros (Hb & Hw & Hs & Hp & Hca). split; [exact Hb |]. split.
  - rewrite Hs. reflexivity.
  - exists (cur_job s). split; [exact Hw |]. split; [lia |].
    destruct Hb as (Hh & _ & _). unfold cur_job in *.
    destruct (history s) as [|j h]; [simpl in *; lia |].
    simpl in Hh |- *. destruct Hh as (_ & _ & _ & Hj). exact Hj.
Qed.

Lemma import_phase_ok env job_id rows s :
  parsing_ok s -> wp (import_phase env job_id rows) (fun _ => final_ok env job_id) exc_ok s.
Proof.
  intros ((Hh & Hc & Hd) & Hw & Hs & Hp & Hca). unfold cur_job in *.
  set (n := Z.of_nat (length rows)).
  unfold import_phase. fold n.
  apply wp_bind, wp_update_job. rewrite Hw. st_simpl.
  apply wp_bind, wp_commit.
  2: { intros e _. unfold exc_ok, base_ok. st_simpl. rewrite Hs.
       repeat split; auto. eexists. split; [reflexivity |]. st_simpl. rewrite Hp. lia. }
  intros _. apply wp_bind.
  eapply wp_conseq; [apply import_rows_ok | | auto].
  { unfold rows_ok, base_ok. st_simpl. rewrite ?Hp, ?Hs, ?Hca.
    repeat split; auto; try lia; try reflexivity.
    all: st_simpl; rewrite ?Hs, ?Hp, ?Hca; try lia.
    all: first [ reflexivity | intro Hx; discriminate
               | intro Hx; exfalso; apply Hx; reflexivity ]. }
  fold n. intros a s2 [b Hr].
  apply wp_bind.
  apply (wp_conseq _ (fun (_ : unit) s3 => rows_ok n b a s3) _ exc_ok exc_ok);
    [| | auto].
  { apply wp_try, wp_commit.
    - intros _. apply rows_ok_commit, Hr.
    - intros e _ e'. apply wp_log. apply (rows_ok_frame n b a s2); auto. }
  intros _ s3 H3.
  destruct (classify a n) as [st msg] eqn:Hcl.
  destruct (classify_status a n st msg Hcl) as [Hterm Hedge].
  destruct H3 as ((Hh3 & Hc3 & Hd3) & Hw3 & Hs3 & Hca3 & Ht3 & Hp3 & Hb3 & Ha3).
  unfold cur_job in *.
  apply wp_bind, wp_update_job. rewrite Hw3. st_simpl.
  apply wp_bind, wp_utcnow. st_simpl.
  apply wp_bind, wp_update_job. st_simpl.
  apply wp_bind, wp_commit.
  2: { intros e _. unfold exc_ok, base_ok. st_simpl. rewrite Hs3.
       repeat split; auto. eexists. split; [reflexivity |]. st_simpl. lia. }
  intros _. apply wp_bind, wp_get_job. cbv beta. apply wp_bind.
  match goal with |- wp _ _ _ ?x => set (s5 := x) end.
  assert (H5h : hist_ok new_job (history s5)).
  { unfold s5. job_simpl. split; [exact Hh3 |]. split.
    - split; [rewrite Hs3; exact Hedge | simpl; lia].
    - unfold snap_ok. job_simpl. split; [| simpl; lia].
      split; [intros _; exact Hterm | discriminate]. }
  assert (H5c : db_job (committed s5) = Some (cur_job s5)) by (unfold s5; st_simpl; reflexivity).
  assert (H5t : status (cur_job s5) = st) by (unfold s5; st_simpl; reflexivity).
  assert (H5d : dispatched s5 = []) by (unfold s5; st_simpl; exact Hd3).
  assert (H5w : db_job (working s5) = Some (cur_job s5)) by (unfold s5; st_simpl; reflexivity).
  rewrite H5w, H5t.
  change (Status_eqb st Completed || Status_eqb st CompletedWithErrors) with (success_status st).
  destruct (success_status st) eqn:Hsu.
  - eapply wp_conseq; [apply (dispatch_imported_ok env job_id _ s5 exc_ok);
                       [reflexivity | exact Ha3] | | auto].
    intros _ s6 (E1 & E2 & E3 & d & E4 & E5). apply cleanup_ok.
    unfold final_ok, last_commit_ok, cur_job in *. rewrite E1, E2, E3, E4, H5d.
    split; [exact H5h | split; [exact H5c | split]].
    + intros _. rewrite H5t. exact Hterm.
    + right. exists d. split; [reflexivity |]. rewrite H5t. split; [exact Hsu | exact E5].
  - apply wp_ret. apply cleanup_ok.
    unfold final_ok. split; [exact H5h | split; [exact H5c | split]].
    + intros _. rewrite H5t. exact Hterm.
    + left. rewrite H5t. split; [exact H5d | exact Hsu].
Qed.

Lemma body_ok env job_id fp s :
  base_ok s -> db_job (working s) = Some (cur_job s) -> cur_job s = new_job ->
  wp (body env job_id fp) (fun _ => final_ok env job_id) exc_ok s.
Proof.
  intros (Hh & Hc & Hd) Hw Hn. unfold body. apply wp_bind, wp_get_job. rewrite Hw.
  cbv beta iota. unfold cur_job in *.
  apply wp_bind, wp_update_job. rewrite Hw. st_simpl.
  apply wp_bind, wp_commit.
  2: { intros e _. unfold exc_ok, base_ok. st_simpl. rewrite Hn in *.
       repeat split; auto. eexists. split; [reflexivity |]. simpl. lia. }
  intros _.
  match goal with |- wp _ _ _ ?x => set (s1 := x) end.
  assert (HP : parsing_ok s1).
  { unfold s1, parsing_ok, base_ok. job_simpl. rewrite Hn. simpl.
    repeat split; auto; try lia.
    all: rewrite ?Hn; simpl; try lia.
    all: first [ reflexivity | intro Hx; discriminate
               | intro Hx; exfalso; apply Hx; reflexivity ]. }
  assert (HE : forall msg, wp (fail_job env msg) (fun _ => final_ok env job_id) exc_ok s1).
  { intro msg. eapply wp_conseq; [apply (fail_job_ok env job_id), parsing_exc, HP | auto |].
    intros s' [H' _]. exact H'. }
  apply wp_bind, wp_gets. destruct (negb (file_present s1)); [apply HE |].
  destruct (read_csv env) as [| e | cols rows]; [apply HE | apply HE |].
  destruct (filter _ _) as [| m ms]; [apply import_phase_ok, HP | apply HE].
Qed.

Lemma wp_snd {A} (m : M A) (P : St -> Prop) s :
  wp m (fun _ => P) (fun _ => False) s -> P (snd (m s)).
Proof. unfold wp. destruct (m s) as [[a|e] s']; simpl; tauto. Qed.

Lemma run_final_ok env d present job_id fp :
  db_job d = Some new_job -> final_ok env job_id (run env d present job_id fp).
Proof.
  intro Hd. unfold run. apply wp_snd. unfold process_csv_import_sync.
  apply wp_bind, wp_try.
  eapply wp_conseq; [apply body_ok | |].
  - split; [exact I | split; [exact Hd | reflexivity]].
  - exact Hd.
  - reflexivity.
  - intros ? s' H. apply wp_close.
    apply (final_ok_frame env job_id s'); auto.
  - intros s' H e.
    eapply wp_conseq; [apply fatal_handler_ok, H | | auto].
    intros ? s'' H'. apply wp_close.
    apply (final_ok_frame env job_id s''); [exact H' | ..]; reflexivity.
Qed.

(** *** Histories, counters and webhooks *)

Lemma hist_sorted j0 h :
  hist_ok j0 h -> Sorted Z.ge (map processed_rows (h ++ [j0])).
Proof.
  induction h as [|j h IH]; simpl.
  - intros _. repeat constructor.
  - intros (Hh & (_ & Hp) & _). constructor; [apply IH, Hh |].
    destruct h as [|j' h]; simpl in *; constructor; lia.
Qed.

Lemma hist_bounds j0 h :
  hist_ok j0 h -> Forall (fun j => 0 <= processed_rows j <= total_rows j) h.
Proof.
  induction h as [|j h IH]; simpl; intro H.
  - constructor.
  - destruct H as (Hh & _ & _ & Hb). constructor; [exact Hb | apply IH, Hh].
Qed.

Lemma fatal_handler_write env e s j :
  db_job (working s) = Some j -> commit_result env (ncommit s) = None ->
  db_job (committed (snd (fatal_handler env e s))) =
    Some (job_with_completed (Some (clock s))
            (job_with_error
               (Some ("❌ Fatal Error: " ++ e ++ nl ++ nl ++ "Full error details:" ++ nl
                      ++ format_exc e))
               (job_with_status Failed j))).
Proof.
  intros Hw Hc. unfold fatal_handler, bind, log, modify, get_job, gets. cbn. rewrite Hw.
  unfold try_except, fail_job, bind, utcnow, update_job, modify, commit. cbn.
  rewrite Hw. cbn. rewrite Hc. reflexivity.
Qed.

Lemma process_row_acc env ir a s :
  acc_ok a -> wp (process_row env ir a) (fun a' _ => acc_ok a') (fun _ => True) s.
Proof.
  intro H. destruct ir as [idx row]. unfold process_row. apply wp_try.
  destruct (validate_row idx row) as [msg | sku_v name_v description_v].
  - apply wp_ret. exact H.
  - apply wp_bind. unfold upsert. destruct (upsert_error env idx) as [e|].
    + apply wp_raise. intro e'. apply wp_ret. exact H.
    + apply wp_bind, wp_utcnow. unfold wp at 1.
      match goal with |- context [upsert_products ?x1 ?x2 ?x3 ?x4 ?x5] =>
        destruct (upsert_products x1 x2 x3 x4 x5) as [ps updated] end.
      match goal with |- context [processed_count ?acc mod 50] => set (a2 := acc) end.
      assert (Ha2 : acc_ok a2) by (unfold acc_ok in *; unfold a2; destruct updated; simpl; lia).
      destruct (processed_count a2 mod 50 =? 0).
      * apply wp_try. apply wp_bind. apply wp_commit.
        -- intros _. apply wp_ret. exact Ha2.
        -- intros e _ e'. apply wp_bind, wp_rollback, wp_ret. exact Ha2.
      * apply wp_ret. exact Ha2.
Qed.

Lemma chunk_rows_acc env i chunk a s :
  acc_ok a -> wp (chunk_rows env i chunk a) (fun a' _ => acc_ok a') (fun _ => True) s.
Proof.
  intro H. unfold chunk_rows. apply wp_bind.
  eapply wp_conseq;
    [apply (wp_for_each (process_row env) (fun _ a _ => acc_ok a) (fun _ => True));
       [| exact H] | |].
  - intros x xs a' s' H'. apply process_row_acc, H'.
  - intros a1 s1 H1. apply wp_try. apply wp_bind, wp_commit.
    + intros _. apply wp_ret. exact H1.
    + intros e _ e'. apply wp_bind, wp_rollback, wp_ret. exact H1.
  - auto.
Qed.

Lemma import_rows_acc env rows a s :
  acc_ok a -> wp (import_rows env rows a) (fun a' _ => acc_ok a') (fun _ => True) s.
Proof.
  intro H. unfold import_rows.
  apply (wp_for_each _ (fun _ a _ => acc_ok a) (fun _ => True)); [| exact H].
  intros i is a' s' H'. unfold process_chunk. apply wp_bind.
  eapply wp_conseq; [apply chunk_rows_acc, H' | | auto].
  intros a2 s2 H2. apply wp_bind, wp_update_job, wp_bind, wp_commit.
  - intros _. apply wp_ret. exact H2.
  - auto.
Qed.

Lemma deliver_all_eq env event ws :
  deliver_all env event ws =
    (map (fun w => (url w, post_result env (url w))) ws,
     flat_map (fun w => match post_result env (url w) with
                        | Some e => ["Webhook failed: " ++ url w ++ " - Error: " ++ e]
                        | None => []
                        end) ws).
Proof.
  induction ws as [|w ws IH]; simpl; [reflexivity |].
  rewrite IH. unfold deliver. destruct (post_result env (url w)); reflexivity.
Qed.

(** ** The claims *)

(** C2. In a run on an existing pending job, each committed row
    of the job is one step of the status graph [edge] from the row before
    it (pending first), with a processed count that does not decrease, and
    has [completed_at] set exactly when its status is terminal; the job the
    run leaves committed is terminal whenever the last commit of the run
    went through. When an exception escapes, the handler writes failed, the
    completion time and a message carrying the exception's text; if that
    write raises as well it is only logged, and the job stays non-terminal
    (see [job_status_stuck]). *)
Theorem job_status_spec :
  (forall env d present job_id fp,
     db_job d = Some new_job ->
     let s := run env d present job_id fp in
     hist_ok new_job (history s) /\ db_job (committed s) = Some (cur_job s) /\
     (last_commit_ok env s -> terminal (status (cur_job s)) = true)) /\
  (forall env e s j,
     db_job (working s) = Some j -> commit_result env (ncommit s) = None ->
     db_job (committed (snd (fatal_handler env e s))) =
       Some (job_with_completed (Some (clock s))
               (job_with_error
                  (Some ("❌ Fatal Error: " ++ e ++ nl ++ nl ++ "Full error details:" ++ nl
                         ++ format_exc e))
                  (job_with_status Failed j)))).
Proof.
  split.
  - intros env d present job_id fp Hd.
    destruct (run_final_ok env d present job_id fp Hd) as (Hh & Hc & Ht & _).
    split; [exact Hh | split; [exact Hc | exact Ht]].
  - intros env e s j Hw Hc. apply fatal_handler_write; assumption.
Qed.

Lemma job_status_spec_witness :
  let s := run (csv_env all_commits_ok [csv_row "A" "a" ""]) fresh_db true "job" "f.csv" in
  hist_ok new_job (history s) /\
  db_job (committed (snd (fatal_handler (csv_env all_commits_ok []) "boom" (init_st fresh_db 0 true)))) =
    Some (job_with_completed (Some 0)
            (job_with_error
               (Some ("❌ Fatal Error: " ++ "boom" ++ nl ++ nl ++ "Full error details:" ++ nl
                      ++ format_exc "boom"))
               (job_with_status Failed new_job))).
Proof.
  split.
  - exact (proj1 (proj1 job_status_spec _ fresh_db true "job" "f.csv" eq_refl)).
  - exact (proj2 job_status_spec (csv_env all_commits_ok []) "boom" (init_st fresh_db 0 true)
             new_job eq_refl eq_refl).
Defined.

(** C2: when every commit raises, the job of a run stays pending: the
    handler logs the exception, and its write of failed raises in turn and
    is only logged. *)
Lemma job_status_stuck :
  let s := run (csv_env (fun _ => Some "db down") [csv_row "A" "a" ""]) fresh_db true
             "job" "f.csv" in
  db_job (committed s) = Some new_job /\ terminal (status new_job) = false /\
  logs s = ["Fatal error while processing CSV import";
            "Failed to update job status in database: db down"].
Proof. vm_compute. split; [reflexivity | split; reflexivity]. Qed.

(** C4: at the end of the chunk at offset [i] of an [n]-row import, the job's
    [processed_rows] is written as [min(i + chunk_size, n)] and committed,
    whatever the rows of the chunk did (a row error never interrupts the
    chunk); only a failure of that commit itself raises, with the value set
    on the session's job. Over a whole run the committed values, oldest
    first, never decrease and each lies between 0 and [total_rows]. *)
Theorem processed_rows_spec :
  (forall env n i chunk a s,
     rows_ok n i a s ->
     wp (process_chunk env n i chunk a)
        (fun _ s' => exists j, db_job (committed s') = Some j /\
                               processed_rows j = Z.min (i + chunk_size) n)
        (fun s' => exists j, db_job (working s') = Some j /\
                             processed_rows j = Z.min (i + chunk_size) n) s) /\
  (forall env d present job_id fp,
     db_job d = Some new_job ->
     let s := run env d present job_id fp in
     Sorted Z.ge (map processed_rows (history s ++ [new_job])) /\
     Forall (fun j => 0 <= processed_rows j <= total_rows j) (history s)).
Proof.
  split.
  - intros env n i chunk a s H. unfold process_chunk. apply wp_bind.
    eapply wp_conseq; [apply (chunk_rows_ok env n i chunk a s _ H) | | intros ? Hx; exact Hx].
    intros a2 s2 H2. destruct H2 as ((_ & Hc & _) & Hw & _).
    unfold cur_job in *. apply wp_bind, wp_update_job. rewrite Hw. st_simpl.
    apply wp_bind, wp_commit.
    + intros _. apply wp_ret. eexists. split; [reflexivity |]. reflexivity.
    + intros e _. eexists. split; [reflexivity |]. reflexivity.
  - intros env d present job_id fp Hd.
    destruct (run_final_ok env d present job_id fp Hd) as (Hh & _).
    split; [apply hist_sorted, Hh | apply (hist_bounds new_job), Hh].
Qed.

Lemma processed_rows_spec_witness :
  wp (process_chunk (csv_env all_commits_ok []) 1 0 [(0, csv_row "A" "a" "")] acc0)
     (fun _ s' => exists j, db_job (committed s') = Some j /\
                            processed_rows j = Z.min (0 + chunk_size) 1)
     (fun s' => exists j, db_job (working s') = Some j /\
                          processed_rows j = Z.min (0 + chunk_size) 1) (mid_import_st 1) /\
  Sorted Z.ge (map processed_rows
    (history (run (csv_env all_commits_ok [csv_row "A" "a" ""]) fresh_db true "job" "f.csv")
     ++ [new_job])).
Proof.
  split.
  - apply (proj1 processed_rows_spec).
    unfold rows_ok, base_ok, cur_job, mid_import_st, acc0. cbn.
    repeat split; try lia; try discriminate; try reflexivity.
    all: intro Hx; exfalso; apply Hx; reflexivity.
  - exact (proj1 (proj2 processed_rows_spec _ fresh_db true "job" "f.csv" eq_refl)).
Defined.

(** C6: a failed chunk checkpoint does not add one
    error. The handler adds [chunk_size - processed_count] to the error
    count, where [processed_count] counts the applied rows of the whole run
    so far. A one-row file whose chunk commit (commit 2) fails ends
    [completed_with_errors] with 99 errors reported. A 100-row file whose
    chunk commit (commit 4) fails gains no error at all and ends
    [completed] with no message. *)
Theorem checkpoint_error_count :
  let s1 := run (csv_env (fail_at 2) (valid_rows 1)) fresh_db true "job" "f.csv" in
  let s2 := run (csv_env (fail_at 4) (valid_rows 100)) fresh_db true "job" "f.csv" in
  status (cur_job s1) = CompletedWithErrors /\
  dispatched s1 = [DispatchAsync "product.imported" (mkPayload "job" 1 1 0 99)] /\
  status (cur_job s2) = Completed /\ error_message (cur_job s2) = None /\
  dispatched s2 = [DispatchAsync "product.imported" (mkPayload "job" 100 100 0 0)].
Proof. vm_compute. repeat split. Qed.

(** C7: the staged file is removed only at the end of
    the rows phase. A run whose file lacks the [name] column, or cannot be
    decoded, marks the job failed and returns with the file still there. *)
Theorem staged_file_kept :
  let s1 := run (mkEnv all_commits_ok (CsvOk ["sku"; "description"] [])
                   (fun _ => None) true (fun _ => None) None)
              fresh_db true "job" "f.csv" in
  let s2 := run (mkEnv all_commits_ok CsvDecodeError
                   (fun _ => None) true (fun _ => None) None)
              fresh_db true "job" "f.csv" in
  status (cur_job s1) = Failed /\ file_present s1 = true /\
  status (cur_job s2) = Failed /\ file_present s2 = true.
Proof. vm_compute. repeat split. Qed.

(** C8: a run dispatches [product.imported] exactly when the job it leaves
    committed is [completed] or [completed_with_errors], at most once, with
    the job's id and counts ([dispatch_ok]); the dispatch neither raises nor
    touches the session's job. [trigger_webhooks_sync] posts to every
    enabled listener of the event, in order, whatever the earlier posts did,
    and logs one line per failed post. *)
Theorem webhook_dispatch_spec :
  (forall env d present job_id fp,
     db_job d = Some new_job ->
     let s := run env d present job_id fp in
     (dispatched s <> [] <-> success_status (status (cur_job s)) = true) /\
     (length (dispatched s) <= 1)%nat /\
     Forall (dispatch_ok env job_id) (dispatched s)) /\
  (forall env p s,
     fst (dispatch_imported env p s) = Ok tt /\
     committed (snd (dispatch_imported env p s)) = committed s /\
     working (snd (dispatch_imported env p s)) = working s) /\
  (forall env hooks event,
     let ws := filter (fun w => String.eqb (event_type w) event && enabled w) hooks in
     trigger_webhooks_sync env hooks event =
       (map (fun w => (url w, post_result env (url w))) ws,
        flat_map (fun w => match post_result env (url w) with
                           | Some e => ["Webhook failed: " ++ url w ++ " - Error: " ++ e]
                           | None => []
                           end) ws)).
Proof.
  split; [| split].
  - intros env d present job_id fp Hd.
    destruct (run_final_ok env d present job_id fp Hd) as (_ & _ & _ & [[E S] | (dd & E & S & D)]);
      cbv zeta; rewrite E, S.
    + split; [split; [intro H; exfalso; apply H; reflexivity | discriminate] |].
      split; [simpl; lia | constructor].
    + split; [split; [reflexivity | discriminate] |].
      split; [simpl; lia | constructor; [exact D | constructor]].
  - intros env p s. unfold dispatch_imported.
    destruct (celery_available env); unfold modify; cbn.
    + repeat split.
    + destruct (trigger_webhooks_sync env (db_webhooks (committed s)) "product.imported");
        repeat split.
  - intros env hooks event. cbv zeta. unfold trigger_webhooks_sync.
    destruct (filter _ hooks) eqn:F; [reflexivity |].
    rewrite <- F. apply deliver_all_eq.
Qed.

Lemma webhook_dispatch_spec_witness :
  let s := run (csv_env all_commits_ok [csv_row "A" "a" ""]) fresh_db true "job" "f.csv" in
  (dispatched s <> [] <-> success_status (status (cur_job s)) = true).
Proof. exact (proj1 (proj1 webhook_dispatch_spec _ fresh_db true "job" "f.csv" eq_refl)). Defined.

(** C10: the rows count a row as processed exactly when they create or
    update a product, from the start of the rows phase and after each row;
    so a dispatched payload's [count] is [created + updated], and the
    [completed_with_errors] summary reports [created + updated] as the
    successfully processed figure. *)
Theorem success_count_spec :
  (forall env ir a s,
     acc_ok a -> wp (process_row env ir a) (fun a' _ => acc_ok a') (fun _ => True) s) /\
  (forall env rows s,
     wp (import_rows env rows acc0) (fun a _ => acc_ok a) (fun _ => True) s) /\
  (forall env d present job_id fp,
     db_job d = Some new_job ->
     Forall (fun dd => pl_count (dispatch_payload dd) =
                       pl_created (dispatch_payload dd) + pl_updated (dispatch_payload dd))
            (dispatched (run env d present job_id fp))) /\
  (forall a t msg,
     acc_ok a -> classify a t = (CompletedWithErrors, Some msg) ->
     contains ("Successfully processed: " ++ fmt_comma (created_count a + updated_count a)
               ++ "/") msg).
Proof.
  split; [| split; [| split]].
  - intros. apply process_row_acc. assumption.
  - intros. apply import_rows_acc. reflexivity.
  - intros env d present job_id fp Hd.
    destruct (run_final_ok env d present job_id fp Hd) as (_ & _ & _ & [[E _] | (dd & E & _ & D)]);
      rewrite E.
    + constructor.
    + constructor; [apply D | constructor].
  - intros a t msg H Hc. unfold classify in Hc.
    destruct ((error_count a >? 0) && (processed_count a =? 0)); [discriminate |].
    destruct (error_count a >? 0); [| discriminate].
    injection Hc as <-. unfold partial_summary. unfold acc_ok in H. rewrite <- H.
    solve_contains.
Qed.

Lemma success_count_spec_witness :
  wp (process_row (csv_env all_commits_ok []) (0, csv_row "A" "a" "") acc0)
     (fun a' _ => acc_ok a') (fun _ => True) (init_st fresh_db 0 true) /\
  Forall (fun dd => pl_count (dispatch_payload dd) =
                    pl_created (dispatch_payload dd) + pl_updated (dispatch_payload dd))
         (dispatched (run (csv_env all_commits_ok [csv_row "A" "a" ""]) fresh_db true
                        "job" "f.csv")) /\
  contains ("Successfully processed: " ++ fmt_comma (1 + 0) ++ "/")
           (partial_summary (mkAcc 1 1 0 1 ["e"]) 2).
Proof.
  split; [| split].
  - apply (proj1 success_count_spec). reflexivity.
  - apply (proj1 (proj2 (proj2 success_count_spec)) _ fresh_db true "job" "f.csv").
    reflexivity.
  - apply (proj2 (proj2 (proj2 success_count_spec)) (mkAcc 1 1 0 1 ["e"]) 2); reflexivity.
Defined.

(** ** Invariants kept by every step of a run *)

Lemma wp_snd_inv {A} (m : M A) (P : St -> Prop) s :
  wp m (fun _ => P) P s -> P (snd (m s)).
Proof. unfold wp. destruct (m s) as [[a|e] s']; simpl; tauto. Qed.

Section Frame.

Variable P : St -> Prop.

Local Notation "'keeps' m" := (forall s, P s -> wp m (fun _ => P) P s)
  (at level 10, m at level 9).

Hypothesis P_commit : forall s, P s -> P (st_committing s).
Hypothesis P_ncommit : forall n s, P s -> P (st_with_ncommit n s).
Hypothesis P_rollback : forall s, P s -> P (st_with_working (committed s) s).
Hypothesis P_job : forall j s, P s -> P (st_with_working (db_with_job j (working s)) s).
Hypothesis P_clock : forall t s, P s -> P (st_with_clock t s).
Hypothesis P_logs : forall l s, P s -> P (st_with_logs l s).
Hypothesis P_dispatched : forall l s, P s -> P (st_with_dispatched l s).
Hypothesis P_file : forall b s, P s -> P (st_with_file b s).
Hypothesis P_upsert : forall sku_v name_v description_v t ps u s,
  upsert_products sku_v name_v description_v t (db_products (working s)) = (ps, u) ->
  P s -> P (st_with_working (db_with_products ps (working s)) s).

Lemma keeps_bind {A B} (m : M A) (k : A -> M B) :
  keeps m -> (forall a, keeps (k a)) -> keeps (bind m k).
Proof.
  intros Hm Hk s Hs. apply wp_bind. eapply wp_conseq; [apply Hm, Hs | | auto].
  intros a s' H'. apply Hk, H'.
Qed.

Lemma keeps_try {A} (m : M A) h :
  keeps m -> (forall e, keeps (h e)) -> keeps (try_except m h).
Proof.
  intros Hm Hh s Hs. apply wp_try. eapply wp_conseq; [apply Hm, Hs | auto |].
  intros s' H' e. apply Hh, H'.
Qed.

Lemma keeps_ret {A} (a : A) : keeps (ret a).
Proof. intros s Hs. apply wp_ret, Hs. Qed.

Lemma keeps_raise {A} e : keeps (@raise A e).
Proof. intros s Hs. apply wp_raise, Hs. Qed.

Lemma keeps_gets {A} (f : St -> A) : keeps (gets f).
Proof. intros s Hs. apply wp_gets, Hs. Qed.

Lemma keeps_commit env : keeps (commit env).
Proof. intros s Hs. apply wp_commit; auto. Qed.

Lemma keeps_rollback : keeps rollback.
Proof. intros s Hs. apply wp_rollback; auto. Qed.

Lemma keeps_close : keeps close.
Proof. intros s Hs. apply wp_close; auto. Qed.

Lemma keeps_update_job f : keeps (update_job f).
Proof. intros s Hs. apply wp_update_job; auto. Qed.

Lemma keeps_utcnow : keeps utcnow.
Proof. intros s Hs. apply wp_utcnow; auto. Qed.

Lemma keeps_log msg : keeps (log msg).
Proof. intros s Hs. apply wp_log; auto. Qed.

Lemma keeps_get_job : keeps get_job.
Proof. intros s Hs. apply wp_get_job, Hs. Qed.

Lemma keeps_for_each {X A} (f : X -> A -> M A) :
  (forall x a, keeps (f x a)) -> forall xs a, keeps (for_each xs f a).
Proof.
  intros Hf xs. induction xs as [|x xs IH]; intro a; simpl.
  - apply keeps_ret.
  - apply keeps_bind; [apply Hf | intro a'; apply IH].
Qed.

Ltac keeps_step :=
  first [ apply keeps_bind; [| intro]
        | apply keeps_try; [| intro]
        | apply keeps_ret | apply keeps_raise | apply keeps_gets
        | apply keeps_commit | apply keeps_rollback | apply keeps_close
        | apply keeps_update_job | apply keeps_utcnow | apply keeps_log
        | apply keeps_get_job ].

Lemma keeps_fail_job env msg : keeps (fail_job env msg).
Proof. unfold fail_job. repeat keeps_step. Qed.

Lemma keeps_fatal_handler env e : keeps (fatal_handler env e).
Proof.
  unfold fatal_handler. apply keeps_bind; [apply keeps_log | intros _].
  apply keeps_bind; [apply keeps_get_job | intros [j|]].
  - apply keeps_try; [apply keeps_fail_job | intro; apply keeps_log].
  - apply keeps_ret.
Qed.

Lemma keeps_upsert env idx sku_v name_v description_v :
  keeps (upsert env idx sku_v name_v description_v).
Proof.
  unfold upsert. destruct (upsert_error env idx); [apply keeps_raise |].
  apply keeps_bind; [apply keeps_utcnow | intro t].
  intros s Hs. unfold wp.
  destruct (upsert_products sku_v name_v description_v t (db_products (working s)))
    as [ps u] eqn:E.
  eapply P_upsert; eauto.
Qed.

Lemma keeps_process_row env ir a : keeps (process_row env ir a).
Proof.
  destruct ir as [idx row]. unfold process_row.
  apply keeps_try; [| intro; apply keeps_ret].
  destruct (validate_row idx row); [apply keeps_ret |].
  apply keeps_bind; [apply keeps_upsert | intro updated].
  destruct (_ mod 50 =? 0); repeat keeps_step.
Qed.

Lemma keeps_import_rows env rows a : keeps (import_rows env rows a).
Proof.
  unfold import_rows. apply keeps_for_each. intros i a'.
  unfold process_chunk, chunk_rows. repeat keeps_step.
  apply keeps_for_each, keeps_process_row.
Qed.

Lemma keeps_dispatch_imported env p : keeps (dispatch_imported env p).
Proof.
  unfold dispatch_imported. intros s Hs.
  destruct (celery_available env); apply wp_modify; [auto |].
  destruct (trigger_webhooks_sync env _ _). auto.
Qed.

Lemma keeps_cleanup env : keeps (cleanup env).
Proof.
  unfold cleanup. apply keeps_bind; [apply keeps_gets | intros [|]]; [| apply keeps_ret].
  destruct (remove_error env); [apply keeps_log |].
  intros s Hs. apply wp_modify. auto.
Qed.

Lemma keeps_import_phase env job_id rows : keeps (import_phase env job_id rows).
Proof.
  unfold import_phase.
  apply keeps_bind; [apply keeps_update_job | intros _].
  apply keeps_bind; [apply keeps_commit | intros _].
  apply keeps_bind; [apply keeps_import_rows | intro a].
  apply keeps_bind; [repeat keeps_step | intros _].
  destruct (classify _ _) as [st msg].
  apply keeps_bind; [apply keeps_update_job | intros _].
  apply keeps_bind; [apply keeps_utcnow | intro t].
  apply keeps_bind; [apply keeps_update_job | intros _].
  apply keeps_bind; [apply keeps_commit | intros _].
  apply keeps_bind; [apply keeps_get_job | intro oj].
  apply keeps_bind; [| intros _; apply keeps_cleanup].
  destruct oj as [j|]; [| apply keeps_ret].
  destruct (_ || _); [apply keeps_dispatch_imported | apply keeps_ret].
Qed.

Lemma keeps_body env job_id fp : keeps (body env job_id fp).
Proof.
  unfold body. apply keeps_bind; [apply keeps_get_job | intros [j|]]; [| apply keeps_ret].
  apply keeps_bind; [apply keeps_update_job | intros _].
  apply keeps_bind; [apply keeps_commit | intros _].
  apply keeps_bind; [apply keeps_gets | intro present].
  destruct (negb present); [apply keeps_fail_job |].
  destruct (read_csv env); try apply keeps_fail_job.
  destruct (filter _ _); [apply keeps_import_phase | apply keeps_fail_job].
Qed.

(** The paths that never reach the rows phase. *)
Lemma keeps_body_early env job_id fp :
  ((forall s, P s -> file_present s = false) \/ early_failure env = true) ->
  keeps (body env job_id fp).
Proof.
  intros Hpre. unfold body.
  apply keeps_bind; [apply keeps_get_job | intros [j|]]; [| apply keeps_ret].
  apply keeps_bind; [apply keeps_update_job | intros _].
  apply keeps_bind; [apply keeps_commit | intros _].
  intros s Hs. apply wp_bind, wp_gets.
  destruct (negb (file_present s)) eqn:Hf; [apply keeps_fail_job, Hs |].
  destruct Hpre as [Hpre | Hpre].
  { rewrite (Hpre s Hs) in Hf. discriminate. }
  unfold early_failure in Hpre.
  destruct (read_csv env) as [| e | cols rows]; try (apply keeps_fail_job, Hs).
  cbn [filter existsb].
  destruct (existsb (String.eqb "sku") cols) eqn:E1;
  destruct (existsb (String.eqb "name") cols) eqn:E2; try discriminate;
  apply keeps_fail_job, Hs.
Qed.

Lemma keeps_run_sync env job_id fp :
  keeps (body env job_id fp) -> keeps (process_csv_import_sync env job_id fp).
Proof.
  intro Hb. unfold process_csv_import_sync.
  apply keeps_bind; [apply keeps_try; [exact Hb | apply keeps_fatal_handler] |].
  intros _. apply keeps_close.
Qed.

Lemma run_inv env d present job_id fp :
  keeps (body env job_id fp) -> P (init_st d 0 present) ->
  P (run env d present job_id fp).
Proof. intros Hb H0. unfold run. apply wp_snd_inv, keeps_run_sync; assumption. Qed.

End Frame.

Ltac frame_tac :=
  intros;
  unfold st_committing, st_with_ncommit, st_with_working, st_with_clock, st_with_logs,
    st_with_dispatched, st_with_file, db_with_job, db_with_products, init_st in *;
  cbn in *; try tauto.

Lemma upsert_products_extends sku_v name_v description_v t ps ps' u :
  upsert_products sku_v name_v description_v t ps = (ps', u) ->
  exists l, map sku ps' = (map sku ps ++ l)%list.
Proof.
  unfold upsert_products. intro E.
  destruct (find (sku_matches (lower sku_v)) ps); injection E as <- _.
  - exists []. rewrite app_nil_r. apply update_first_skus.
  - exists [sku_v]. rewrite map_app. reflexivity.
Qed.

(** ** Further properties of the code *)

(** An import never deletes a product nor changes the SKU of one: the SKUs
    of the committed product table after a run are those before it, in the
    same order, followed by the SKUs of the products it created. *)
Theorem run_extends_skus env d present job_id fp :
  exists l, map sku (db_products (committed (run env d present job_id fp))) =
            (map sku (db_products d) ++ l)%list.
Proof.
  set (P0 := map sku (db_products d)).
  assert (HU : forall sku_v name_v description_v t ps u s,
      upsert_products sku_v name_v description_v t (db_products (working s)) = (ps, u) ->
      (exists l, map sku (db_products (committed s)) = (P0 ++ l)%list) /\
      (exists l, map sku (db_products (working s)) = (P0 ++ l)%list) ->
      (exists l, map sku (db_products (committed
         (st_with_working (db_with_products ps (working s)) s))) = (P0 ++ l)%list) /\
      (exists l, map sku (db_products (working
         (st_with_working (db_with_products ps (working s)) s))) = (P0 ++ l)%list)).
  { intros sku_v name_v description_v t ps u s E [H1 [l Hl]]. split; [exact H1 |].
    destruct (upsert_products_extends _ _ _ _ _ _ _ E) as [l' Hl'].
    exists (l ++ l')%list. cbn. rewrite Hl', Hl, app_assoc. reflexivity. }
  enough (HP : (fun s => (exists l, map sku (db_products (committed s)) = (P0 ++ l)%list) /\
                         (exists l, map sku (db_products (working s)) = (P0 ++ l)%list))
                 (run env d present job_id fp)) by (apply HP).
  apply run_inv; try solve [frame_tac | exact HU].
  - apply keeps_body; solve [frame_tac | exact HU].
  - split; exists []; rewrite app_nil_r; reflexivity.
Qed.

(** A run never changes the webhook table. *)
Theorem run_keeps_webhooks env d present job_id fp :
  db_webhooks (committed (run env d present job_id fp)) = db_webhooks d.
Proof.
  enough (HP : (fun s => db_webhooks (committed s) = db_webhooks d /\
                         db_webhooks (working s) = db_webhooks d)
                 (run env d present job_id fp)) by (apply HP).
  apply run_inv; try solve [frame_tac].
  - apply keeps_body; solve [frame_tac].
Qed.

(** A run whose staged file is missing, cannot be decoded or parsed, or
    lacks the [sku] or [name] column leaves the product table as it was. *)
Theorem run_early_keeps_products env d present job_id fp :
  present = false \/ early_failure env = true ->
  db_products (committed (run env d present job_id fp)) = db_products d.
Proof.
  intro Hpre.
  enough (HP : (fun s => db_products (committed s) = db_products d /\
                         db_products (working s) = db_products d /\
                         file_present s = present)
                 (run env d present job_id fp)) by (apply HP).
  apply run_inv; try solve [frame_tac].
  apply keeps_body_early; try solve [frame_tac].
  destruct Hpre as [Hp | Hp]; [left | right; exact Hp].
  intros s (_ & _ & Hf). rewrite Hf. exact Hp.
Qed.

Lemma run_early_keeps_products_witness :
  let env := mkEnv all_commits_ok (CsvOk ["sku"; "title"] [csv_row "A" "x" ""])
               (fun _ => None) true (fun _ => None) None in
  let d := mkDB (Some new_job) [mkProduct "A" "Old" "" true None] [] in
  (false = false \/ early_failure env = true) /\
  db_products (committed (run env d false "job" "f.csv")) = db_products d /\
  (true = false \/ early_failure env = true) /\
  db_products (committed (run env d true "job" "f.csv")) = db_products d.
Proof.
  intros env d.
  assert (H1 : false = false \/ early_failure env = true) by (left; reflexivity).
  assert (H2 : true = false \/ early_failure env = true) by (right; vm_compute; reflexivity).
  split; [exact H1 | split; [apply run_early_keeps_products, H1 |]].
  split; [exact H2 | apply run_early_keeps_products, H2].
Defined.

(** *** Products *)

Lemma find_split {A} (f : A -> bool) l x :
  find f l = Some x ->
  exists pre post, l = (pre ++ x :: post)%list /\ Forall (fun y => f y = false) pre /\
                   f x = true.
Proof.
  induction l as [|y l IH]; simpl; [discriminate |].
  destruct (f y) eqn:E; intro H.
  - injection H as <-. exists [], l. auto.
  - destruct (IH H) as (pre & post & -> & Hpre & Hx).
    exists (y :: pre), post. auto.
Qed.

Lemma find_none_iff {A} (f : A -> bool) l :
  find f l = None <-> forall x, In x l -> f x = false.
Proof.
  induction l as [|y l IH]; simpl; [split; auto; contradiction |].
  destruct (f y) eqn:E.
  - split; [discriminate | intro H; rewrite H in E; [discriminate | left; reflexivity]].
  - rewrite IH. split; intros H x Hx; [destruct Hx as [<- | Hx]; auto | auto].
Qed.

Lemma find_snoc_hit {A} (f : A -> bool) l x :
  find f l = None -> f x = true -> find f (l ++ [x])%list = Some x.
Proof.
  intros H Hx. induction l as [|y l IH]; simpl in *; [rewrite Hx; reflexivity |].
  destruct (f y); [discriminate | apply IH, H].
Qed.

Lemma find_snoc_miss {A} (f : A -> bool) l x :
  find f l = None -> f x = false -> find f (l ++ [x])%list = None.
Proof.
  intros H Hx. induction l as [|y l IH]; simpl in *; [rewrite Hx; reflexivity |].
  destruct (f y); [discriminate | apply IH, H].
Qed.

(** Once a product is created, creating another whose stripped SKU folds
    to the same key is refused with 400 and leaves the table as it was,
    when SQLite's [lower] of the first SKU is its Python [lower] (as for an
    ASCII SKU). *)
Theorem create_product_then_conflict c1 c2 id1 id2 t1 t2 ps r :
  fst (create_product c1 id1 t1 ps) = RespOk r ->
  sql_lower (strip (pc_sku c1)) = lower (strip (pc_sku c1)) ->
  lower (strip (pc_sku c2)) = lower (strip (pc_sku c1)) ->
  create_product c2 id2 t2 (snd (create_product c1 id1 t1 ps)) =
    (RespErr 400 ("Product with SKU '" ++ pc_sku c2 ++ "' already exists"),
     snd (create_product c1 id1 t1 ps)).
Proof.
  intros Hok Hs Hk. unfold create_product in *.
  destruct (find (sku_key_is (lower (strip (pc_sku c1)))) ps) eqn:F; [discriminate |].
  destruct (existsb _ ps) eqn:E; [discriminate |].
  cbn [snd]. rewrite Hk, (find_snoc_hit _ _ _ F); [reflexivity |].
  unfold sku_key_is. cbn [p_sku]. rewrite Hs. apply String.eqb_refl.
Qed.

Lemma create_product_then_conflict_witness :
  let c1 := mkProductCreate "ABC-1" "Widget" None (Some true) in
  let c2 := mkProductCreate " abc-1 " "Other" (Some "x") (Some false) in
  fst (create_product c1 1 10 []) = RespOk (1, "ABC-1", "Widget") /\
  sql_lower (strip (pc_sku c1)) = lower (strip (pc_sku c1)) /\
  lower (strip (pc_sku c2)) = lower (strip (pc_sku c1)) /\
  create_product c2 2 11 (snd (create_product c1 1 10 [])) =
    (RespErr 400 ("Product with SKU '" ++ pc_sku c2 ++ "' already exists"),
     snd (create_product c1 1 10 [])).
Proof.
  intros c1 c2.
  assert (H1 : fst (create_product c1 1 10 []) = RespOk (1, "ABC-1", "Widget"))
    by (vm_compute; reflexivity).
  assert (H2 : sql_lower (strip (pc_sku c1)) = lower (strip (pc_sku c1)))
    by (vm_compute; reflexivity).
  assert (H3 : lower (strip (pc_sku c2)) = lower (strip (pc_sku c1)))
    by (vm_compute; reflexivity).
  split; [exact H1 | split; [exact H2 | split; [exact H3 |]]].
  apply (create_product_then_conflict c1 c2 1 2 10 11 [] _ H1 H2 H3).
Defined.

Lemma find_product_none product_id ps :
  ~ In product_id (map p_id ps) -> find_product product_id ps = None.
Proof.
  intro H. unfold find_product. apply find_none_iff. intros p Hp.
  apply Z.eqb_neq. intro E. apply H. rewrite <- E. apply in_map, Hp.
Qed.

Lemma find_product_some product_id ps p :
  find_product product_id ps = Some p -> p_id p = product_id.
Proof.
  unfold find_product. intro H. destruct (find_split _ _ _ H) as (_ & _ & _ & _ & E).
  apply Z.eqb_eq, E.
Qed.

Lemma strip_empty : strip "" = "".
Proof. reflexivity. Qed.

(** Python's [str] methods on non-ASCII text: U+00A0 and U+3000 are
    whitespace to [strip], [lower] maps [É] to [é] and [Σ] at the end of a
    word to [ς], and [len] counts characters, not bytes. *)
Lemma py_string_examples :
  strip " " = "" /\ strip " x　" = "x" /\
  lower "É-1" = "é-1" /\ lower "ΟΔΟΣ" = "οδος" /\ py_len "É-1" = 3%nat.
Proof. vm_compute. repeat split. Qed.

(** A product read back right after its creation has the stripped SKU and
    name, the stripped description ([""] when none was given), the given
    [active] flag ([true] when it was null or left out) and its creation
    time. *)
Theorem create_then_get product new_id now ps r :
  ~ In new_id (map p_id ps) ->
  fst (create_product product new_id now ps) = RespOk r ->
  get_product new_id (snd (create_product product new_id now ps)) =
    RespOk (mkProductRow new_id (strip (pc_sku product)) (strip (pc_name product))
              (Some (match pc_description product with
                     | Some d => strip d
                     | None => ""
                     end))
              (Some (match pc_active product with Some b => b | None => true end))
              (Some now) None).
Proof.
  intros Hfresh Hok. unfold create_product in *.
  destruct (find (sku_key_is (lower (strip (pc_sku product)))) ps); [discriminate |].
  destruct (existsb _ ps); [discriminate |].
  cbn [snd]. unfold get_product, find_product.
  rewrite (find_snoc_hit _ _ _ (find_product_none _ _ Hfresh)); [| apply Z.eqb_refl].
  do 2 f_equal. destruct (pc_description product) as [d|]; [| reflexivity].
  destruct (String.eqb_spec d ""); [subst; reflexivity | reflexivity].
Qed.

Lemma create_then_get_witness :
  let product := mkProductCreate " Ab-1 " " Lamp " None None in
  let ps := [mkProductRow 1 "X" "Y" None None None None] in
  ~ In 2 (map p_id ps) /\
  fst (create_product product 2 7 ps) = RespOk (2, "Ab-1", "Lamp") /\
  get_product 2 (snd (create_product product 2 7 ps)) =
    RespOk (mkProductRow 2 (strip (pc_sku product)) (strip (pc_name product))
              (Some "") (Some true) (Some 7) None).
Proof.
  intros product ps.
  assert (H1 : ~ In 2 (map p_id ps)) by (simpl; intros [H | []]; discriminate).
  assert (H2 : fst (create_product product 2 7 ps) = RespOk (2, "Ab-1", "Lamp"))
    by (vm_compute; reflexivity).
  split; [exact H1 | split; [exact H2 |]].
  exact (create_then_get product 2 7 ps _ H1 H2).
Defined.

(** For an id no product has, [get_product], [update_product] and
    [delete_product] answer 404 "Product not found" and leave the table as
    it was. *)
Theorem product_missing_404 product_id u now ps :
  ~ In product_id (map p_id ps) ->
  get_product product_id ps = RespErr 404 "Product not found" /\
  update_product product_id u now ps = (RespErr 404 "Product not found", ps) /\
  delete_product product_id ps = (RespErr 404 "Product not found", ps).
Proof.
  intro H. unfold get_product, update_product, delete_product.
  rewrite (find_product_none _ _ H). auto.
Qed.

Lemma product_missing_404_witness :
  let ps := [mkProductRow 1 "A" "B" None (Some true) None None] in
  ~ In 5 (map p_id ps) /\
  get_product 5 ps = RespErr 404 "Product not found" /\
  update_product 5 (mkProductUpdate (Some "Z") None None None) 3 ps =
    (RespErr 404 "Product not found", ps) /\
  delete_product 5 ps = (RespErr 404 "Product not found", ps).
Proof.
  intro ps. assert (H : ~ In 5 (map p_id ps)) by (simpl; intros [H | []]; discriminate).
  split; [exact H | apply product_missing_404, H].
Defined.

Lemma find_id_map (f : ProductRow -> ProductRow) j ps :
  (forall p, p_id (f p) = p_id p) ->
  find (fun p => p_id p =? j) (map f ps) = option_map f (find (fun p => p_id p =? j) ps).
Proof.
  intro Hf. induction ps as [|p ps IH]; simpl; [reflexivity |].
  rewrite Hf. destruct (p_id p =? j); [reflexivity | exact IH].
Qed.

(** After a successful update, the product read back is the row it had
    with the given fields replaced (stripped), the others kept and
    [updated_at] set; every other id reads back as before. *)
Theorem update_product_get product_id u now ps r :
  fst (update_product product_id u now ps) = RespOk r ->
  exists p, get_product product_id ps = RespOk p /\ r = product_id /\
    get_product product_id (snd (update_product product_id u now ps)) =
      RespOk (apply_product_update u now p) /\
    forall j, j <> product_id ->
      get_product j (snd (update_product product_id u now ps)) = get_product j ps.
Proof.
  unfold update_product. intro Hok.
  destruct (find_product product_id ps) as [p|] eqn:F; [| discriminate].
  destruct (update_conflict product_id u p ps); [discriminate |].
  destruct (negb _ && existsb _ ps); [discriminate |].
  injection Hok as <-. pose proof (find_product_some _ _ _ F) as Hid.
  exists p. unfold get_product, find_product in *.
  rewrite F. split; [reflexivity | split; [exact Hid | cbn [snd]]].
  rewrite !find_id_map by (intro q; destruct (p_id q =? product_id); reflexivity).
  rewrite F. cbn. rewrite Hid, Z.eqb_refl. split; [reflexivity |].
  intros j Hj.
  rewrite find_id_map by (intro q; destruct (p_id q =? product_id); reflexivity).
  destruct (find (fun q => p_id q =? j) ps) as [q|] eqn:G; [| reflexivity].
  cbn. replace (p_id q =? product_id) with false; [reflexivity |].
  destruct (find_split _ _ _ G) as (_ & _ & _ & _ & Hq). apply Z.eqb_eq in Hq.
  symmetry. apply Z.eqb_neq. congruence.
Qed.

Lemma update_product_get_witness :
  let ps := [mkProductRow 1 "A" "Lamp" (Some "old") (Some true) (Some 0) None;
             mkProductRow 2 "B" "Desk" None (Some false) (Some 1) None] in
  let u := mkProductUpdate None (Some " Big lamp ") None (Some false) in
  fst (update_product 1 u 9 ps) = RespOk 1 /\
  exists p, get_product 1 ps = RespOk p /\ 1 = 1 /\
    get_product 1 (snd (update_product 1 u 9 ps)) = RespOk (apply_product_update u 9 p) /\
    forall j, j <> 1 -> get_product j (snd (update_product 1 u 9 ps)) = get_product j ps.
Proof.
  intros ps u. assert (H : fst (update_product 1 u 9 ps) = RespOk 1) by (vm_compute; reflexivity).
  split; [exact H | exact (update_product_get 1 u 9 ps 1 H)].
Defined.

Lemma map_id_on {A} (f : A -> A) l :
  (forall x, In x l -> f x = x) -> map f l = l.
Proof.
  intro H. induction l as [|x l IH]; simpl; [reflexivity |].
  rewrite H by (left; reflexivity). f_equal. apply IH. intros y Hy. apply H. right. exact Hy.
Qed.

Lemma find_id_filter j product_id ps :
  j <> product_id ->
  find (fun p => p_id p =? j) (filter (fun p => negb (p_id p =? product_id)) ps) =
  find (fun p => p_id p =? j) ps.
Proof.
  intro Hj. induction ps as [|p ps IH]; simpl; [reflexivity |].
  destruct (Z.eqb_spec (p_id p) product_id) as [E | E]; simpl.
  - replace (p_id p =? j) with false; [exact IH |].
    symmetry. apply Z.eqb_neq. congruence.
  - destruct (p_id p =? j); [reflexivity | exact IH].
Qed.

(** After [delete_product], the deleted id answers 404 and every other id
    reads back as before. *)
Theorem delete_product_get product_id ps :
  get_product product_id (snd (delete_product product_id ps)) =
    RespErr 404 "Product not found" /\
  forall j, j <> product_id ->
    get_product j (snd (delete_product product_id ps)) = get_product j ps.
Proof.
  unfold delete_product. destruct (find_product product_id ps) eqn:F; cbn [snd].
  - split.
    + unfold get_product, find_product.
      replace (find _ (filter _ ps)) with (@None ProductRow); [reflexivity |].
      symmetry. apply find_none_iff. intros x Hx. apply filter_In in Hx as [_ Hx].
      apply negb_true_iff in Hx. exact Hx.
    + intros j Hj. unfold get_product, find_product. rewrite find_id_filter by exact Hj.
      reflexivity.
  - unfold get_product. rewrite F. auto.
Qed.

Lemma insert_created_perm p l : Permutation (insert_created p l) (p :: l).
Proof.
  induction l as [|q l IH]; simpl; [reflexivity |].
  destruct (created_geb q p); [| reflexivity].
  eapply perm_trans; [apply perm_skip, IH | apply perm_swap].
Qed.

Lemma sort_created_desc_perm l : Permutation (sort_created_desc l) l.
Proof.
  unfold sort_created_desc.
  assert (H : forall acc, Permutation (fold_left (fun acc p => insert_created p acc) l acc)
                                      (acc ++ l)%list).
  { induction l as [|p l IH]; intro acc; simpl; [rewrite app_nil_r; reflexivity |].
    eapply perm_trans; [apply IH |].
    eapply perm_trans; [apply Permutation_app_tail, insert_created_perm |].
    apply Permutation_middle. }
  apply H.
Qed.

(** After [bulk_delete_products], which reports how many products it
    deleted, every listing request is answered with no products, a total
    of 0 and 0 pages. *)
Theorem bulk_delete_then_list order page per_page search active ps :
  (forall l, Permutation (order l) l) -> 1 <= page -> 1 <= per_page <= 100 ->
  fst (bulk_delete_products ps) =
    RespOk (Z.of_nat (length ps),
            "Deleted " ++ str_int (Z.of_nat (length ps)) ++ " products") /\
  get_products order page per_page search active (snd (bulk_delete_products ps)) =
    RespOk (mkProductPage [] 0 page per_page 0).
Proof.
  intros Hperm Hp Hpp. split; [reflexivity |].
  unfold get_products, bulk_delete_products. cbn [snd filter length Z.of_nat].
  replace ((page <? 1) || (per_page <? 1) || (100 <? per_page)) with false
    by (symmetry; repeat rewrite orb_false_iff; repeat split; apply Z.ltb_ge; lia).
  pose proof (Permutation_sym (Hperm [])) as H0. apply Permutation_nil in H0. rewrite H0.
  unfold paginate. rewrite skipn_nil, firstn_nil. reflexivity.
Qed.

Lemma bulk_delete_then_list_witness :
  let ps := [mkProductRow 1 "A" "B" None (Some true) (Some 3) None] in
  (forall l, Permutation (sort_created_desc l) l) /\ 1 <= 2 /\ 1 <= 20 <= 100 /\
  fst (bulk_delete_products ps) = RespOk (1, "Deleted 1 products") /\
  get_products sort_created_desc 2 20 (Some "a") None (snd (bulk_delete_products ps)) =
    RespOk (mkProductPage [] 0 2 20 0).
Proof.
  intro ps. assert (Hs : forall l, Permutation (sort_created_desc l) l)
    by exact sort_created_desc_perm.
  assert (H1 : 1 <= 2) by lia. assert (H2 : 1 <= 20 <= 100) by lia.
  destruct (bulk_delete_then_list sort_created_desc 2 20 (Some "a") None ps Hs H1 H2)
    as [E1 E2].
  split; [exact Hs | split; [exact H1 | split; [exact H2 | split; [exact E1 | exact E2]]]].
Defined.

(** *** Listing *)

Lemma total_pages_bounds t p :
  0 < p -> 0 <= t ->
  (t = 0 -> total_pages t p = 0) /\
  (0 < t -> (total_pages t p - 1) * p < t <= total_pages t p * p).
Proof.
  intros Hp Ht. unfold total_pages. split.
  - intros ->. reflexivity.
  - intro Hpos. replace (t >? 0) with true by (symmetry; apply Z.gtb_lt; lia).
    pose proof (Z.div_mod (t + p - 1) p ltac:(lia)) as Hd.
    pose proof (Z.mod_pos_bound (t + p - 1) p Hp) as Hm.
    split; nia.
Qed.

Lemma get_products_ok order page per_page search active ps pg :
  get_products order page per_page search active ps = RespOk pg ->
  1 <= page /\ 1 <= per_page <= 100 /\
  let rows := filter (fun p => search_filter search p && active_filter active p) ps in
  pg = mkProductPage (paginate page per_page (order rows)) (Z.of_nat (length rows))
         page per_page (total_pages (Z.of_nat (length rows)) per_page).
Proof.
  unfold get_products.
  destruct (page <? 1) eqn:E1; [discriminate |].
  destruct (per_page <? 1) eqn:E2; [discriminate |].
  destruct (100 <? per_page) eqn:E3; [discriminate |].
  cbn. intro H. injection H as <-.
  apply Z.ltb_ge in E1, E2, E3. repeat split; lia.
Qed.

(** A page of a listing holds at most [per_page] products, and
    [total_pages] is the least number of pages of [per_page] products that
    hold [total] products (0 when there are none). *)
Theorem get_products_pages order page per_page search active ps pg :
  get_products order page per_page search active ps = RespOk pg ->
  (length (pg_products pg) <= Z.to_nat per_page)%nat /\
  (pg_total pg = 0 -> pg_total_pages pg = 0) /\
  (0 < pg_total pg ->
   (pg_total_pages pg - 1) * per_page < pg_total pg <= pg_total_pages pg * per_page).
Proof.
  intro H. apply get_products_ok in H as (Hp & Hpp & ->). cbn.
  split; [unfold paginate; apply firstn_le_length |].
  apply total_pages_bounds; lia.
Qed.

Lemma get_products_pages_witness :
  let ps := map (fun i => mkProductRow (Z.of_nat i) (str_int (Z.of_nat i)) "P" None
                            (Some true) (Some (Z.of_nat i)) None) (seq 0 45) in
  exists pg, get_products sort_created_desc 3 20 None None ps = RespOk pg /\
    (length (pg_products pg) <= Z.to_nat 20)%nat /\
    (pg_total pg = 0 -> pg_total_pages pg = 0) /\
    (0 < pg_total pg ->
     (pg_total_pages pg - 1) * 20 < pg_total pg <= pg_total_pages pg * 20).
Proof.
  intro ps. eexists. assert (H : get_products sort_created_desc 3 20 None None ps =
                                 RespOk (mkProductPage
                                   (paginate 3 20 (sort_created_desc ps)) 45 3 20 3))
    by (vm_compute; reflexivity).
  split; [exact H | exact (get_products_pages _ _ _ _ _ _ _ H)].
Defined.

Lemma pages_concat {A} (l : list A) per : forall c m,
  (length l <= (m + c) * per)%nat ->
  flat_map (fun k => firstn per (skipn ((k - 1) * per) l)) (seq (S m) c) =
  skipn (m * per) l.
Proof.
  induction c as [|c IH]; intros m H; simpl.
  - symmetry. apply skipn_all2. lia.
  - rewrite Nat.sub_0_r. rewrite (IH (S m)) by lia.
    replace (S m * per)%nat with (per + m * per)%nat by lia.
    rewrite <- skipn_skipn. apply firstn_skipn.
Qed.

(** With an order that lists each row once, pages 1 to [total_pages] of a
    listing, put together, list every product that matches the filters
    exactly once. *)
Theorem get_products_partition order per_page search active ps :
  (forall l, Permutation (order l) l) -> 1 <= per_page <= 100 ->
  let rows := filter (fun p => search_filter search p && active_filter active p) ps in
  Permutation
    (flat_map (fun k => listed order per_page search active ps (Z.of_nat k))
       (seq 1 (Z.to_nat (total_pages (Z.of_nat (length rows)) per_page))))
    rows.
Proof.
  intros Hperm Hpp rows.
  set (N := Z.to_nat (total_pages (Z.of_nat (length rows)) per_page)).
  assert (HN : (length (order rows) <= (0 + N) * Z.to_nat per_page)%nat).
  { rewrite (Permutation_length (Hperm rows)).
    destruct (total_pages_bounds (Z.of_nat (length rows)) per_page ltac:(lia) ltac:(lia))
      as [H0 H1].
    destruct (length rows) as [|n] eqn:En; [simpl; lia |].
    specialize (H1 ltac:(lia)). unfold N. lia. }
  rewrite flat_map_concat_map.
  rewrite (map_ext_in _
             (fun k => firstn (Z.to_nat per_page)
                         (skipn ((k - 1) * Z.to_nat per_page) (order rows)))).
  - rewrite <- flat_map_concat_map, (pages_concat _ _ N 0 HN). simpl. apply Hperm.
  - intros k Hk. apply in_seq in Hk. unfold listed, get_products.
    replace ((Z.of_nat k <? 1) || (per_page <? 1) || (100 <? per_page)) with false
      by (symmetry; repeat rewrite orb_false_iff; repeat split; apply Z.ltb_ge; lia).
    cbn [pg_products]. unfold paginate. fold rows. do 2 f_equal.
    rewrite Z2Nat.inj_mul by lia. f_equal. lia.
Qed.

Lemma get_products_partition_witness :
  (forall l, Permutation (sort_created_desc l) l) /\ 1 <= 7 <= 100 /\
  let ps := map (fun i => mkProductRow (Z.of_nat i) (str_int (Z.of_nat i)) "P" None
                            (Some (Nat.even i)) (Some (Z.of_nat (i mod 4))) None)
                (seq 0 30) in
  let rows := filter (fun p => search_filter None p && active_filter (Some "true") p) ps in
  Permutation
    (flat_map (fun k => listed sort_created_desc 7 None (Some "true") ps (Z.of_nat k))
       (seq 1 (Z.to_nat (total_pages (Z.of_nat (length rows)) 7))))
    rows.
Proof.
  assert (Hs : forall l, Permutation (sort_created_desc l) l) by exact sort_created_desc_perm.
  assert (H : 1 <= 7 <= 100) by lia.
  split; [exact Hs | split; [exact H |]].
  exact (get_products_partition sort_created_desc 7 None (Some "true") _ Hs H).
Defined.

(** [get_products] refuses (422) exactly the requests with [page < 1] or
    [per_page] outside 1..100; a page past the last one is answered with no
    products. *)
Theorem get_products_bounds order page per_page search active ps :
  (forall l, Permutation (order l) l) ->
  (get_products order page per_page search active ps = RespInvalid <->
   page < 1 \/ per_page < 1 \/ 100 < per_page) /\
  (forall pg, get_products order page per_page search active ps = RespOk pg ->
   pg_total_pages pg < page -> pg_products pg = []).
Proof.
  intro Hperm. split.
  - unfold get_products.
    destruct (page <? 1) eqn:E1; [cbn; split; [intros _; left; apply Z.ltb_lt, E1 | auto] |].
    destruct (per_page <? 1) eqn:E2;
      [cbn; split; [intros _; right; left; apply Z.ltb_lt, E2 | auto] |].
    destruct (100 <? per_page) eqn:E3;
      [cbn; split; [intros _; right; right; apply Z.ltb_lt, E3 | auto] |].
    cbn. apply Z.ltb_ge in E1, E2, E3. split; [discriminate | lia].
  - intros pg H Hbeyond. apply get_products_ok in H as (Hp & Hpp & ->).
    cbn in *. unfold paginate.
    set (rows := filter _ ps) in *.
    destruct (total_pages_bounds (Z.of_nat (length rows)) per_page ltac:(lia) ltac:(lia))
      as [H0 H1].
    rewrite skipn_all2; [apply firstn_nil |].
    rewrite (Permutation_length (Hperm rows)).
    destruct (length rows) as [|n] eqn:En; [lia |].
    specialize (H1 ltac:(lia)).
    rewrite Z2Nat.inj_mul by lia.
    apply Nat2Z.inj_le. rewrite Nat2Z.inj_mul, !Z2Nat.id by lia. nia.
Qed.

Lemma get_products_bounds_witness :
  (forall l, Permutation (sort_created_desc l) l) /\
  ((get_products sort_created_desc 1 101 None None [] = RespInvalid <->
    1 < 1 \/ 101 < 1 \/ 100 < 101) /\
   (forall pg, get_products sort_created_desc 1 101 None None [] = RespOk pg ->
    pg_total_pages pg < 1 -> pg_products pg = [])).
Proof.
  assert (Hs : forall l, Permutation (sort_created_desc l) l) by exact sort_created_desc_perm.
  split; [exact Hs | apply get_products_bounds, Hs].
Defined.

(** An [active] filter other than [""], ["all"] and ["true"] (for instance
    ["false"], ["TRUE"] or ["yes"]) lists the inactive products: the total
    counts exactly the rows whose flag is false, never a NULL one. *)
Theorem active_filter_inactive order page per_page a ps pg :
  a <> "" -> a <> "all" -> a <> "true" ->
  get_products order page per_page None (Some a) ps = RespOk pg ->
  pg_total pg = Z.of_nat (length (filter (fun p =>
    match p_active p with Some false => true | _ => false end) ps)).
Proof.
  intros H1 H2 H3 H. apply get_products_ok in H as (_ & _ & ->). cbn.
  do 2 f_equal. apply filter_ext. intro p. unfold active_filter.
  apply String.eqb_neq in H1, H2, H3. rewrite H1, H2, H3. cbn.
  destruct (p_active p) as [[|]|]; reflexivity.
Qed.

Lemma active_filter_inactive_witness :
  let ps := [mkProductRow 1 "A" "a" None (Some true) None None;
             mkProductRow 2 "B" "b" None (Some false) None None;
             mkProductRow 3 "C" "c" None None None None] in
  "TRUE" <> "" /\ "TRUE" <> "all" /\ "TRUE" <> "true" /\
  exists pg, get_products sort_created_desc 1 20 None (Some "TRUE") ps = RespOk pg /\
    pg_total pg = Z.of_nat (length (filter (fun p =>
      match p_active p with Some false => true | _ => false end) ps)).
Proof.
  intro ps.
  assert (H1 : "TRUE" <> "") by discriminate.
  assert (H2 : "TRUE" <> "all") by discriminate.
  assert (H3 : "TRUE" <> "true") by discriminate.
  split; [exact H1 | split; [exact H2 | split; [exact H3 |]]].
  eexists. assert (H : get_products sort_created_desc 1 20 None (Some "TRUE") ps =
    RespOk (mkProductPage [mkProductRow 2 "B" "b" None (Some false) None None] 1 1 20 1))
    by (vm_compute; reflexivity).
  split; [exact H | exact (active_filter_inactive _ _ _ _ _ _ H1 H2 H3 H)].
Defined.

(** *** Search *)

Lemma list_ascii_of_string_app a b :
  list_ascii_of_string (a ++ b) = (list_ascii_of_string a ++ list_ascii_of_string b)%list.
Proof. induction a as [|c a IH]; simpl; [reflexivity | f_equal; exact IH]. Qed.

Lemma string_of_list_ascii_app l l' :
  string_of_list_ascii (l ++ l')%list = string_of_list_ascii l ++ string_of_list_ascii l'.
Proof. induction l as [|c l IH]; simpl; [reflexivity | f_equal; exact IH]. Qed.

Lemma list_ascii_of_string_inj a b :
  list_ascii_of_string a = list_ascii_of_string b -> a = b.
Proof.
  intro H. rewrite <- (string_of_list_ascii_of_string a), <- (string_of_list_ascii_of_string b).
  f_equal. exact H.
Qed.

Lemma contains_list sub s :
  contains sub s <->
  exists pre post, list_ascii_of_string s =
    (pre ++ list_ascii_of_string sub ++ post)%list.
Proof.
  split.
  - intros (pre & post & ->). exists (list_ascii_of_string pre), (list_ascii_of_string post).
    rewrite !list_ascii_of_string_app. reflexivity.
  - intros (pre & post & H). exists (string_of_list_ascii pre), (string_of_list_ascii post).
    apply list_ascii_of_string_inj.
    rewrite H, !list_ascii_of_string_app, !list_ascii_of_string_of_list_ascii. reflexivity.
Qed.

Lemma sql_lower_list s :
  list_ascii_of_string (sql_lower s) = map lower_char (list_ascii_of_string s).
Proof. unfold sql_lower. apply list_ascii_of_string_of_list_ascii. Qed.

Lemma like_star_spec k s :
  like_star k s = true <-> exists pre post, s = (pre ++ post)%list /\ k post = true.
Proof.
  induction s as [|c s IH]; simpl.
  - rewrite orb_false_r. split.
    + intro H. exists [], []. auto.
    + intros (pre & post & E & H). destruct pre; [| discriminate].
      destruct post; [exact H | discriminate].
  - rewrite orb_true_iff, IH. split.
    + intros [H | (pre & post & -> & H)].
      * exists [], (c :: s). auto.
      * exists (c :: pre), post. auto.
    + intros (pre & post & E & H). destruct pre as [|c' pre].
      * left. simpl in E. rewrite E. exact H.
      * right. injection E as <- E. exists pre, post. auto.
Qed.

(** A pattern prefix without wildcards matches itself. *)
Lemma like_literal w pat s :
  (forall c, In c w -> c <> "%"%char /\ c <> "_"%char) ->
  like_list (w ++ pat) s = true <->
  exists s', s = (w ++ s')%list /\ like_list pat s' = true.
Proof.
  revert s. induction w as [|c w IH]; intros s Hw; simpl.
  - split; [intro H; exists s; auto | intros (s' & -> & H); exact H].
  - destruct (Hw c (or_introl eq_refl)) as [Hc1 Hc2].
    replace (Ascii.eqb c "%") with false by (symmetry; apply Ascii.eqb_neq, Hc1).
    replace (Ascii.eqb c "_") with false by (symmetry; apply Ascii.eqb_neq, Hc2).
    assert (Hw' : forall c', In c' w -> c' <> "%"%char /\ c' <> "_"%char)
      by (intros c' H; apply Hw; right; exact H).
    destruct s as [|d s].
    + split; [discriminate | intros (s' & E & _); discriminate].
    + rewrite andb_true_iff, IH by exact Hw'. split.
      * intros [Hcd (s' & -> & H)]. apply Ascii.eqb_eq in Hcd. subst.
        exists s'. auto.
      * intros (s' & E & H). injection E as <- ->. split; [apply Ascii.eqb_refl |].
        exists s'. auto.
Qed.

Lemma like_substring w s :
  (forall c, In c w -> c <> "%"%char /\ c <> "_"%char) ->
  like_list ("%"%char :: w ++ ["%"%char])%list s = true <->
  exists pre post, s = (pre ++ w ++ post)%list.
Proof.
  intro Hw. simpl. rewrite like_star_spec. split.
  - intros (pre & post & -> & H). apply like_literal in H as (s' & -> & _); [| exact Hw].
    exists pre, s'. reflexivity.
  - intros (pre & post & ->). exists pre, (w ++ post)%list. split; [reflexivity |].
    apply like_literal; [exact Hw |]. exists post. split; [reflexivity |].
    simpl. apply like_star_spec. exists post, []. rewrite app_nil_r. auto.
Qed.

Lemma lower_char_wild c :
  (lower_char c = "%"%char -> c = "%"%char) /\ (lower_char c = "_"%char -> c = "_"%char).
Proof.
  destruct c as [[] [] [] [] [] [] [] []]; vm_compute; split; intro H;
    solve [reflexivity | discriminate H].
Qed.

Lemma ilike_substring x w :
  ~ In "%"%char (list_ascii_of_string w) -> ~ In "_"%char (list_ascii_of_string w) ->
  ilike x ("%" ++ w ++ "%") = true <-> contains (sql_lower w) (sql_lower x).
Proof.
  intros H1 H2. unfold ilike. rewrite contains_list, !sql_lower_list.
  rewrite !list_ascii_of_string_app, !map_app. cbn [list_ascii_of_string map app].
  replace (lower_char "%") with "%"%char by reflexivity.
  apply like_substring.
  intros c Hc. apply in_map_iff in Hc as [c0 [<- Hc0]].
  destruct (lower_char_wild c0) as [W1 W2].
  split; intro E; [apply H1; rewrite <- (W1 E) | apply H2; rewrite <- (W2 E)]; exact Hc0.
Qed.

(** A non-empty search term without [%] or [_] selects exactly the
    products whose SKU, name or (non-NULL) description contains it, ASCII
    case ignored,
    as SQLite's [lower] folds it. *)
Theorem search_filter_substring s p :
  s <> "" -> ~ In "%"%char (list_ascii_of_string s) -> ~ In "_"%char (list_ascii_of_string s) ->
  search_filter (Some s) p = true <->
  contains (sql_lower s) (sql_lower (p_sku p)) \/ contains (sql_lower s) (sql_lower (p_name p)) \/
  exists d, p_description p = Some d /\ contains (sql_lower s) (sql_lower d).
Proof.
  intros Hne H1 H2. unfold search_filter.
  apply String.eqb_neq in Hne. rewrite Hne.
  rewrite !orb_true_iff, !ilike_substring by assumption.
  destruct (p_description p) as [d|].
  - rewrite ilike_substring by assumption. split.
    + intros [[A | B] | C]; auto. right. right. exists d. auto.
    + intros [A | [B | (d' & E & C)]]; auto. injection E as <-. auto.
  - split.
    + intros [[A | B] | C]; [auto | auto | discriminate].
    + intros [A | [B | (d' & E & C)]]; [auto | auto | discriminate].
Qed.

Lemma search_filter_substring_witness :
  let p := mkProductRow 1 "LMP-7" "Desk Lamp" (Some "brass") (Some true) None None in
  "lamp" <> "" /\ ~ In "%"%char (list_ascii_of_string "lamp") /\
  ~ In "_"%char (list_ascii_of_string "lamp") /\
  (search_filter (Some "lamp") p = true <->
   contains (sql_lower "lamp") (sql_lower (p_sku p)) \/ contains (sql_lower "lamp") (sql_lower (p_name p)) \/
   exists d, p_description p = Some d /\ contains (sql_lower "lamp") (sql_lower d)).
Proof.
  intro p.
  assert (H0 : "lamp" <> "") by discriminate.
  assert (H1 : ~ In "%"%char (list_ascii_of_string "lamp"))
    by (simpl; intuition discriminate).
  assert (H2 : ~ In "_"%char (list_ascii_of_string "lamp"))
    by (simpl; intuition discriminate).
  split; [exact H0 | split; [exact H1 | split; [exact H2 |]]].
  exact (search_filter_substring "lamp" p H0 H1 H2).
Defined.

(** *** Webhooks *)

Lemma attempts_eq env ws ev :
  attempts env ws ev =
  map (fun w => (url w, post_result env (url w)))
      (filter (fun w => String.eqb (event_type w) ev && enabled w) (map webhook_of ws)).
Proof.
  unfold attempts, trigger_webhooks_sync.
  destruct (filter _ (map webhook_of ws)) as [|w l]; [reflexivity |].
  rewrite deliver_all_eq. reflexivity.
Qed.

(** A webhook created from a body giving only its [url] receives the next
    [product.imported] delivery, after the webhooks that were there
    before. *)
Theorem create_webhook_default_delivered env u new_id now ws wc :
  validate_webhook_create (Given u) Absent Absent = Some wc ->
  attempts env (snd (create_webhook wc new_id now ws)) "product.imported" =
    (attempts env ws "product.imported" ++ [(u, post_result env u)])%list.
Proof.
  cbn. intro H. injection H as <-. rewrite !attempts_eq. cbn [snd create_webhook].
  rewrite map_app, filter_app, map_app. reflexivity.
Qed.

Lemma create_webhook_default_delivered_witness :
  let env := csv_env all_commits_ok [] in
  let ws := [mkWebhookRow 1 "http://a.example/hook" "product.imported" (Some true) (Some 0)] in
  validate_webhook_create (Given "http://b.example/hook") Absent Absent =
    Some (mkWebhookCreate "http://b.example/hook" "product.imported" (Some true)) /\
  attempts env (snd (create_webhook
      (mkWebhookCreate "http://b.example/hook" "product.imported" (Some true)) 2 5 ws))
    "product.imported" =
    (attempts env ws "product.imported" ++
     [("http://b.example/hook", post_result env "http://b.example/hook")])%list.
Proof.
  intros env ws.
  assert (H : validate_webhook_create (Given "http://b.example/hook") Absent Absent =
    Some (mkWebhookCreate "http://b.example/hook" "product.imported" (Some true)))
    by reflexivity.
  split; [exact H | exact (create_webhook_default_delivered env _ 2 5 ws _ H)].
Defined.

(** A webhook created with ["enabled": null] is stored with the flag
    [true] of the column default, and receives every later event of its
    type, after the webhooks that were there before. *)
Theorem create_webhook_null_enabled env url_f event_type_f new_id now ws wc :
  validate_webhook_create url_f event_type_f Null = Some wc ->
  snd (create_webhook wc new_id now ws) =
    (ws ++ [mkWebhookRow new_id (wc_url wc) (wc_event_type wc) (Some true) (Some now)])%list /\
  forall ev, attempts env (snd (create_webhook wc new_id now ws)) ev =
    (attempts env ws ev ++
     if String.eqb (wc_event_type wc) ev then [(wc_url wc, post_result env (wc_url wc))]
     else [])%list.
Proof.
  unfold validate_webhook_create, option_bind. intro H.
  destruct (req url_f) as [u|]; [| discriminate].
  destruct (req_default "product.imported" event_type_f) as [e|]; [| discriminate].
  injection H as <-. split; [reflexivity |]. intro ev.
  rewrite !attempts_eq. cbn [snd create_webhook].
  rewrite map_app, filter_app, map_app. cbn.
  destruct (String.eqb e ev); cbn; [reflexivity | rewrite app_nil_r; reflexivity].
Qed.

Lemma create_webhook_null_enabled_witness :
  let env := csv_env all_commits_ok [] in
  validate_webhook_create (Given "http://c.example/") Absent Null =
    Some (mkWebhookCreate "http://c.example/" "product.imported" None) /\
  snd (create_webhook (mkWebhookCreate "http://c.example/" "product.imported" None) 1 0 []) =
    [mkWebhookRow 1 "http://c.example/" "product.imported" (Some true) (Some 0)] /\
  forall ev, attempts env (snd (create_webhook
      (mkWebhookCreate "http://c.example/" "product.imported" None) 1 0 [])) ev =
    (attempts env [] ev ++
     if String.eqb "product.imported" ev
     then [("http://c.example/", post_result env "http://c.example/")] else [])%list.
Proof.
  intro env.
  assert (H : validate_webhook_create (Given "http://c.example/") Absent Null =
    Some (mkWebhookCreate "http://c.example/" "product.imported" None)) by reflexivity.
  split; [exact H | exact (create_webhook_null_enabled env _ _ 1 0 [] _ H)].
Defined.

(** Disabling a webhook ([{"enabled": false}]) has the same effect on
    deliveries as deleting it. *)
Theorem disable_webhook_as_delete env webhook_id ws ev :
  attempts env (snd (update_webhook webhook_id (mkWebhookUpdate None None (Some false)) ws)) ev =
  attempts env (snd (delete_webhook webhook_id ws)) ev.
Proof.
  unfold update_webhook, delete_webhook.
  destruct (find_webhook webhook_id ws); [| reflexivity]. cbn [snd].
  rewrite !attempts_eq. f_equal.
  induction ws as [|x ws IH]; [reflexivity |]. cbn [map filter].
  destruct (w_id x =? webhook_id); cbn [negb filter map].
  - unfold webhook_of at 1. cbn. rewrite andb_false_r. exact IH.
  - cbn [filter]. destruct (_ && _); [f_equal |]; exact IH.
Qed.

(** A webhook update with an empty body changes nothing. *)
Theorem update_webhook_empty webhook_id ws :
  snd (update_webhook webhook_id (mkWebhookUpdate None None None) ws) = ws.
Proof.
  unfold update_webhook. destruct (find_webhook webhook_id ws); [| reflexivity].
  cbn [snd]. apply map_id_on. intros x _.
  destruct (w_id x =? webhook_id); [destruct x; reflexivity | reflexivity].
Qed.

(** For an id no webhook has, [get_webhook], [update_webhook],
    [delete_webhook] and [test_webhook] answer 404 "Webhook not found" and
    leave the table as it was (no test POST is made). *)
Theorem webhook_missing_404 post webhook_id u ws :
  ~ In webhook_id (map w_id ws) ->
  get_webhook webhook_id ws = RespErr 404 "Webhook not found" /\
  update_webhook webhook_id u ws = (RespErr 404 "Webhook not found", ws) /\
  delete_webhook webhook_id ws = (RespErr 404 "Webhook not found", ws) /\
  test_webhook post webhook_id ws = RespErr 404 "Webhook not found".
Proof.
  intro H.
  assert (F : find_webhook webhook_id ws = None).
  { unfold find_webhook. apply find_none_iff. intros w Hw.
    apply Z.eqb_neq. intro E. apply H. rewrite <- E. apply in_map, Hw. }
  unfold get_webhook, update_webhook, delete_webhook, test_webhook. rewrite F. auto.
Qed.

Lemma webhook_missing_404_witness :
  let ws := [mkWebhookRow 1 "http://a.example/" "product.imported" (Some true) None] in
  ~ In 2 (map w_id ws) /\
  get_webhook 2 ws = RespErr 404 "Webhook not found" /\
  update_webhook 2 (mkWebhookUpdate None None (Some false)) ws =
    (RespErr 404 "Webhook not found", ws) /\
  delete_webhook 2 ws = (RespErr 404 "Webhook not found", ws) /\
  test_webhook (fun _ => None) 2 ws = RespErr 404 "Webhook not found".
Proof.
  intro ws. assert (H : ~ In 2 (map w_id ws)) by (simpl; intros [H | []]; discriminate).
  split; [exact H | apply webhook_missing_404, H].
Defined.

(** *** Uploads *)

Lemma string_length_app a b : String.length (a ++ b) = (String.length a + String.length b)%nat.
Proof. induction a as [|c a IH]; simpl; [reflexivity | rewrite IH; reflexivity]. Qed.

Lemma substring_full s : substring 0 (String.length s) s = s.
Proof. induction s as [|c s IH]; simpl; [reflexivity | rewrite IH; reflexivity]. Qed.

Lemma substring_app_r a b m : substring (String.length a) m (a ++ b) = substring 0 m b.
Proof. induction a as [|c a IH]; simpl; [reflexivity | exact IH]. Qed.

Lemma substring_split s k :
  (k <= String.length s)%nat ->
  s = substring 0 k s ++ substring k (String.length s - k) s.
Proof.
  revert k. induction s as [|c s IH]; intros k Hk; simpl in *.
  - destruct k; reflexivity.
  - destruct k as [|k].
    + simpl. rewrite substring_full. reflexivity.
    + simpl. f_equal. apply IH. lia.
Qed.

Lemma endswith_spec suffix s : endswith suffix s = true <-> ends_with suffix s.
Proof.
  unfold endswith, ends_with. rewrite andb_true_iff, Nat.leb_le, String.eqb_eq. split.
  - intros [Hle Hs]. exists (substring 0 (String.length s - String.length suffix) s).
    rewrite (substring_split s (String.length s - String.length suffix)) at 1 by lia.
    f_equal. replace (String.length s - (String.length s - String.length suffix))%nat
      with (String.length suffix) by lia. exact Hs.
  - intros [pre ->]. rewrite string_length_app. split; [lia |].
    replace (String.length pre + String.length suffix - String.length suffix)%nat
      with (String.length pre) by lia.
    rewrite substring_app_r, substring_full. reflexivity.
Qed.

(** [import_products] refuses with 400, creating no job, exactly the
    uploads whose name does not end in [.csv] (case matters:
    [data.CSV] is refused); an accepted upload gets a fresh [uuid4] id, a
    pending job and the path [temp_uploads/<id>.csv]. *)
Theorem import_products_spec filename r :
  (~ ends_with ".csv" filename ->
   import_products filename r = (RespErr 400 "Only CSV files are allowed", None)) /\
  (ends_with ".csv" filename ->
   import_products filename r =
     (RespOk (uuid4 r, "processing"),
      Some (uuid4 r, new_job, "temp_uploads/" ++ uuid4 r ++ ".csv"))).
Proof.
  unfold import_products. split; intro H.
  - destruct (endswith ".csv" filename) eqn:E; [| reflexivity].
    exfalso. apply H, endswith_spec, E.
  - apply endswith_spec in H. rewrite H. reflexivity.
Qed.

Lemma length_hex_fixed k n : length (hex_fixed k n) = k.
Proof.
  revert n. induction k as [|k IH]; intro n; simpl; [reflexivity |].
  rewrite length_app, IH. simpl. lia.
Qed.

Definition hex_chars : list ascii := list_ascii_of_string "0123456789abcdef".

Lemma hex_digit_in v : 0 <= v < 16 -> In (hex_digit v) hex_chars.
Proof.
  intro H.
  assert (v = 0 \/ v = 1 \/ v = 2 \/ v = 3 \/ v = 4 \/ v = 5 \/ v = 6 \/ v = 7 \/
          v = 8 \/ v = 9 \/ v = 10 \/ v = 11 \/ v = 12 \/ v = 13 \/ v = 14 \/ v = 15)
    as Hv by lia.
  repeat destruct Hv as [-> | Hv]; try (subst v); vm_compute; tauto.
Qed.

Lemma hex_fixed_hex k n : Forall (fun c => In c hex_chars) (hex_fixed k n).
Proof.
  revert n. induction k as [|k IH]; intro n; simpl; [constructor |].
  apply Forall_app. split; [apply IH |].
  constructor; [apply hex_digit_in, Z.mod_pos_bound; lia | constructor].
Qed.

Lemma nth_error_hex_fixed k n j :
  (j < k)%nat ->
  nth_error (hex_fixed k n) j = Some (hex_digit ((n / 16 ^ Z.of_nat (k - 1 - j)) mod 16)).
Proof.
  revert n j. induction k as [|k IH]; intros n j Hj; [lia |]. simpl hex_fixed.
  destruct (Nat.lt_ge_cases j k) as [Hlt | Hge].
  - rewrite nth_error_app1 by (rewrite length_hex_fixed; exact Hlt).
    rewrite IH by exact Hlt. do 3 f_equal.
    rewrite Z.div_div by (try apply Z.pow_pos_nonneg; lia).
    f_equal. rewrite <- Z.pow_succ_r by lia. f_equal. lia.
  - assert (j = k) as -> by lia.
    rewrite nth_error_app2 by (rewrite length_hex_fixed; lia).
    rewrite length_hex_fixed, Nat.sub_diag. simpl.
    replace (k - 0 - k)%nat with O by lia. rewrite Z.pow_0_r, Z.div_1_r. reflexivity.
Qed.

Lemma div16_mod i k : 0 <= k -> (i / 16 ^ k) mod 16 = Z.land (Z.shiftr i (4 * k)) 15.
Proof.
  intro Hk. rewrite Z.shiftr_div_pow2 by lia.
  change 15 with (Z.ones 4). rewrite Z.land_ones by lia.
  rewrite Z.pow_mul_r by lia. reflexivity.
Qed.

Ltac uuid_bits :=
  unfold uuid4_int;
  repeat first [ rewrite Z.lor_spec | rewrite Z.land_spec | rewrite Z.lnot_spec by lia
                | rewrite Z.shiftl_spec by lia | rewrite Z.shiftr_spec by lia ];
  repeat match goal with |- context [Z.testbit ?r ?k] => is_var r; destruct (Z.testbit r k) end;
  reflexivity.

Lemma uuid4_version_bits r : Z.land (Z.shiftr (uuid4_int r) 76) 15 = 4.
Proof.
  apply Z.bits_inj'. intros n Hn. rewrite Z.land_spec, Z.shiftr_spec by lia.
  destruct (Z.lt_ge_cases n 4) as [Hlt | Hge].
  - assert (n = 0 \/ n = 1 \/ n = 2 \/ n = 3) as Hc by lia.
    repeat destruct Hc as [-> | Hc]; try subst n; uuid_bits.
  - rewrite (Z.bits_above_log2 15 n), (Z.bits_above_log2 4 n) by (cbn; lia).
    apply andb_false_r.
Qed.

Lemma uuid4_variant_bits r :
  Z.land (Z.shiftr (uuid4_int r) 60) 15 = Z.lor 8 (Z.land (Z.shiftr r 60) 3).
Proof.
  apply Z.bits_inj'. intros n Hn.
  rewrite Z.land_spec, Z.shiftr_spec, Z.lor_spec, Z.land_spec by lia.
  destruct (Z.lt_ge_cases n 4) as [Hlt | Hge].
  - assert (n = 0 \/ n = 1 \/ n = 2 \/ n = 3) as Hc by lia.
    repeat destruct Hc as [-> | Hc]; try subst n; uuid_bits.
  - rewrite (Z.bits_above_log2 15 n), (Z.bits_above_log2 8 n), (Z.bits_above_log2 3 n)
      by (cbn; lia).
    rewrite !andb_false_r. reflexivity.
Qed.

Lemma string_get_nth_error n s : String.get n s = nth_error (list_ascii_of_string s) n.
Proof.
  revert n. induction s as [|c s IH]; intro n; destruct n; simpl; auto.
Qed.

Lemma string_length_list s : String.length s = length (list_ascii_of_string s).
Proof. induction s as [|c s IH]; simpl; congruence. Qed.

Lemma uuid_str_layout i :
  let u := list_ascii_of_string (uuid_str i) in
  length u = 36%nat /\
  Forall (fun n => nth_error u n = Some "-"%char) [8; 13; 18; 23]%nat /\
  nth_error u 14 = nth_error (hex_fixed 32 i) 12 /\
  nth_error u 19 = nth_error (hex_fixed 32 i) 16 /\
  (forall n, (n < 36)%nat -> ~ In n [8; 13; 18; 23]%nat ->
   exists c, nth_error u n = Some c /\ In c hex_chars).
Proof.
  unfold uuid_str. cbv zeta. rewrite list_ascii_of_string_of_list_ascii.
  pose proof (length_hex_fixed 32 i) as Hl.
  pose proof (hex_fixed_hex 32 i) as Hf. rewrite Forall_forall in Hf.
  generalize dependent (hex_fixed 32 i). intros l Hl Hf.
  do 32 (destruct l as [|? l]; [discriminate |]). destruct l; [| discriminate].
  split; [reflexivity |]. split; [repeat constructor |].
  split; [reflexivity |]. split; [reflexivity |].
  intros n Hn Hh.
  do 36 (destruct n as [|n];
         [first [exfalso; apply Hh; simpl; tauto
                | eexists; split; [reflexivity | apply Hf; simpl; intuition]] |]).
  lia.
Qed.

(** The job id of an accepted upload, [str(uuid.uuid4())], is 36
    characters long: lowercase hexadecimal digits with [-] at positions
    8, 13, 18 and 23 (and nowhere else), the version digit [4] at position
    14 and a variant digit among [8], [9], [a], [b] at position 19, whatever
    the 128 random bits. *)
Theorem uuid4_format r :
  String.length (uuid4 r) = 36%nat /\
  Forall (fun n => String.get n (uuid4 r) = Some "-"%char) [8; 13; 18; 23]%nat /\
  String.get 14 (uuid4 r) = Some "4"%char /\
  (exists c, String.get 19 (uuid4 r) = Some c /\ In c ["8"; "9"; "a"; "b"]%char) /\
  (forall n, (n < 36)%nat -> ~ In n [8; 13; 18; 23]%nat ->
   exists c, String.get n (uuid4 r) = Some c /\ In c hex_chars).
Proof.
  unfold uuid4.
  destruct (uuid_str_layout (uuid4_int r)) as (Hlen & Hdash & H14 & H19 & Hhex).
  rewrite string_length_list. split; [exact Hlen |].
  split; [eapply Forall_impl; [| exact Hdash]; intros n Hn; rewrite string_get_nth_error; exact Hn |].
  rewrite !string_get_nth_error, H14, H19, !nth_error_hex_fixed by lia.
  rewrite !div16_mod by lia. cbn [Z.of_nat Nat.sub Pos.of_succ_nat Z.mul].
  split; [| split].
  - change (Z.land (Z.shiftr (uuid4_int r) (4 * 19)) 15) with
      (Z.land (Z.shiftr (uuid4_int r) 76) 15).
    rewrite uuid4_version_bits. reflexivity.
  - change (Z.land (Z.shiftr (uuid4_int r) (4 * 15)) 15) with
      (Z.land (Z.shiftr (uuid4_int r) 60) 15).
    rewrite uuid4_variant_bits.
    assert (0 <= Z.land (Z.shiftr r 60) 3 < 4) as Hb.
    { change 3 with (Z.ones 2). rewrite Z.land_ones by lia. apply Z.mod_pos_bound. lia. }
    assert (Z.land (Z.shiftr r 60) 3 = 0 \/ Z.land (Z.shiftr r 60) 3 = 1 \/
            Z.land (Z.shiftr r 60) 3 = 2 \/ Z.land (Z.shiftr r 60) 3 = 3) as Hc by lia.
    eexists; split; [reflexivity |].
    repeat destruct Hc as [Hc | Hc]; rewrite Hc; vm_compute; tauto.
  - intros n Hn Hh. rewrite string_get_nth_error. exact (Hhex n Hn Hh).
Qed.

(** The job id is plain ASCII: its [len] is its 36 bytes. *)
Lemma uuid4_py_len r : py_len (uuid4 r) = 36%nat.
Proof.
  unfold uuid4.
  destruct (uuid_str_layout (uuid4_int r)) as (Hlen & Hdash & _ & _ & Hhex).
  unfold py_len. set (l := list_ascii_of_string (uuid_str (uuid4_int r))) in *.
  assert (Hc : Forall (fun c => is_cont c = false) l).
  { apply Forall_forall. intros c Hin. apply In_nth_error in Hin as [n Hn].
    assert (Hn36 : (n < 36)%nat) by (rewrite <- Hlen; apply nth_error_Some; congruence).
    destruct (in_dec Nat.eq_dec n [8; 13; 18; 23]%nat) as [Hd | Hd].
    - rewrite Forall_forall in Hdash. rewrite (Hdash n Hd) in Hn.
      injection Hn as <-. reflexivity.
    - destruct (Hhex n Hn36 Hd) as [c' [Hn' Hc']]. rewrite Hn in Hn'.
      injection Hn' as <-. unfold hex_chars in Hc'. simpl in Hc'.
      repeat destruct Hc' as [<- | Hc']; try reflexivity. destruct Hc'. }
  rewrite <- Hlen. clear - Hc.
  induction Hc as [|c l Hc _ IH]; simpl; [reflexivity |].
  rewrite Hc. simpl. f_equal. exact IH.
Qed.

Lemma import_products_accepted filename r job_id job fp :
  snd (import_products filename r) = Some (job_id, job, fp) ->
  job_id = uuid4 r /\ job = new_job /\ fp = "temp_uploads/" ++ uuid4 r ++ ".csv".
Proof.
  unfold import_products. destruct (endswith ".csv" filename); simpl; [| discriminate].
  intro H. injection H as <- <- <-. auto.
Qed.

(** The id an accepted upload hands out is never answered [invalid_id] by
    the progress stream: [import_progress] goes straight to polling the job. *)
Theorem import_then_progress filename r read job_id job fp :
  snd (import_products filename r) = Some (job_id, job, fp) ->
  event_generator job_id read = poll 600 0 read.
Proof.
  intro H. apply import_products_accepted in H as (-> & _ & _).
  pose proof (uuid4_py_len r) as Hlen.
  unfold event_generator. rewrite Hlen.
  destruct (String.eqb (uuid4 r) "") eqn:E.
  - apply String.eqb_eq in E. rewrite E in Hlen. discriminate.
  - reflexivity.
Qed.

Lemma import_then_progress_witness :
  snd (import_products "items.csv" 0) =
    Some (uuid4 0, new_job, "temp_uploads/" ++ uuid4 0 ++ ".csv") /\
  event_generator (uuid4 0) (fun _ => Some new_job) = poll 600 0 (fun _ => Some new_job).
Proof.
  split; [reflexivity |].
  apply (import_then_progress "items.csv" 0 _ _ new_job
           ("temp_uploads/" ++ uuid4 0 ++ ".csv")).
  reflexivity.
Defined.

(** The background run started by an accepted upload, on the job row it
    committed, ends with the guarantees of [process_csv_import_sync]: a
    status history allowed from [pending], the job row committed, a terminal
    status when the last commit went through, and one [product.imported]
    dispatch exactly when the status is a success. *)
Theorem import_then_run filename r env present ps ws job_id job fp :
  snd (import_products filename r) = Some (job_id, job, fp) ->
  final_ok env job_id (run env (mkDB (Some job) ps ws) present job_id fp).
Proof.
  intro H. apply import_products_accepted in H as (-> & -> & ->).
  apply run_final_ok. reflexivity.
Qed.

Lemma import_then_run_witness :
  snd (import_products "items.csv" 0) =
    Some (uuid4 0, new_job, "temp_uploads/" ++ uuid4 0 ++ ".csv") /\
  final_ok (csv_env (fun _ => None) [csv_row "A1" "Apple" ""]) (uuid4 0)
    (run (csv_env (fun _ => None) [csv_row "A1" "Apple" ""])
         (mkDB (Some new_job) [] []) true (uuid4 0)
         ("temp_uploads/" ++ uuid4 0 ++ ".csv")).
Proof.
  split; [reflexivity |].
  apply (import_then_run "items.csv" 0). reflexivity.
Defined.

Lemma import_products_spec_witness :
  import_products "data.CSV" 0 = (RespErr 400 "Only CSV files are allowed", None) /\
  import_products "items.csv" 0 =
    (RespOk (uuid4 0, "processing"),
     Some (uuid4 0, new_job, "temp_uploads/" ++ uuid4 0 ++ ".csv")).
Proof.
  split.
  - apply (proj1 (import_products_spec "data.CSV" 0)).
    intro H. apply endswith_spec in H. vm_compute in H. discriminate.
  - apply (proj2 (import_products_spec "items.csv" 0)).
    exists "items". reflexivity.
Defined.
